(** * HealthHub: authentication and role-based authorization core

    A shallow embedding of the Go sources

      - [internal/auth/jwt.go]      (TokenManager, Claims),
      - package [auth], middleware  (AuthMiddleware, RequireRole,
                                     RequirePermission, checkPermission),
      - [internal/auth/rbac.go]     (RBACService),
      - package [models], users     (User, Role, Permission, CheckPassword),
      - [internal/handlers/auth.go] (AuthHandler.Login,
                                     AuthHandler.RefreshToken),

    followed by the properties of the specification that were checked
    against them, and by further properties of the same code.

    Conventions.  A Go method [(r *T) M] is the definition [T_M]; package
    level functions keep their names.  A Go [error] result is an [option]
    ([None] is [nil]); a [(value, error)] result is a [result].  A call
    of [time.Now()] is an explicit [Time] argument, or the clock of the
    [World] for the code that works on the store.  The relational store
    behind [*gorm.DB] is a record of tables (lists of rows, in insertion
    order) threaded through every operation. *)

From Stdlib Require Import ZArith Lia Permutation Ascii.
From stdpp Require Import gmap strings list.

(* ================================================================== *)
(** * Part I: definitions                                              *)
(* ================================================================== *)

(** ** Go results *)

Inductive result (E A : Type) : Type :=
| Ok (a : A)
| Err (e : E).
Arguments Ok {E A} a.
Arguments Err {E A} e.

Definition is_Ok {E A} (r : result E A) : bool :=
  match r with Ok _ => true | Err _ => false end.

(** ** Package [strings] *)

(** [strip_prefix p s] is [Some t] when [s = p ++ t]. *)
Fixpoint strip_prefix (p s : string) : option string :=
  match p with
  | EmptyString => Some s
  | String a p' =>
      match s with
      | EmptyString => None
      | String b s' => if Ascii.eqb a b then strip_prefix p' s' else None
      end
  end.

(** [strings.TrimPrefix(s, prefix)]: [s] without the leading [prefix];
    [s] itself when it does not start with [prefix]. *)
Definition TrimPrefix (s prefix : string) : string :=
  match strip_prefix prefix s with
  | Some t => t
  | None => s
  end.

(** ** Package [time] *)

(** A [time.Time] as the number of nanoseconds since the Unix epoch, a
    [time.Duration] as a number of nanoseconds. *)
Definition Time := Z.
Definition Duration := Z.
Bind Scope Z_scope with Time Duration.

Definition Second : Duration := 1000000000%Z.
Definition Hour : Duration := (3600 * Second)%Z.

Definition Time_Add (t : Time) (d : Duration) : Time := (t + d)%Z.
Definition Time_Before (t u : Time) : bool := (t <? u)%Z.

(** The zero [time.Time] (January 1, year 1). *)
Definition Time_zero : Time := (-62135596800 * Second)%Z.

(** [t.Truncate(d)]: [t] rounded down to a multiple of [d] since the
    zero time; [t] itself when [d <= 0]. *)
Definition Time_Truncate (t : Time) (d : Duration) : Time :=
  if (d <=? 0)%Z then t else (t - (t - Time_zero) mod d)%Z.

(** ** Package [github.com/golang-jwt/jwt/v5] (v5.0.0)

    The library is a dependency of the repository.  Its control flow
    ([ParseWithClaims], the claims validator, [NewNumericDate]) is
    written out below; the byte level (base64url, JSON, HMAC-SHA) is the
    interface [Wire]. *)

(** [jwt.TimePrecision]: the precision of every date inside a token. *)
Definition TimePrecision : Duration := Second.

(** [jwt.NumericDate], built by [jwt.NewNumericDate(t)], which truncates
    [t] to [TimePrecision]. *)
Definition NumericDate := Time.
Definition NewNumericDate (t : Time) : NumericDate :=
  Time_Truncate t TimePrecision.

Record RegisteredClaims := {
  Issuer : string;
  Subject : string;
  Audience : list string;
  ExpiresAt : option NumericDate;
  NotBefore : option NumericDate;
  IssuedAt : option NumericDate;
  ID : string
}.

(** [auth.Claims] ([jwt.go], lines 10-15). *)
Record Claims := {
  UserID : string;
  Email : string;
  Roles : list string;
  Registered : RegisteredClaims
}.

(** The signing methods the library registers: the HMAC family is the
    Go type [*jwt.SigningMethodHMAC]; [none], RSA, RSA-PSS, ECDSA and
    Ed25519 are other types. *)
Inductive SigningMethod :=
| SigningMethodHMAC (alg : string)
| SigningMethodNone
| SigningMethodOther (alg : string).

Definition GetSigningMethod (alg : string) : option SigningMethod :=
  if bool_decide (alg ∈ ["HS256"; "HS384"; "HS512"]) then
    Some (SigningMethodHMAC alg)
  else if bool_decide (alg = "none") then Some SigningMethodNone
  else if bool_decide (alg ∈ ["RS256"; "RS384"; "RS512"; "PS256"; "PS384";
                              "PS512"; "ES256"; "ES384"; "ES512"; "EdDSA"])
  then Some (SigningMethodOther alg)
  else None.

(** The sentinel errors of the library.  A returned error wraps several
    of them; [errors.Is] is membership. *)
Inductive Sentinel :=
| ErrTokenMalformed
| ErrTokenUnverifiable
| ErrTokenSignatureInvalid
| ErrSignatureInvalid
| ErrTokenInvalidClaims
| ErrTokenExpired
| ErrTokenNotValidYet
| ErrTokenInvalid.

Definition TokenError := list Sentinel.

#[global] Instance Sentinel_eq_dec : EqDecision Sentinel.
Proof. solve_decision. Defined.

Definition errors_Is (e : TokenError) (s : Sentinel) : bool :=
  bool_decide (s ∈ e).

(** What the three segments of a compact token decode to:
    the header's [alg] entry ([None] when it is absent or no string), the
    claims, the text that was signed ([parts[0] + "." + parts[1]]) and the
    signature bytes ([None] when the third segment is not base64url). *)
Record Decoded := {
  d_alg : option string;
  d_claims : Claims;
  d_text : string;
  d_sig : option string
}.

(** The byte level of the library. *)
Class Wire := {
  (** [Token.SigningString]: base64url(JSON header) "." base64url(JSON claims). *)
  signingString : string -> Claims -> string;
  (** the MAC of a text under a key, for the hash of the HMAC method [alg]. *)
  hmacSum : string -> string -> string -> string;
  (** base64url of the signature bytes. *)
  encodeSegment : string -> string;
  (** splitting a token at its dots and decoding the segments;
      [None] when there are not three segments or the header or claims
      segment does not decode. *)
  decodeToken : string -> option Decoded
}.

Section JWT.
Context `{Wire}.

(** [jwt.NewWithClaims(method, claims).SignedString(key)] for an HMAC
    method and a [[]byte] key (it cannot fail for these). *)
Definition SignedString (alg : string) (key : string) (claims : Claims) : string :=
  let sstr := signingString alg claims in
  sstr +:+ "." +:+ encodeSegment (hmacSum alg key sstr).

(** [SigningMethodHMAC.Verify]. *)
Definition HMAC_Verify (alg text sig key : string) : option Sentinel :=
  if String.eqb sig (hmacSum alg key text) then None else Some ErrSignatureInvalid.

(** [Parser.ParseUnverified]: the decoded token and its method. *)
Definition ParseUnverified (tokenString : string)
  : result TokenError (Decoded * SigningMethod) :=
  match decodeToken tokenString with
  | None => Err [ErrTokenMalformed]
  | Some d =>
      match d_alg d with
      | None => Err [ErrTokenUnverifiable]
      | Some alg =>
          match GetSigningMethod alg with
          | None => Err [ErrTokenUnverifiable]
          | Some m => Ok (d, m)
          end
      end
  end.

(** The default claims validator: expiry and not-before are checked
    when present, with no leeway; issued-at is not checked. *)
Definition verifyExpiresAt (c : RegisteredClaims) (cmp : Time) : bool :=
  match ExpiresAt c with
  | None => true
  | Some exp => Time_Before cmp exp
  end.

Definition verifyNotBefore (c : RegisteredClaims) (cmp : Time) : bool :=
  match NotBefore c with
  | None => true
  | Some nbf => negb (Time_Before cmp nbf)
  end.

Definition Validator_Validate (now : Time) (c : RegisteredClaims) : list Sentinel :=
  (if verifyExpiresAt c now then [] else [ErrTokenExpired]) ++
  (if verifyNotBefore c now then [] else [ErrTokenNotValidYet]).

(** [jwt.ParseWithClaims(tokenString, &Claims{}, keyFunc)], with the key
    function a parameter; [now] is the validator's [time.Now()]. *)
Definition ParseWithClaims (now : Time) (tokenString : string)
    (keyFunc : SigningMethod -> result Sentinel string)
  : result TokenError Claims :=
  match ParseUnverified tokenString with
  | Err e => Err e
  | Ok (d, m) =>
      match keyFunc m with
      | Err e => Err [ErrTokenUnverifiable; e]
      | Ok key =>
          match d_sig d with
          | None => Err [ErrTokenMalformed]
          | Some sig =>
              let verified :=
                match m with
                | SigningMethodHMAC alg => HMAC_Verify alg (d_text d) sig key
                | _ => Some ErrSignatureInvalid
                end in
              match verified with
              | Some e => Err [ErrTokenSignatureInvalid; e]
              | None =>
                  match Validator_Validate now (Registered (d_claims d)) with
                  | [] => Ok (d_claims d)
                  | errs => Err (ErrTokenInvalidClaims :: errs)
                  end
              end
          end
      end
  end.

(** ** [internal/auth/jwt.go] *)

Record TokenManager := {
  secretKey : string;
  issuer : string
}.

Definition NewTokenManager (secretKey issuer : string) : TokenManager :=
  {| secretKey := secretKey; issuer := issuer |}.

(** The claims [TokenManager.GenerateToken] builds (lines 35-46).
    [expirationTime] is [time.Now().Add(24 * time.Hour)]; [t_iat] and
    [t_nbf] are the two later readings of [time.Now()]. *)
Definition TokenManager_claims (tm : TokenManager)
    (expirationTime t_iat t_nbf : Time) (userID email : string) (roles : list string)
  : Claims :=
  {| UserID := userID;
     Email := email;
     Roles := roles;
     Registered := {|
       ExpiresAt := Some (NewNumericDate expirationTime);
       IssuedAt := Some (NewNumericDate t_iat);
       NotBefore := Some (NewNumericDate t_nbf);
       Issuer := issuer tm;
       Subject := userID;
       Audience := [];
       ID := ""
     |}
  |}.

(** [TokenManager.GenerateToken] (lines 32-55).  [t_exp], [t_iat] and
    [t_nbf] are the three readings of [time.Now()], in program order.
    Signing with HS256 under a byte key cannot fail, so the error branch
    of the source is never taken. *)
Definition TokenManager_GenerateToken (tm : TokenManager)
    (t_exp t_iat t_nbf : Time) (userID email : string) (roles : list string)
  : result TokenError (string * Time) :=
  let expirationTime := Time_Add t_exp (24 * Hour)%Z in
  let claims := TokenManager_claims tm expirationTime t_iat t_nbf userID email roles in
  let tokenString := SignedString "HS256" (secretKey tm) claims in
  Ok (tokenString, expirationTime).

(** [TokenManager.ValidateToken] (lines 58-76).  A parse that returns no
    error returns a valid token whose claims are the [*Claims] passed
    in, so the last [return nil, jwt.ErrTokenInvalid] of the source is
    never reached. *)
Definition TokenManager_ValidateToken (tm : TokenManager) (now : Time)
    (tokenString : string) : result TokenError Claims :=
  ParseWithClaims now tokenString
    (fun method =>
       match method with
       | SigningMethodHMAC _ => Ok (secretKey tm)
       | _ => Err ErrSignatureInvalid
       end).

(** [TokenManager.RefreshToken] (lines 79-87). *)
Definition TokenManager_RefreshToken (tm : TokenManager)
    (now t_exp t_iat t_nbf : Time) (tokenString : string)
  : result TokenError (string * Time) :=
  match TokenManager_ValidateToken tm now tokenString with
  | Err err => Err err
  | Ok claims =>
      TokenManager_GenerateToken tm t_exp t_iat t_nbf
        (UserID claims) (Email claims) (Roles claims)
  end.

(** [Claims.ExtractUserInfo], [Claims.HasRole], [Claims.HasAnyRole]
    (lines 90-112). *)
Definition Claims_ExtractUserInfo (c : Claims) : string * string * list string :=
  (UserID c, Email c, Roles c).

Definition Claims_HasRole (c : Claims) (role : string) : bool :=
  existsb (fun userRole => String.eqb userRole role) (Roles c).

Definition Claims_HasAnyRole (c : Claims) (roles : list string) : bool :=
  existsb (fun role => Claims_HasRole c role) roles.

(** The wire format gives back what was signed: the token made from
    [claims] under [key] decodes to the HS256 header, the same claims,
    the signed text and the signature. *)
Definition WireRoundTrip (key : string) (claims : Claims) : Prop :=
  decodeToken (SignedString "HS256" key claims) =
  Some {| d_alg := Some "HS256"; d_claims := claims;
          d_text := signingString "HS256" claims;
          d_sig := Some (hmacSum "HS256" key (signingString "HS256" claims)) |}.

End JWT.

(** ** Package [golang.org/x/crypto/bcrypt]

    [CompareHashAndPassword] parses the stored hash, hashes the password
    with the cost and salt found there and compares the two digests; every
    failure is a returned error.  Parsing and the hash function itself are
    the interface [Bcrypt]. *)

Inductive BcryptError :=
| ErrHashTooShort
| InvalidHashPrefixError
| HashVersionTooNewError
| InvalidCostError
| ErrMismatchedHashAndPassword.

Record hashed := {
  h_hash : string;
  h_salt : string;
  h_cost : nat
}.

Class Bcrypt := {
  (** [newFromHash]: version, cost, salt and digest of a stored hash. *)
  newFromHash : string -> result BcryptError hashed;
  (** [bcrypt(password, cost, salt)]: the digest. *)
  bcrypt_digest : string -> nat -> string -> result BcryptError string
}.

Definition CompareHashAndPassword `{Bcrypt} (hashedPassword password : string)
  : option BcryptError :=
  match newFromHash hashedPassword with
  | Err err => Some err
  | Ok p =>
      match bcrypt_digest password (h_cost p) (h_salt p) with
      | Err err => Some err
      | Ok otherHash =>
          if String.eqb (h_hash p) otherHash then None
          else Some ErrMismatchedHashAndPassword
      end
  end.

(** The stored hash is well formed and is the hash of the password. *)
Definition PasswordMatches `{Bcrypt} (hashedPassword password : string) : Prop :=
  exists p, newFromHash hashedPassword = Ok p /\
            bcrypt_digest password (h_cost p) (h_salt p) = Ok (h_hash p).

(** ** Package [models]: users, roles and permissions *)

Record Permission := {
  Permission_ID : string;
  Permission_Name : string;
  Permission_Description : string;
  Resource : string;
  Action : string;
  Permission_CreatedAt : Time;
  Permission_UpdatedAt : Time
}.

Record Role := {
  Role_ID : string;
  Role_Name : string;
  Role_Description : string;
  Permissions : list Permission;
  Role_CreatedAt : Time;
  Role_UpdatedAt : Time
}.

Record User := {
  User_ID : string;
  User_Email : string;
  Password : string;
  FirstName : string;
  LastName : string;
  User_Roles : list Role;
  Active : bool;
  LastLogin : option Time;
  User_CreatedAt : Time;
  User_UpdatedAt : Time;
  CreatedBy : string
}.

Record UserRole := {
  UR_UserID : string;
  UR_RoleID : string;
  GrantedBy : string;
  GrantedAt : Time
}.

Record RolePermission := {
  RP_RoleID : string;
  RP_PermissionID : string;
  RP_CreatedAt : Time
}.

(** [User.CheckPassword] (lines 122-124). *)
Definition User_CheckPassword `{Bcrypt} (u : User) (password : string)
  : option BcryptError :=
  CompareHashAndPassword (Password u) password.

(** [User.GetFullName], [User.HasRole], [User.HasPermission],
    [User.GetRoleNames] (lines 127-160). *)
Definition User_GetFullName (u : User) : string :=
  FirstName u +:+ " " +:+ LastName u.

Definition User_HasRole (u : User) (roleName : string) : bool :=
  existsb (fun role => String.eqb (Role_Name role) roleName) (User_Roles u).

Definition User_HasPermission (u : User) (resource action : string) : bool :=
  existsb (fun role =>
    existsb (fun permission =>
      String.eqb (Resource permission) resource &&
      String.eqb (Action permission) action) (Permissions role))
    (User_Roles u).

Definition User_GetRoleNames (u : User) : list string :=
  map Role_Name (User_Roles u).

Record UserInfo := {
  UI_ID : string;
  UI_Email : string;
  UI_FirstName : string;
  UI_LastName : string;
  UI_Roles : list string;
  UI_Active : bool
}.

Record AuthResponse := {
  AR_Token : string;
  AR_ExpiresAt : Time;
  AR_User : UserInfo
}.

(** ** Package [gin]: the request context *)

(** The values the handlers store under [c.Set] or put in a [gin.H]. *)
Inductive Value :=
| VString (s : string)
| VStrings (l : list string)
| VClaims (claims : Claims)
| VBool (b : bool).

(** The response bodies the handlers write with [c.JSON]. *)
Inductive Body :=
| H (fields : gmap string Value)
| ErrorResponse (error message code : string)
| AuthResponseBody (r : AuthResponse).

Record Context := {
  Request_Header : gmap string string;
  Keys : gmap string Value;
  (** the calls of [c.JSON], oldest first *)
  Written : list (nat * Body);
  (** [c.Abort()] was called: the handlers after this one do not run *)
  Aborted : bool;
  (** a handler panicked *)
  Panicked : bool
}.

Definition StatusOK : nat := 200.
Definition StatusUnauthorized : nat := 401.
Definition StatusForbidden : nat := 403.
Definition StatusInternalServerError : nat := 500.

Definition Context_GetHeader (c : Context) (key : string) : string :=
  default "" (Request_Header c !! key).

Definition Context_Get (c : Context) (key : string) : option Value :=
  Keys c !! key.

Definition Context_Set (key : string) (v : Value) (c : Context) : Context :=
  {| Request_Header := Request_Header c; Keys := <[key := v]> (Keys c);
     Written := Written c; Aborted := Aborted c; Panicked := Panicked c |}.

Definition Context_JSON (code : nat) (obj : Body) (c : Context) : Context :=
  {| Request_Header := Request_Header c; Keys := Keys c;
     Written := Written c ++ [(code, obj)]; Aborted := Aborted c;
     Panicked := Panicked c |}.

Definition Context_Abort (c : Context) : Context :=
  {| Request_Header := Request_Header c; Keys := Keys c;
     Written := Written c; Aborted := true; Panicked := Panicked c |}.

Definition Context_panic (c : Context) : Context :=
  {| Request_Header := Request_Header c; Keys := Keys c;
     Written := Written c; Aborted := Aborted c; Panicked := true |}.

(** A handler runs on the context and returns it; a handler that ends
    with [c.Next()] returns a context that is not aborted, and the chain
    goes on with the next handler. *)
Definition HandlerFunc := Context -> Context.

Fixpoint run_chain (handlers : list HandlerFunc) (c : Context) : Context :=
  match handlers with
  | [] => c
  | h :: rest =>
      let c' := h c in
      if Aborted c' || Panicked c' then c' else run_chain rest c'
  end.

(** ** Package [auth]: the middleware *)

Section Middleware.
Context `{Wire}.

(** [AuthMiddleware] (lines 217-259); [now] is the clock when the token
    is validated. *)
Definition AuthMiddleware (tokenManager : TokenManager) (now : Time) : HandlerFunc :=
  fun c =>
    let authHeader := Context_GetHeader c "Authorization" in
    if String.eqb authHeader "" then
      Context_Abort (Context_JSON StatusUnauthorized
        (H {[ "error" := VString "Authorization header required";
              "code" := VString "MISSING_AUTH_HEADER" ]}) c)
    else
      let tokenString := TrimPrefix authHeader "Bearer " in
      if String.eqb tokenString authHeader then
        Context_Abort (Context_JSON StatusUnauthorized
          (H {[ "error" := VString "Bearer token required";
                "code" := VString "INVALID_AUTH_FORMAT" ]}) c)
      else
        match TokenManager_ValidateToken tokenManager now tokenString with
        | Err _ =>
            Context_Abort (Context_JSON StatusUnauthorized
              (H {[ "error" := VString "Invalid or expired token";
                    "code" := VString "INVALID_TOKEN" ]}) c)
        | Ok claims =>
            Context_Set "claims" (VClaims claims)
              (Context_Set "user_roles" (VStrings (Roles claims))
                (Context_Set "user_email" (VString (Email claims))
                  (Context_Set "user_id" (VString (UserID claims)) c)))
        end.

(** [RequireRole] (lines 262-298). *)
Definition RequireRole (allowedRoles : list string) : HandlerFunc :=
  fun c =>
    match Context_Get c "claims" with
    | None =>
        Context_Abort (Context_JSON StatusForbidden
          (H {[ "error" := VString "User authentication required";
                "code" := VString "NOT_AUTHENTICATED" ]}) c)
    | Some (VClaims userClaims) =>
        if negb (Claims_HasAnyRole userClaims allowedRoles) then
          Context_Abort (Context_JSON StatusForbidden
            (H {[ "error" := VString "Insufficient permissions";
                  "code" := VString "INSUFFICIENT_PERMISSIONS";
                  "required_roles" := VStrings allowedRoles;
                  "user_roles" := VStrings (Roles userClaims) ]}) c)
        else c
    | Some _ =>
        Context_Abort (Context_JSON StatusForbidden
          (H {[ "error" := VString "Invalid user claims";
                "code" := VString "INVALID_CLAIMS" ]}) c)
    end.

(** The table inside [checkPermission] (lines 351-369). *)
Definition permissions : gmap string (gmap string (list string)) :=
  {[ "admin" := {[ "patients" := ["create"; "read"; "update"; "delete"];
                   "observations" := ["create"; "read"; "update"; "delete"];
                   "users" := ["create"; "read"; "update"; "delete"] ]};
     "practitioner" := {[ "patients" := ["create"; "read"; "update"];
                          "observations" := ["create"; "read"; "update"] ]};
     "nurse" := {[ "patients" := ["read"];
                   "observations" := ["read"] ]};
     "lab-tech" := {[ "patients" := ["read"];
                      "observations" := ["create"; "read"; "update"] ]} ]}.

(** [checkPermission] (lines 349-384). *)
Fixpoint checkPermission (userRoles : list string) (resource action : string) : bool :=
  match userRoles with
  | [] => false
  | role :: userRoles' =>
      let found :=
        match permissions !! role with
        | Some resourcePerms =>
            match resourcePerms !! resource with
            | Some actions =>
                existsb (fun allowedAction => String.eqb allowedAction action) actions
            | None => false
            end
        | None => false
        end in
      if found then true else checkPermission userRoles' resource action
  end.

(** [RequirePermission] (lines 301-346).  The type assertion on the
    stored claims is unchecked in the source: it panics on another
    value. *)
Definition RequirePermission (resource action : string) : HandlerFunc :=
  fun c =>
    match Context_Get c "user_id" with
    | None =>
        Context_Abort (Context_JSON StatusForbidden
          (H {[ "error" := VString "User authentication required";
                "code" := VString "NOT_AUTHENTICATED" ]}) c)
    | Some userID =>
        match Context_Get c "claims" with
        | None =>
            Context_Abort (Context_JSON StatusForbidden
              (H {[ "error" := VString "User claims not found";
                    "code" := VString "MISSING_CLAIMS" ]}) c)
        | Some (VClaims userClaims) =>
            let hasPermission := checkPermission (Roles userClaims) resource action in
            if negb hasPermission then
              Context_Abort (Context_JSON StatusForbidden
                (H {[ "error" := VString "Insufficient permissions";
                      "code" := VString "INSUFFICIENT_PERMISSIONS";
                      "resource" := VString resource;
                      "action" := VString action;
                      "user_id" := userID ]}) c)
            else c
        | Some _ => Context_panic c
        end
    end.

(** [OptionalAuth] (lines 387-415). *)
Definition OptionalAuth (tokenManager : TokenManager) (now : Time) : HandlerFunc :=
  fun c =>
    let authHeader := Context_GetHeader c "Authorization" in
    if String.eqb authHeader "" then c
    else
      let tokenString := TrimPrefix authHeader "Bearer " in
      if String.eqb tokenString authHeader then c
      else
        match TokenManager_ValidateToken tokenManager now tokenString with
        | Err _ => c
        | Ok claims =>
            Context_Set "authenticated" (VBool true)
              (Context_Set "claims" (VClaims claims)
                (Context_Set "user_roles" (VStrings (Roles claims))
                  (Context_Set "user_email" (VString (Email claims))
                    (Context_Set "user_id" (VString (UserID claims)) c))))
        end.

(** [GetClaims] (lines 446-457). *)
Definition GetClaims (c : Context) : option Claims :=
  match Context_Get c "claims" with
  | Some (VClaims userClaims) => Some userClaims
  | _ => None
  end.

End Middleware.

(** ** Package [gorm]: the store

    The five tables of [database.AutoMigrate], each a list of rows in
    insertion order.  The association fields of a stored row
    ([User_Roles], [Permissions]) are no columns: [Preload] fills them
    from the join tables. *)

Record DB := {
  tbl_users : list User;
  tbl_roles : list Role;
  tbl_permissions : list Permission;
  tbl_user_roles : list UserRole;
  tbl_role_permissions : list RolePermission
}.

Inductive GormError :=
| ErrRecordNotFound
| ErrDuplicatedKey
| ErrDriver.

(** The store together with what an operation reads from its
    environment: the clock, whether each coming statement fails in the
    storage layer ([true]: it fails with a driver error and changes
    nothing; the empty list: no more failures), and the coming results
    of [uuid.New()]. *)
Record World := {
  tables : DB;
  clock : Time;
  faults : list bool;
  uuids : nat -> string
}.

Definition with_tables (db : DB) (w : World) : World :=
  {| tables := db; clock := clock w; faults := faults w; uuids := uuids w |}.

(** One statement reaches the storage layer. *)
Definition statement (w : World) : bool * World :=
  match faults w with
  | [] => (false, w)
  | failed :: rest =>
      (failed, {| tables := tables w; clock := clock w; faults := rest;
                  uuids := uuids w |})
  end.

(** [uuid.New().String()]. *)
Definition uuid_New (w : World) : string * World :=
  (uuids w 0,
   {| tables := tables w; clock := clock w; faults := faults w;
      uuids := fun n => uuids w (S n) |}).

(** [db.Where(cond).First(&row)]: a row that meets the condition (the
    conditions of this program select on unique columns), or
    [ErrRecordNotFound]. *)
Definition gorm_First {T} (tbl : DB -> list T) (cond : T -> bool) (w : World)
  : result GormError T * World :=
  let '(failed, w) := statement w in
  if failed then (Err ErrDriver, w)
  else match List.find cond (tbl (tables w)) with
       | Some row => (Ok row, w)
       | None => (Err ErrRecordNotFound, w)
       end.

(** [db.Where(cond).Find(&rows)]: all rows that meet the condition; no
    error when there is none. *)
Definition gorm_Find {T} (tbl : DB -> list T) (cond : T -> bool) (w : World)
  : result GormError (list T) * World :=
  let '(failed, w) := statement w in
  if failed then (Err ErrDriver, w)
  else (Ok (List.filter cond (tbl (tables w))), w).

(** [Preload("Permissions")] on a role, [Preload("Roles")] and
    [Preload("Roles.Permissions")] on a user. *)
Definition role_permissions_of (db : DB) (roleID : string) : list Permission :=
  List.filter (fun p =>
    existsb (fun rp => String.eqb (RP_RoleID rp) roleID &&
                       String.eqb (RP_PermissionID rp) (Permission_ID p))
      (tbl_role_permissions db)) (tbl_permissions db).

Definition set_Permissions (r : Role) (ps : list Permission) : Role :=
  {| Role_ID := Role_ID r; Role_Name := Role_Name r;
     Role_Description := Role_Description r; Permissions := ps;
     Role_CreatedAt := Role_CreatedAt r; Role_UpdatedAt := Role_UpdatedAt r |}.

Definition Preload_Permissions (db : DB) (r : Role) : Role :=
  set_Permissions r (role_permissions_of db (Role_ID r)).

Definition user_roles_of (db : DB) (userID : string) : list Role :=
  List.filter (fun r =>
    existsb (fun ur => String.eqb (UR_UserID ur) userID &&
                       String.eqb (UR_RoleID ur) (Role_ID r))
      (tbl_user_roles db)) (tbl_roles db).

Definition set_Roles (u : User) (rs : list Role) : User :=
  {| User_ID := User_ID u; User_Email := User_Email u; Password := Password u;
     FirstName := FirstName u; LastName := LastName u; User_Roles := rs;
     Active := Active u; LastLogin := LastLogin u;
     User_CreatedAt := User_CreatedAt u; User_UpdatedAt := User_UpdatedAt u;
     CreatedBy := CreatedBy u |}.

Definition Preload_Roles (db : DB) (u : User) : User :=
  set_Roles u (user_roles_of db (User_ID u)).

Definition Preload_Roles_Permissions (db : DB) (u : User) : User :=
  set_Roles u (map (Preload_Permissions db) (user_roles_of db (User_ID u))).

(** [db.Create(&role)]: the [BeforeCreate] hook gives an empty id a fresh
    uuid, the time stamps are set, and the row is inserted unless the
    primary key or the unique index on the name refuses it. *)
Definition gorm_Create_Role (role : Role) (w : World) : result GormError Role * World :=
  let '(id, w) := if String.eqb (Role_ID role) "" then uuid_New w
                  else (Role_ID role, w) in
  let role := {| Role_ID := id; Role_Name := Role_Name role;
                 Role_Description := Role_Description role;
                 Permissions := Permissions role;
                 Role_CreatedAt := clock w; Role_UpdatedAt := clock w |} in
  let '(failed, w) := statement w in
  if failed then (Err ErrDriver, w)
  else
    let db := tables w in
    if existsb (fun r => String.eqb (Role_ID r) id ||
                         String.eqb (Role_Name r) (Role_Name role)) (tbl_roles db)
    then (Err ErrDuplicatedKey, w)
    else (Ok role,
          with_tables {| tbl_users := tbl_users db;
                         tbl_roles := tbl_roles db ++ [role];
                         tbl_permissions := tbl_permissions db;
                         tbl_user_roles := tbl_user_roles db;
                         tbl_role_permissions := tbl_role_permissions db |} w).

(** [db.Create(&permission)]. *)
Definition gorm_Create_Permission (permission : Permission) (w : World)
  : result GormError Permission * World :=
  let '(id, w) := if String.eqb (Permission_ID permission) "" then uuid_New w
                  else (Permission_ID permission, w) in
  let permission := {| Permission_ID := id;
                       Permission_Name := Permission_Name permission;
                       Permission_Description := Permission_Description permission;
                       Resource := Resource permission; Action := Action permission;
                       Permission_CreatedAt := clock w;
                       Permission_UpdatedAt := clock w |} in
  let '(failed, w) := statement w in
  if failed then (Err ErrDriver, w)
  else
    let db := tables w in
    if existsb (fun p => String.eqb (Permission_ID p) id ||
                         String.eqb (Permission_Name p) (Permission_Name permission))
         (tbl_permissions db)
    then (Err ErrDuplicatedKey, w)
    else (Ok permission,
          with_tables {| tbl_users := tbl_users db;
                         tbl_roles := tbl_roles db;
                         tbl_permissions := tbl_permissions db ++ [permission];
                         tbl_user_roles := tbl_user_roles db;
                         tbl_role_permissions := tbl_role_permissions db |} w).

(** [db.Create(&assignment)]: the primary key of [user_roles] is the
    pair (user id, role id). *)
Definition gorm_Create_UserRole (assignment : UserRole) (w : World)
  : option GormError * World :=
  let '(failed, w) := statement w in
  if failed then (Some ErrDriver, w)
  else
    let db := tables w in
    if existsb (fun ur => String.eqb (UR_UserID ur) (UR_UserID assignment) &&
                          String.eqb (UR_RoleID ur) (UR_RoleID assignment))
         (tbl_user_roles db)
    then (Some ErrDuplicatedKey, w)
    else (None,
          with_tables {| tbl_users := tbl_users db;
                         tbl_roles := tbl_roles db;
                         tbl_permissions := tbl_permissions db;
                         tbl_user_roles := tbl_user_roles db ++ [assignment];
                         tbl_role_permissions := tbl_role_permissions db |} w).

(** The join rows [Association("Permissions").Append] inserts: one per
    permission not yet linked to the role (the insert skips conflicts). *)
Fixpoint link_permissions (roleID : string) (ps : list Permission)
    (links : list RolePermission) : list RolePermission :=
  match ps with
  | [] => links
  | p :: ps' =>
      let links' :=
        if existsb (fun rp => String.eqb (RP_RoleID rp) roleID &&
                              String.eqb (RP_PermissionID rp) (Permission_ID p)) links
        then links
        else links ++ [{| RP_RoleID := roleID; RP_PermissionID := Permission_ID p;
                          RP_CreatedAt := Time_zero |}] in
      link_permissions roleID ps' links'
  end.

(** [db.Model(role).Association("Permissions").Append(&permissions)]:
    the permissions are rows of the store already, so only join rows are
    written; the role's field receives the permissions. *)
Definition gorm_Append_Permissions (role : Role) (ps : list Permission) (w : World)
  : option GormError * Role * World :=
  let '(failed, w) := statement w in
  if failed then (Some ErrDriver, role, w)
  else
    let db := tables w in
    (None, set_Permissions role (Permissions role ++ ps),
     with_tables {| tbl_users := tbl_users db;
                    tbl_roles := tbl_roles db;
                    tbl_permissions := tbl_permissions db;
                    tbl_user_roles := tbl_user_roles db;
                    tbl_role_permissions :=
                      link_permissions (Role_ID role) ps (tbl_role_permissions db) |} w).

(** [db.Where(cond).Delete(&T{})] on each table the program deletes
    from: the error and [RowsAffected]. *)
Definition gorm_Delete_UserRole (cond : UserRole -> bool) (w : World)
  : option GormError * nat * World :=
  let '(failed, w) := statement w in
  if failed then (Some ErrDriver, 0, w)
  else
    let db := tables w in
    (None, length (List.filter cond (tbl_user_roles db)),
     with_tables {| tbl_users := tbl_users db;
                    tbl_roles := tbl_roles db;
                    tbl_permissions := tbl_permissions db;
                    tbl_user_roles :=
                      List.filter (fun ur => negb (cond ur)) (tbl_user_roles db);
                    tbl_role_permissions := tbl_role_permissions db |} w).

Definition gorm_Delete_RolePermission (cond : RolePermission -> bool) (w : World)
  : option GormError * nat * World :=
  let '(failed, w) := statement w in
  if failed then (Some ErrDriver, 0, w)
  else
    let db := tables w in
    (None, length (List.filter cond (tbl_role_permissions db)),
     with_tables {| tbl_users := tbl_users db;
                    tbl_roles := tbl_roles db;
                    tbl_permissions := tbl_permissions db;
                    tbl_user_roles := tbl_user_roles db;
                    tbl_role_permissions :=
                      List.filter (fun rp => negb (cond rp)) (tbl_role_permissions db) |} w).

Definition gorm_Delete_Role (cond : Role -> bool) (w : World)
  : option GormError * nat * World :=
  let '(failed, w) := statement w in
  if failed then (Some ErrDriver, 0, w)
  else
    let db := tables w in
    (None, length (List.filter cond (tbl_roles db)),
     with_tables {| tbl_users := tbl_users db;
                    tbl_roles := List.filter (fun r => negb (cond r)) (tbl_roles db);
                    tbl_permissions := tbl_permissions db;
                    tbl_user_roles := tbl_user_roles db;
                    tbl_role_permissions := tbl_role_permissions db |} w).

Definition gorm_Delete_Permission (cond : Permission -> bool) (w : World)
  : option GormError * nat * World :=
  let '(failed, w) := statement w in
  if failed then (Some ErrDriver, 0, w)
  else
    let db := tables w in
    (None, length (List.filter cond (tbl_permissions db)),
     with_tables {| tbl_users := tbl_users db;
                    tbl_roles := tbl_roles db;
                    tbl_permissions :=
                      List.filter (fun p => negb (cond p)) (tbl_permissions db);
                    tbl_user_roles := tbl_user_roles db;
                    tbl_role_permissions := tbl_role_permissions db |} w).

(** A transaction: [Begin] remembers the tables, [Rollback] puts them
    back, [Commit] is a statement of its own and puts them back when it
    fails. *)
Definition tx_Rollback (begin : DB) (w : World) : World := with_tables begin w.

Definition tx_Commit (begin : DB) (w : World) : option GormError * World :=
  let '(failed, w) := statement w in
  if failed then (Some ErrDriver, with_tables begin w) else (None, w).

(** ** [internal/auth/rbac.go] *)

(** The errors of the service: [fmt.Errorf] with its message and, where
    the format ends in [%w], the wrapped store error; [tx.Commit().Error]
    is returned as it is. *)
Inductive Error :=
| Errorf (msg : string) (cause : option GormError)
| StoreError (e : GormError).

(** [RBACService.CreateRole] (lines 23-56). *)
Definition RBACService_CreateRole (name description : string)
    (permissionIDs : list string) (w : World) : result Error Role * World :=
  let '(existing, w) := gorm_First tbl_roles (fun r => String.eqb (Role_Name r) name) w in
  match existing with
  | Ok _ => (Err (Errorf ("role with name '" +:+ name +:+ "' already exists") None), w)
  | Err _ =>
      let role := {| Role_ID := ""; Role_Name := name; Role_Description := description;
                     Permissions := []; Role_CreatedAt := Time_zero;
                     Role_UpdatedAt := Time_zero |} in
      let '(created, w) := gorm_Create_Role role w in
      match created with
      | Err err => (Err (Errorf "failed to create role" (Some err)), w)
      | Ok role =>
          let '(failure, role, w) :=
            if (0 <? length permissionIDs)%nat then
              let '(found, w) :=
                gorm_Find tbl_permissions
                  (fun p => bool_decide (Permission_ID p ∈ permissionIDs)) w in
              match found with
              | Err err => (Some (Errorf "failed to find permissions" (Some err)), role, w)
              | Ok permissions =>
                  let '(err, role, w) := gorm_Append_Permissions role permissions w in
                  match err with
                  | Some err =>
                      (Some (Errorf "failed to associate permissions" (Some err)), role, w)
                  | None => (None, role, w)
                  end
              end
            else (None, role, w) in
          match failure with
          | Some e => (Err e, w)
          | None =>
              let '(loaded, w) :=
                gorm_First tbl_roles (fun r => String.eqb (Role_ID r) (Role_ID role)) w in
              match loaded with
              | Ok row => (Ok (Preload_Permissions (tables w) row), w)
              | Err _ => (Ok role, w)
              end
          end
      end
  end.

(** [RBACService.CreatePermission] (lines 59-78). *)
Definition RBACService_CreatePermission (name description resource action : string)
    (w : World) : result Error Permission * World :=
  let '(existing, w) :=
    gorm_First tbl_permissions (fun p => String.eqb (Permission_Name p) name) w in
  match existing with
  | Ok _ =>
      (Err (Errorf ("permission with name '" +:+ name +:+ "' already exists") None), w)
  | Err _ =>
      let permission := {| Permission_ID := ""; Permission_Name := name;
                           Permission_Description := description;
                           Resource := resource; Action := action;
                           Permission_CreatedAt := Time_zero;
                           Permission_UpdatedAt := Time_zero |} in
      let '(created, w) := gorm_Create_Permission permission w in
      match created with
      | Err err => (Err (Errorf "failed to create permission" (Some err)), w)
      | Ok permission => (Ok permission, w)
      end
  end.

(** [RBACService.AssignRoleToUser] (lines 81-113). *)
Definition RBACService_AssignRoleToUser (userID roleID grantedBy : string)
    (w : World) : option Error * World :=
  let '(user, w) := gorm_First tbl_users (fun u => String.eqb (User_ID u) userID) w in
  match user with
  | Err err => (Some (Errorf "user not found" (Some err)), w)
  | Ok _ =>
      let '(role, w) := gorm_First tbl_roles (fun r => String.eqb (Role_ID r) roleID) w in
      match role with
      | Err err => (Some (Errorf "role not found" (Some err)), w)
      | Ok _ =>
          let '(existingAssignment, w) :=
            gorm_First tbl_user_roles
              (fun ur => String.eqb (UR_UserID ur) userID &&
                         String.eqb (UR_RoleID ur) roleID) w in
          match existingAssignment with
          | Ok _ => (Some (Errorf "user already has this role" None), w)
          | Err _ =>
              let assignment := {| UR_UserID := userID; UR_RoleID := roleID;
                                   GrantedBy := grantedBy; GrantedAt := clock w |} in
              let '(err, w) := gorm_Create_UserRole assignment w in
              match err with
              | Some err => (Some (Errorf "failed to assign role" (Some err)), w)
              | None => (None, w)
              end
          end
      end
  end.

(** [RBACService.RemoveRoleFromUser] (lines 116-127). *)
Definition RBACService_RemoveRoleFromUser (userID roleID : string) (w : World)
  : option Error * World :=
  let '(err, rowsAffected, w) :=
    gorm_Delete_UserRole
      (fun ur => String.eqb (UR_UserID ur) userID && String.eqb (UR_RoleID ur) roleID) w in
  match err with
  | Some err => (Some (Errorf "failed to remove role" (Some err)), w)
  | None =>
      if (rowsAffected =? 0)%nat then (Some (Errorf "role assignment not found" None), w)
      else (None, w)
  end.

(** [RBACService.GetUserRoles] (lines 130-137). *)
Definition RBACService_GetUserRoles (userID : string) (w : World)
  : result Error (list Role) * World :=
  let '(user, w) := gorm_First tbl_users (fun u => String.eqb (User_ID u) userID) w in
  match user with
  | Err err => (Err (Errorf "user not found" (Some err)), w)
  | Ok user => (Ok (User_Roles (Preload_Roles_Permissions (tables w) user)), w)
  end.

(** [RBACService.HasRole] (lines 178-191). *)
Definition RBACService_HasRole (userID roleName : string) (w : World)
  : result Error bool * World :=
  let '(roles, w) := RBACService_GetUserRoles userID w in
  match roles with
  | Err err => (Err err, w)
  | Ok roles => (Ok (existsb (fun role => String.eqb (Role_Name role) roleName) roles), w)
  end.

(** [RBACService.DeleteRole] (lines 228-256). *)
Definition RBACService_DeleteRole (roleID : string) (w : World) : option Error * World :=
  let begin := tables w in
  let '(err, _, w) :=
    gorm_Delete_UserRole (fun ur => String.eqb (UR_RoleID ur) roleID) w in
  match err with
  | Some err =>
      (Some (Errorf "failed to remove role from users" (Some err)), tx_Rollback begin w)
  | None =>
      let '(err, _, w) :=
        gorm_Delete_RolePermission (fun rp => String.eqb (RP_RoleID rp) roleID) w in
      match err with
      | Some err =>
          (Some (Errorf "failed to remove role permissions" (Some err)),
           tx_Rollback begin w)
      | None =>
          let '(err, _, w) :=
            gorm_Delete_Role (fun r => String.eqb (Role_ID r) roleID) w in
          match err with
          | Some err =>
              (Some (Errorf "failed to delete role" (Some err)), tx_Rollback begin w)
          | None =>
              let '(err, w) := tx_Commit begin w in
              (option_map StoreError err, w)
          end
      end
  end.

(** [RBACService.DeletePermission] (lines 259-281). *)
Definition RBACService_DeletePermission (permissionID : string) (w : World)
  : option Error * World :=
  let begin := tables w in
  let '(err, _, w) :=
    gorm_Delete_RolePermission
      (fun rp => String.eqb (RP_PermissionID rp) permissionID) w in
  match err with
  | Some err =>
      (Some (Errorf "failed to remove permission from roles" (Some err)),
       tx_Rollback begin w)
  | None =>
      let '(err, _, w) :=
        gorm_Delete_Permission (fun p => String.eqb (Permission_ID p) permissionID) w in
      match err with
      | Some err =>
          (Some (Errorf "failed to delete permission" (Some err)), tx_Rollback begin w)
      | None =>
          let '(err, w) := tx_Commit begin w in
          (option_map StoreError err, w)
      end
  end.

(** [defaultPermissions] (lines 286-299). *)
Definition default_permission (name description resource action : string) : Permission :=
  {| Permission_ID := ""; Permission_Name := name;
     Permission_Description := description; Resource := resource; Action := action;
     Permission_CreatedAt := Time_zero; Permission_UpdatedAt := Time_zero |}.

Definition defaultPermissions : list Permission :=
  [ default_permission "patients:create" "Create patients" "patients" "create";
    default_permission "patients:read" "Read patients" "patients" "read";
    default_permission "patients:update" "Update patients" "patients" "update";
    default_permission "patients:delete" "Delete patients" "patients" "delete";
    default_permission "observations:create" "Create observations" "observations" "create";
    default_permission "observations:read" "Read observations" "observations" "read";
    default_permission "observations:update" "Update observations" "observations" "update";
    default_permission "observations:delete" "Delete observations" "observations" "delete";
    default_permission "users:create" "Create users" "users" "create";
    default_permission "users:read" "Read users" "users" "read";
    default_permission "users:update" "Update users" "users" "update";
    default_permission "users:delete" "Delete users" "users" "delete" ].

(** [rolePermissions] (lines 316-332), a Go map: its entries in the
    order of the literal.  A [range] over it visits them in an order of
    its own choosing, the argument [order] of the loop below. *)
Definition rolePermissions : list (string * list string) :=
  [ ("admin",
     ["patients:create"; "patients:read"; "patients:update"; "patients:delete";
      "observations:create"; "observations:read"; "observations:update";
      "observations:delete";
      "users:create"; "users:read"; "users:update"; "users:delete"]);
    ("practitioner",
     ["patients:create"; "patients:read"; "patients:update";
      "observations:create"; "observations:read"; "observations:update"]);
    ("nurse", ["patients:read"; "observations:read"]);
    ("lab-tech",
     ["patients:read"; "observations:create"; "observations:read";
      "observations:update"]) ].

(** The first loop of [InitializeDefaultRoles] (lines 302-313). *)
Fixpoint create_default_permissions (perms : list Permission) (w : World)
  : option Error * World :=
  match perms with
  | [] => (None, w)
  | perm :: rest =>
      let '(existing, w) :=
        gorm_First tbl_permissions
          (fun p => String.eqb (Permission_Name p) (Permission_Name perm)) w in
      match existing with
      | Ok _ => create_default_permissions rest w
      | Err ErrRecordNotFound =>
          let '(created, w) := gorm_Create_Permission perm w in
          match created with
          | Err err =>
              (Some (Errorf ("failed to create permission " +:+ Permission_Name perm)
                       (Some err)), w)
          | Ok _ => create_default_permissions rest w
          end
      | Err err =>
          (Some (Errorf ("failed to check permission " +:+ Permission_Name perm)
                   (Some err)), w)
      end
  end.

(** The second loop (lines 335-360), over the entries of the map in the
    order the [range] visits them. *)
Fixpoint create_default_roles (order : list (string * list string)) (w : World)
  : option Error * World :=
  match order with
  | [] => (None, w)
  | (roleName, permNames) :: rest =>
      let '(existing, w) :=
        gorm_First tbl_roles (fun r => String.eqb (Role_Name r) roleName) w in
      match existing with
      | Ok _ => create_default_roles rest w
      | Err ErrRecordNotFound =>
          let role := {| Role_ID := ""; Role_Name := roleName;
                         Role_Description := "Default " +:+ roleName +:+ " role";
                         Permissions := []; Role_CreatedAt := Time_zero;
                         Role_UpdatedAt := Time_zero |} in
          let '(created, w) := gorm_Create_Role role w in
          match created with
          | Err err =>
              (Some (Errorf ("failed to create role " +:+ roleName) (Some err)), w)
          | Ok role =>
              let '(found, w) :=
                gorm_Find tbl_permissions
                  (fun p => bool_decide (Permission_Name p ∈ permNames)) w in
              match found with
              | Err err =>
                  (Some (Errorf ("failed to find permissions for role " +:+ roleName)
                           (Some err)), w)
              | Ok permissions =>
                  let '(err, _, w) := gorm_Append_Permissions role permissions w in
                  match err with
                  | Some err =>
                      (Some (Errorf ("failed to assign permissions to role " +:+ roleName)
                               (Some err)), w)
                  | None => create_default_roles rest w
                  end
              end
          end
      | Err err =>
          (Some (Errorf ("failed to check role " +:+ roleName) (Some err)), w)
      end
  end.

(** [RBACService.InitializeDefaultRoles] (lines 284-363). *)
Definition RBACService_InitializeDefaultRoles (order : list (string * list string))
    (w : World) : option Error * World :=
  let '(err, w) := create_default_permissions defaultPermissions w in
  match err with
  | Some err => (Some err, w)
  | None => create_default_roles order w
  end.

(** ** [internal/handlers/auth.go] *)

Section Handlers.
Context `{Wire}.

(** [err.Error()] of a token error: the messages of the wrapped
    sentinels. *)
Definition Sentinel_Error (s : Sentinel) : string :=
  match s with
  | ErrTokenMalformed => "token is malformed"
  | ErrTokenUnverifiable => "token is unverifiable"
  | ErrTokenSignatureInvalid => "token signature is invalid"
  | ErrSignatureInvalid => "signature is invalid"
  | ErrTokenInvalidClaims => "token has invalid claims"
  | ErrTokenExpired => "token is expired"
  | ErrTokenNotValidYet => "token is not valid yet"
  | ErrTokenInvalid => "token is invalid"
  end.

Definition TokenError_Error (e : TokenError) : string :=
  String.concat ": " (map Sentinel_Error e).

Record AuthHandler := {
  tokenManager : TokenManager
}.

(** [AuthHandler.RefreshToken] (lines 297-343), the handler of
    [POST /api/v1/auth/refresh]; it runs after [AuthMiddleware].  The
    fields [Details] and [Timestamp] of [ErrorResponse] are never set by
    it. *)
Definition AuthHandler_RefreshToken (h : AuthHandler) (c : Context) (w : World)
  : Context * World :=
  match GetClaims c with
  | None =>
      (Context_JSON StatusUnauthorized (ErrorResponse "Invalid token" "" "INVALID_TOKEN") c,
       w)
  | Some claims =>
      let '(found, w) :=
        gorm_First tbl_users
          (fun u => String.eqb (User_ID u) (UserID claims) && Bool.eqb (Active u) true) w in
      match found with
      | Err _ =>
          (Context_JSON StatusUnauthorized
             (ErrorResponse "User not found or inactive" "" "USER_INACTIVE") c, w)
      | Ok user =>
          let user := Preload_Roles (tables w) user in
          let roleNames := User_GetRoleNames user in
          match TokenManager_GenerateToken (tokenManager h) (clock w) (clock w) (clock w)
                  (User_ID user) (User_Email user) roleNames with
          | Err err =>
              (Context_JSON StatusInternalServerError
                 (ErrorResponse "Failed to generate token" (TokenError_Error err)
                    "TOKEN_GENERATION_FAILED") c, w)
          | Ok (token, expiresAt) =>
              let response := {|
                AR_Token := token;
                AR_ExpiresAt := expiresAt;
                AR_User := {| UI_ID := User_ID user; UI_Email := User_Email user;
                              UI_FirstName := FirstName user;
                              UI_LastName := LastName user;
                              UI_Roles := roleNames; UI_Active := Active user |}
              |} in
              (Context_JSON StatusOK (AuthResponseBody response) c, w)
          end
      end
  end.

End Handlers.

(** ** Properties of a store *)

(** The primary key of a row of [user_roles]. *)
Definition assignment_key (ur : UserRole) : string * string :=
  (UR_UserID ur, UR_RoleID ur).

(** The store after a successful assignment. *)
Definition assigned_db (db : DB) (assignment : UserRole) : DB :=
  {| tbl_users := tbl_users db;
     tbl_roles := tbl_roles db;
     tbl_permissions := tbl_permissions db;
     tbl_user_roles := tbl_user_roles db ++ [assignment];
     tbl_role_permissions := tbl_role_permissions db |}.

(** The store after the rows of a user and a role are taken out of
    [user_roles]. *)
Definition unassigned_db (db : DB) (userID roleID : string) : DB :=
  {| tbl_users := tbl_users db;
     tbl_roles := tbl_roles db;
     tbl_permissions := tbl_permissions db;
     tbl_user_roles :=
       List.filter (fun ur => negb (String.eqb (UR_UserID ur) userID &&
                                    String.eqb (UR_RoleID ur) roleID))
         (tbl_user_roles db);
     tbl_role_permissions := tbl_role_permissions db |}.

(** The store without a role: its row and every row of a join table
    that names it are taken out. *)
Definition role_deleted_db (db : DB) (roleID : string) : DB :=
  {| tbl_users := tbl_users db;
     tbl_roles :=
       List.filter (fun r => negb (String.eqb (Role_ID r) roleID)) (tbl_roles db);
     tbl_permissions := tbl_permissions db;
     tbl_user_roles :=
       List.filter (fun ur => negb (String.eqb (UR_RoleID ur) roleID))
         (tbl_user_roles db);
     tbl_role_permissions :=
       List.filter (fun rp => negb (String.eqb (RP_RoleID rp) roleID))
         (tbl_role_permissions db) |}.

(** The primary key of a row of [role_permissions]. *)
Definition link_key (rp : RolePermission) : string * string :=
  (RP_RoleID rp, RP_PermissionID rp).

(** The row [db.Create] stores for a new role, and the store after
    [CreateRole] made the role [row] and linked it to the permissions
    [found]. *)
Definition new_role (id name description : string) (now : Time) : Role :=
  {| Role_ID := id; Role_Name := name; Role_Description := description;
     Permissions := []; Role_CreatedAt := now; Role_UpdatedAt := now |}.

Definition role_created_db (db : DB) (row : Role) (found : list Permission) : DB :=
  {| tbl_users := tbl_users db;
     tbl_roles := tbl_roles db ++ [row];
     tbl_permissions := tbl_permissions db;
     tbl_user_roles := tbl_user_roles db;
     tbl_role_permissions :=
       link_permissions (Role_ID row) found (tbl_role_permissions db) |}.

(** The uniqueness constraints of the schema: primary keys, and the
    unique indexes on role and permission names. *)
Record Constraints (db : DB) : Prop := {
  roles_pk : List.NoDup (map Role_ID (tbl_roles db));
  roles_name : List.NoDup (map Role_Name (tbl_roles db));
  permissions_pk : List.NoDup (map Permission_ID (tbl_permissions db));
  permissions_name : List.NoDup (map Permission_Name (tbl_permissions db));
  user_roles_pk : List.NoDup (map assignment_key (tbl_user_roles db))
}.

(** The foreign keys of [user_roles]. *)
Definition UserRolesReferenced (db : DB) : Prop :=
  forall ur, In ur (tbl_user_roles db) ->
    In (UR_UserID ur) (map User_ID (tbl_users db)) /\
    In (UR_RoleID ur) (map Role_ID (tbl_roles db)).

(** No row of a join table names the role. *)
Definition Unreferenced (roleID : string) (db : DB) : Prop :=
  (forall ur, In ur (tbl_user_roles db) -> UR_RoleID ur <> roleID) /\
  (forall rp, In rp (tbl_role_permissions db) -> RP_RoleID rp <> roleID).

(** The coming uuids are pairwise different and are no key of a role or
    of a permission. *)
Definition FreshUUIDs (w : World) : Prop :=
  (forall m n, uuids w m = uuids w n -> m = n) /\
  (forall n, ~ In (uuids w n) (map Role_ID (tbl_roles (tables w)))) /\
  (forall n, ~ In (uuids w n) (map Permission_ID (tbl_permissions (tables w)))).

(** What a run of one of the two loops of [InitializeDefaultRoles]
    keeps and brings about, from the store [w] to the store [w']. *)
Record Seeded (w w' : World) : Prop := {
  seeded_faults : faults w' = [];
  seeded_fresh : FreshUUIDs w';
  seeded_permission_names : List.NoDup (map Permission_Name (tbl_permissions (tables w')));
  seeded_role_names : List.NoDup (map Role_Name (tbl_roles (tables w')));
  seeded_permissions_kept :
    forall n, In n (map Permission_Name (tbl_permissions (tables w))) ->
              In n (map Permission_Name (tbl_permissions (tables w')));
  seeded_roles_kept :
    forall n, In n (map Role_Name (tbl_roles (tables w))) ->
              In n (map Role_Name (tbl_roles (tables w')))
}.


(** ** Instances to run the model on

    A wire format, a password hash and a uuid source that compute, for
    the examples below.  They stand for no cryptographic property: the
    wire format writes every field with an end mark, the "MAC" joins key,
    method and text. *)

Fixpoint enc_string (s : string) : string :=
  match s with
  | EmptyString => ";"
  | String c s' => String "'"%char (String c (enc_string s'))
  end.

Fixpoint dec_string (s : string) : option (string * string) :=
  match s with
  | String c r =>
      if Ascii.eqb c ";"%char then Some (EmptyString, r)
      else if Ascii.eqb c "'"%char then
        match r with
        | String x r' =>
            match dec_string r' with
            | Some (t, rest) => Some (String x t, rest)
            | None => None
            end
        | EmptyString => None
        end
      else None
  | EmptyString => None
  end.

Fixpoint enc_strings (l : list string) : string :=
  match l with
  | [] => "]"
  | x :: l' => String ","%char (enc_string x +:+ enc_strings l')
  end.

Fixpoint dec_strings (fuel : nat) (s : string) : option (list string * string) :=
  match fuel with
  | O => None
  | S fuel' =>
      match s with
      | String c r =>
          if Ascii.eqb c "]"%char then Some ([], r)
          else if Ascii.eqb c ","%char then
            match dec_string r with
            | Some (x, r') =>
                match dec_strings fuel' r' with
                | Some (xs, rest) => Some (x :: xs, rest)
                | None => None
                end
            | None => None
            end
          else None
      | EmptyString => None
      end
  end.

Fixpoint enc_pos (p : positive) : string :=
  match p with
  | xH => "."
  | xO p' => String "0"%char (enc_pos p')
  | xI p' => String "1"%char (enc_pos p')
  end.

Fixpoint dec_pos (s : string) : option (positive * string) :=
  match s with
  | String c r =>
      if Ascii.eqb c "."%char then Some (xH, r)
      else if Ascii.eqb c "0"%char then
        match dec_pos r with Some (p, rest) => Some (xO p, rest) | None => None end
      else if Ascii.eqb c "1"%char then
        match dec_pos r with Some (p, rest) => Some (xI p, rest) | None => None end
      else None
  | EmptyString => None
  end.

Definition enc_date (d : option NumericDate) : string :=
  match d with
  | None => "N"
  | Some Z0 => "z"
  | Some (Zpos p) => String "p"%char (enc_pos p)
  | Some (Zneg p) => String "n"%char (enc_pos p)
  end.

Definition dec_date (s : string) : option (option NumericDate * string) :=
  match s with
  | String c r =>
      if Ascii.eqb c "N"%char then Some (None, r)
      else if Ascii.eqb c "z"%char then Some (Some 0%Z, r)
      else if Ascii.eqb c "p"%char then
        match dec_pos r with Some (p, rest) => Some (Some (Zpos p), rest) | None => None end
      else if Ascii.eqb c "n"%char then
        match dec_pos r with Some (p, rest) => Some (Some (Zneg p), rest) | None => None end
      else None
  | EmptyString => None
  end.

Definition enc_claims (c : Claims) : string :=
  enc_string (UserID c) +:+ enc_string (Email c) +:+ enc_strings (Roles c) +:+
  enc_string (Issuer (Registered c)) +:+ enc_string (Subject (Registered c)) +:+
  enc_strings (Audience (Registered c)) +:+ enc_date (ExpiresAt (Registered c)) +:+
  enc_date (NotBefore (Registered c)) +:+ enc_date (IssuedAt (Registered c)) +:+
  enc_string (ID (Registered c)).

Definition dec_claims (s : string) : option (Claims * string) :=
  '(uid, s) ← dec_string s;
  '(email, s) ← dec_string s;
  '(roles, s) ← dec_strings (String.length s) s;
  '(iss, s) ← dec_string s;
  '(sub, s) ← dec_string s;
  '(aud, s) ← dec_strings (String.length s) s;
  '(exp, s) ← dec_date s;
  '(nbf, s) ← dec_date s;
  '(iat, s) ← dec_date s;
  '(id, s) ← dec_string s;
  Some ({| UserID := uid; Email := email; Roles := roles;
           Registered := {| Issuer := iss; Subject := sub; Audience := aud;
                            ExpiresAt := exp; NotBefore := nbf; IssuedAt := iat;
                            ID := id |} |}, s).

Definition example_signingString (alg : string) (c : Claims) : string :=
  enc_string alg +:+ "." +:+ enc_claims c.

Definition example_decodeToken (s : string) : option Decoded :=
  '(alg, r) ← dec_string s;
  r ← strip_prefix "." r;
  '(c, r) ← dec_claims r;
  sig ← strip_prefix "." r;
  Some {| d_alg := Some alg; d_claims := c;
          d_text := String.substring 0 (String.length s - String.length r) s;
          d_sig := Some sig |}.

Definition example_hmacSum (alg key text : string) : string :=
  key +:+ "/" +:+ alg +:+ "/" +:+ text.

Definition exampleWire : Wire := {|
  signingString := example_signingString;
  hmacSum := example_hmacSum;
  encodeSegment := fun sig => sig;
  decodeToken := example_decodeToken
|}.

(** A stored hash is the digest itself; the digest of a password is the
    password behind a mark. *)
Definition exampleBcrypt : Bcrypt := {|
  newFromHash := fun h =>
    if (String.length h <? 2)%nat then Err ErrHashTooShort
    else Ok {| h_hash := h; h_salt := ""; h_cost := 10 |};
  bcrypt_digest := fun password _ _ => Ok ("$" +:+ password)
|}.

Fixpoint tally (n : nat) : string :=
  match n with
  | O => EmptyString
  | S n' => String "i"%char (tally n')
  end.

Definition example_uuids (n : nat) : string := "uuid-" +:+ tally n.

Definition example_tm : TokenManager :=
  NewTokenManager "your-super-secret-jwt-key-change-in-production" "HealthHub API".

(** The token of user [u1], issued at the epoch with the one role
    [practitioner]. *)
Definition example_token : string :=
  @SignedString exampleWire "HS256" (secretKey example_tm)
    (TokenManager_claims example_tm (Time_Add 0 (24 * Hour)) 0 0
       "u1" "doc@example.org" ["practitioner"]).

(** The token of user [u2], a patient. *)
Definition example_patient_token : string :=
  @SignedString exampleWire "HS256" (secretKey example_tm)
    (TokenManager_claims example_tm (Time_Add 0 (24 * Hour)) 0 0
       "u2" "pat@example.org" ["patient"]).

Definition example_handler : AuthHandler := {| tokenManager := example_tm |}.

(** A store with one user, a practitioner who has since been made an
    admin as well. *)
Definition example_role (id name : string) : Role :=
  {| Role_ID := id; Role_Name := name; Role_Description := "";
     Permissions := []; Role_CreatedAt := 0%Z; Role_UpdatedAt := 0%Z |}.

Definition example_permission (id name resource action : string) : Permission :=
  {| Permission_ID := id; Permission_Name := name; Permission_Description := "";
     Resource := resource; Action := action;
     Permission_CreatedAt := 0%Z; Permission_UpdatedAt := 0%Z |}.

Definition example_user : User :=
  {| User_ID := "u1"; User_Email := "doc@example.org"; Password := "$secret";
     FirstName := "Ada"; LastName := "Doc"; User_Roles := []; Active := true;
     LastLogin := None; User_CreatedAt := 0%Z; User_UpdatedAt := 0%Z;
     CreatedBy := "" |}.

Definition example_db : DB :=
  {| tbl_users := [example_user];
     tbl_roles := [example_role "r1" "practitioner"; example_role "r2" "admin"];
     tbl_permissions := [example_permission "p1" "patients:read" "patients" "read"];
     tbl_user_roles := [{| UR_UserID := "u1"; UR_RoleID := "r1"; GrantedBy := "root";
                           GrantedAt := 0%Z |};
                        {| UR_UserID := "u1"; UR_RoleID := "r2"; GrantedBy := "root";
                           GrantedAt := 0%Z |}];
     tbl_role_permissions := [{| RP_RoleID := "r1"; RP_PermissionID := "p1";
                                 RP_CreatedAt := 0%Z |}] |}.

Definition example_world (db : DB) (now : Time) : World :=
  {| tables := db; clock := now; faults := []; uuids := example_uuids |}.

Definition example_request (authorization : string) : Context :=
  {| Request_Header := {[ "Authorization" := authorization ]}; Keys := ∅;
     Written := []; Aborted := false; Panicked := false |}.

(** ** Package [auth]: reading the request context *)

(** [GetUserID] (lines 418-429). *)
Definition GetUserID (c : Context) : option string :=
  match Context_Get c "user_id" with
  | Some (VString id) => Some id
  | _ => None
  end.

(** [GetUserRoles] (lines 432-443). *)
Definition GetUserRoles (c : Context) : option (list string) :=
  match Context_Get c "user_roles" with
  | Some (VStrings roles) => Some roles
  | _ => None
  end.

(** [IsAuthenticated] (lines 460-463). *)
Definition IsAuthenticated (c : Context) : bool :=
  match Context_Get c "user_id" with
  | Some _ => true
  | None => false
  end.

(** A token with the header [alg: none] and no signature, for the
    claims of an admin. *)
Definition example_none_token : string :=
  example_signingString "none"
    (TokenManager_claims example_tm (Time_Add 0 (24 * Hour)) 0 0
       "u1" "doc@example.org" ["admin"]) +:+ ".".

(** A handler that answers 200. *)
Definition example_ok_handler : HandlerFunc :=
  Context_JSON StatusOK (H {[ "status" := VString "ok" ]}).

(** ** The two policy tables *)

(** Whether [InitializeDefaultRoles] links the role to a default
    permission for the resource and action: whether [rolePermissions]
    lists, for the role, the name of a row of [defaultPermissions] with
    that resource and action. *)
Definition seeded_grant (roleName resource action : string) : bool :=
  existsb (fun entry =>
    String.eqb (fst entry) roleName &&
    existsb (fun p =>
      String.eqb (Resource p) resource && String.eqb (Action p) action &&
      existsb (String.eqb (Permission_Name p)) (snd entry)) defaultPermissions)
    rolePermissions.

(** ** More properties of a store *)

(** The row [db.Create] stores for a new permission, and the store
    with one more permission. *)
Definition new_permission (id name description resource action : string) (now : Time)
  : Permission :=
  {| Permission_ID := id; Permission_Name := name;
     Permission_Description := description; Resource := resource; Action := action;
     Permission_CreatedAt := now; Permission_UpdatedAt := now |}.

Definition permission_created_db (db : DB) (row : Permission) : DB :=
  {| tbl_users := tbl_users db;
     tbl_roles := tbl_roles db;
     tbl_permissions := tbl_permissions db ++ [row];
     tbl_user_roles := tbl_user_roles db;
     tbl_role_permissions := tbl_role_permissions db |}.

(** The store without a permission: its row and every row of
    [role_permissions] that names it are taken out. *)
Definition permission_deleted_db (db : DB) (permissionID : string) : DB :=
  {| tbl_users := tbl_users db;
     tbl_roles := tbl_roles db;
     tbl_permissions :=
       List.filter (fun p => negb (String.eqb (Permission_ID p) permissionID))
         (tbl_permissions db);
     tbl_user_roles := tbl_user_roles db;
     tbl_role_permissions :=
       List.filter (fun rp => negb (String.eqb (RP_PermissionID rp) permissionID))
         (tbl_role_permissions db) |}.

(** All the uniqueness constraints of the schema: those of
    [Constraints] and the primary key of [role_permissions]. *)
Definition Schema (db : DB) : Prop :=
  Constraints db /\ List.NoDup (map link_key (tbl_role_permissions db)).

(** ** [internal/auth/rbac.go]: the permissions of a user *)

(** [RBACService.GetUserPermissions] (lines 140-159).  The permissions
    of the roles are collected in a Go map keyed by their ids and read
    back by a [range] over the map, which visits the entries in an order
    of its own choosing: the argument [range]. *)
Definition RBACService_GetUserPermissions
    (range : gmap string Permission -> list (string * Permission))
    (userID : string) (w : World) : result Error (list Permission) * World :=
  let '(roles, w) := RBACService_GetUserRoles userID w in
  match roles with
  | Err err => (Err err, w)
  | Ok roles =>
      let permissionMap :=
        fold_left (fun m role =>
          fold_left (fun m permission => <[Permission_ID permission := permission]> m)
            (Permissions role) m) roles (∅ : gmap string Permission) in
      (Ok (map snd (range permissionMap)), w)
  end.

(** What a [range] over a map may be: it visits every entry once. *)
Definition RangeOrder (range : gmap string Permission -> list (string * Permission))
  : Prop :=
  forall m, Permutation (range m) (map_to_list m).

(** [RBACService.HasPermission] (lines 162-175). *)
Definition RBACService_HasPermission
    (range : gmap string Permission -> list (string * Permission))
    (userID resource action : string) (w : World) : result Error bool * World :=
  let '(userPermissions, w) := RBACService_GetUserPermissions range userID w in
  match userPermissions with
  | Err err => (Err err, w)
  | Ok userPermissions =>
      (Ok (existsb (fun permission =>
             String.eqb (Resource permission) resource &&
             String.eqb (Action permission) action) userPermissions), w)
  end.

(** The map the two loops of [GetUserPermissions] build, as one loop
    over the permissions of all the roles. *)
Definition collect (ps : list Permission) (m : gmap string Permission)
  : gmap string Permission :=
  fold_left (fun m permission => <[Permission_ID permission := permission]> m) ps m.

(** ** [internal/handlers/auth.go]: logging in *)

Definition StatusBadRequest : nat := 400.

(** [models.AuthRequest] (lines 163-166 of the models). *)
Record AuthRequest := {
  Req_Email : string;
  Req_Password : string
}.

(** [err.Error()] of a store error; [ErrDriver] stands for the errors of
    the driver and carries the text of [driver.ErrBadConn]. *)
Definition GormError_Error (e : GormError) : string :=
  match e with
  | ErrRecordNotFound => "record not found"
  | ErrDuplicatedKey => "duplicated key not allowed"
  | ErrDriver => "driver: bad connection"
  end.

Definition set_LastLogin (u : User) (now : Time) : User :=
  {| User_ID := User_ID u; User_Email := User_Email u; Password := Password u;
     FirstName := FirstName u; LastName := LastName u; User_Roles := User_Roles u;
     Active := Active u; LastLogin := Some now;
     User_CreatedAt := User_CreatedAt u; User_UpdatedAt := now;
     CreatedBy := CreatedBy u |}.

(** [db.Model(&user).Update("last_login", now)]: the column and
    [updated_at] of the rows with the primary key of [user]; without a
    primary key the statement is refused before it reaches the storage
    layer.  The handler drops the result. *)
Definition gorm_Update_last_login (user : User) (now : Time) (w : World) : World :=
  if String.eqb (User_ID user) "" then w
  else
    let '(failed, w) := statement w in
    if failed then w
    else
      let db := tables w in
      with_tables {| tbl_users :=
                       map (fun row => if String.eqb (User_ID row) (User_ID user)
                                       then set_LastLogin row now else row)
                         (tbl_users db);
                     tbl_roles := tbl_roles db;
                     tbl_permissions := tbl_permissions db;
                     tbl_user_roles := tbl_user_roles db;
                     tbl_role_permissions := tbl_role_permissions db |} w.

Section Login.
Context `{Wire} `{Bcrypt}.

(** [AuthHandler.Login] (lines 47-127), the handler of
    [POST /api/v1/auth/login].  [bound] is what [c.ShouldBindJSON(&req)]
    makes of the body of the request, the request or the text of the
    error, and [validate] is [h.validator.Struct], the text of its
    error. *)
Definition AuthHandler_Login (h : AuthHandler) (validate : AuthRequest -> option string)
    (bound : result string AuthRequest) (c : Context) (w : World) : Context * World :=
  match bound with
  | Err message =>
      (Context_JSON StatusBadRequest
         (ErrorResponse "Invalid request body" message "INVALID_REQUEST_BODY") c, w)
  | Ok req =>
      match validate req with
      | Some message =>
          (Context_JSON StatusBadRequest
             (ErrorResponse "Validation failed" message "VALIDATION_FAILED") c, w)
      | None =>
          let '(found, w) :=
            gorm_First tbl_users
              (fun u => String.eqb (User_Email u) (Req_Email req) &&
                        Bool.eqb (Active u) true) w in
          match found with
          | Err ErrRecordNotFound =>
              (Context_JSON StatusUnauthorized
                 (ErrorResponse "Invalid credentials" "" "INVALID_CREDENTIALS") c, w)
          | Err err =>
              (Context_JSON StatusInternalServerError
                 (ErrorResponse "Failed to authenticate user" (GormError_Error err)
                    "DATABASE_ERROR") c, w)
          | Ok user =>
              let user := Preload_Roles (tables w) user in
              match User_CheckPassword user (Req_Password req) with
              | Some _ =>
                  (Context_JSON StatusUnauthorized
                     (ErrorResponse "Invalid credentials" "" "INVALID_CREDENTIALS") c, w)
              | None =>
                  let now := clock w in
                  let w := gorm_Update_last_login user now w in
                  let roleNames := User_GetRoleNames user in
                  match TokenManager_GenerateToken (tokenManager h)
                          (clock w) (clock w) (clock w)
                          (User_ID user) (User_Email user) roleNames with
                  | Err err =>
                      (Context_JSON StatusInternalServerError
                         (ErrorResponse "Failed to generate token" (TokenError_Error err)
                            "TOKEN_GENERATION_FAILED") c, w)
                  | Ok (token, expiresAt) =>
                      let response := {|
                        AR_Token := token;
                        AR_ExpiresAt := expiresAt;
                        AR_User := {| UI_ID := User_ID user; UI_Email := User_Email user;
                                      UI_FirstName := FirstName user;
                                      UI_LastName := LastName user;
                                      UI_Roles := roleNames; UI_Active := Active user |}
                      |} in
                      (Context_JSON StatusOK (AuthResponseBody response) c, w)
                  end
              end
          end
      end
  end.

End Login.

(** The store after a login of the user with the id. *)
Definition logged_in_db (db : DB) (userID : string) (now : Time) : DB :=
  {| tbl_users := map (fun row => if String.eqb (User_ID row) userID
                                  then set_LastLogin row now else row) (tbl_users db);
     tbl_roles := tbl_roles db;
     tbl_permissions := tbl_permissions db;
     tbl_user_roles := tbl_user_roles db;
     tbl_role_permissions := tbl_role_permissions db |}.

(** A validator that accepts every request, and the request of the
    example user. *)
Definition example_validate (req : AuthRequest) : option string := None.

Definition example_login (password : string) : AuthRequest :=
  {| Req_Email := "doc@example.org"; Req_Password := password |}.

(** ** The seeded policy *)

(** The role has exactly the permissions of the store whose names are
    listed. *)
Definition RoleGrants (db : DB) (role : Role) (permNames : list string) : Prop :=
  role_permissions_of db (Role_ID role) =
  List.filter (fun p => bool_decide (Permission_Name p ∈ permNames)) (tbl_permissions db).

(** Every link of the store is a link of a role of the store. *)
Definition LinksOfRoles (db : DB) : Prop :=
  forall rp, In rp (tbl_role_permissions db) ->
    In (RP_RoleID rp) (map Role_ID (tbl_roles db)).

(** A store with a user, before the first start of the server. *)
Definition example_new_db : DB :=
  {| tbl_users := [example_user];
     tbl_roles := [];
     tbl_permissions := [];
     tbl_user_roles := [];
     tbl_role_permissions := [] |}.

(* ================================================================== *)
(** * Part II: properties                                              *)
(* ================================================================== *)

(** ** Strings and time *)

Lemma strip_prefix_app p t : strip_prefix p (p +:+ t) = Some t.
Proof.
  induction p as [|a p IH]; simpl; [reflexivity|].
  rewrite Ascii.eqb_refl. exact IH.
Qed.

Lemma string_app_length (s t : string) :
  String.length (s +:+ t) = (String.length s + String.length t)%nat.
Proof. induction s as [|a s IH]; simpl; [reflexivity | now rewrite IH]. Qed.

(** A header ["Bearer " ++ token] is neither empty nor left unchanged by
    [TrimPrefix]: the middleware passes [token] to the validation. *)
Lemma TrimPrefix_Bearer token :
  TrimPrefix ("Bearer " +:+ token) "Bearer " = token /\
  String.eqb ("Bearer " +:+ token) "" = false /\
  String.eqb token ("Bearer " +:+ token) = false.
Proof.
  split; [|split].
  - unfold TrimPrefix. now rewrite strip_prefix_app.
  - reflexivity.
  - apply String.eqb_neq. intros E.
    apply (f_equal String.length) in E. rewrite string_app_length in E.
    simpl in E. lia.
Qed.

(** A date inside a token is the instant it was made from, less the
    part below one second. *)
Lemma NewNumericDate_bounds (t : Time) :
  (NewNumericDate t <= t < NewNumericDate t + Second)%Z.
Proof.
  unfold NewNumericDate, Time_Truncate, TimePrecision, Second. simpl.
  pose proof (Z.mod_pos_bound (t - Time_zero) 1000000000). lia.
Qed.

(** A token is issued inside its own window: the not-before date is not
    after the clock and the expiry, 24 hours later, is after it. *)
Lemma issued_now_window (now : Time) :
  (NewNumericDate now <= now < NewNumericDate (Time_Add now (24 * Hour)))%Z.
Proof.
  pose proof (NewNumericDate_bounds now).
  pose proof (NewNumericDate_bounds (Time_Add now (24 * Hour))).
  unfold Time_Add, Hour, Second in *. lia.
Qed.

(** ** The token codec *)

Section TokenCodec.
Context `{Wire}.

Lemma GetSigningMethod_HS256 :
  GetSigningMethod "HS256" = Some (SigningMethodHMAC "HS256").
Proof. reflexivity. Qed.

(** Validation of a token signed under the manager's key comes down to
    the validation of its dates. *)
Lemma ValidateToken_signed tm now claims :
  WireRoundTrip (secretKey tm) claims ->
  TokenManager_ValidateToken tm now (SignedString "HS256" (secretKey tm) claims) =
  match Validator_Validate now (Registered claims) with
  | [] => Ok claims
  | errs => Err (ErrTokenInvalidClaims :: errs)
  end.
Proof.
  intros RT. unfold TokenManager_ValidateToken, ParseWithClaims, ParseUnverified.
  rewrite RT. cbn [d_alg]. rewrite GetSigningMethod_HS256.
  unfold HMAC_Verify. cbn [d_claims d_text d_sig]. rewrite String.eqb_refl. reflexivity.
Qed.

Lemma Validator_Validate_dates now exp nbf c :
  ExpiresAt c = Some exp -> NotBefore c = Some nbf ->
  Validator_Validate now c =
  (if (now <? exp)%Z then [] else [ErrTokenExpired]) ++
  (if (now <? nbf)%Z then [ErrTokenNotValidYet] else []).
Proof.
  intros E N. unfold Validator_Validate, verifyExpiresAt, verifyNotBefore, Time_Before.
  rewrite E, N. now destruct (now <? nbf)%Z.
Qed.

(** Validation of what [GenerateToken] issued, by the place of the clock
    among the two dates inside the token. *)
Lemma ValidateToken_generated tm expirationTime t_iat t_nbf userID email roles now :
  let claims := TokenManager_claims tm expirationTime t_iat t_nbf userID email roles in
  WireRoundTrip (secretKey tm) claims ->
  TokenManager_ValidateToken tm now (SignedString "HS256" (secretKey tm) claims) =
  match (now <? NewNumericDate expirationTime)%Z, (now <? NewNumericDate t_nbf)%Z with
  | true, false => Ok claims
  | true, true => Err [ErrTokenInvalidClaims; ErrTokenNotValidYet]
  | false, false => Err [ErrTokenInvalidClaims; ErrTokenExpired]
  | false, true => Err [ErrTokenInvalidClaims; ErrTokenExpired; ErrTokenNotValidYet]
  end.
Proof.
  intros claims RT. rewrite (ValidateToken_signed _ _ _ RT).
  rewrite (Validator_Validate_dates now (NewNumericDate expirationTime)
             (NewNumericDate t_nbf)) by reflexivity.
  now destruct (now <? _)%Z, (now <? _)%Z.
Qed.

(** A token issued for an identity is accepted, with the claims it was
    issued with, as long as the clock is inside its window. *)
Lemma GenerateToken_accepted tm t_exp t_iat t_nbf userID email roles now' :
  WireRoundTrip (secretKey tm)
    (TokenManager_claims tm (Time_Add t_exp (24 * Hour)) t_iat t_nbf userID email roles) ->
  (NewNumericDate t_nbf <= now' < NewNumericDate (Time_Add t_exp (24 * Hour)))%Z ->
  TokenManager_ValidateToken tm now'
    (SignedString "HS256" (secretKey tm)
       (TokenManager_claims tm (Time_Add t_exp (24 * Hour)) t_iat t_nbf
          userID email roles)) =
  Ok (TokenManager_claims tm (Time_Add t_exp (24 * Hour)) t_iat t_nbf userID email roles).
Proof.
  intros RT [Hn He].
  rewrite (ValidateToken_generated tm _ t_iat t_nbf userID email roles now' RT).
  apply Z.ltb_lt in He. apply Z.ltb_ge in Hn. now rewrite He, Hn.
Qed.

End TokenCodec.


Section TokenCodecExamples.
#[local] Existing Instance exampleWire.



End TokenCodecExamples.

(** ** The store without storage failures *)

Lemma statement_nofault w : faults w = [] -> statement w = (false, w).
Proof. unfold statement. now intros ->. Qed.

Lemma gorm_First_nofault {T} (tbl : DB -> list T) cond w :
  faults w = [] ->
  gorm_First tbl cond w =
  (match List.find cond (tbl (tables w)) with
   | Some row => Ok row
   | None => Err ErrRecordNotFound
   end, w).
Proof.
  intros F. unfold gorm_First. rewrite (statement_nofault w F).
  now destruct (List.find cond (tbl (tables w))).
Qed.

Lemma gorm_Find_nofault {T} (tbl : DB -> list T) cond w :
  faults w = [] ->
  gorm_Find tbl cond w = (Ok (List.filter cond (tbl (tables w))), w).
Proof. intros F. unfold gorm_Find. now rewrite (statement_nofault w F). Qed.

(** ** Refreshing a token *)

Section Refresh.
Context `{Wire}.

(** [TokenManager.RefreshToken] fails as the validation fails, and
    otherwise issues for the identity, e-mail and roles inside the old
    token: the token it returns validates to these. *)
Lemma TokenManager_RefreshToken_snapshot tm now t_exp t_iat t_nbf tokenString :
  (forall err,
     TokenManager_ValidateToken tm now tokenString = Err err ->
     TokenManager_RefreshToken tm now t_exp t_iat t_nbf tokenString = Err err) /\
  (forall claims,
     TokenManager_ValidateToken tm now tokenString = Ok claims ->
     TokenManager_RefreshToken tm now t_exp t_iat t_nbf tokenString =
       TokenManager_GenerateToken tm t_exp t_iat t_nbf
         (UserID claims) (Email claims) (Roles claims) /\
     forall now',
       WireRoundTrip (secretKey tm)
         (TokenManager_claims tm (Time_Add t_exp (24 * Hour)) t_iat t_nbf
            (UserID claims) (Email claims) (Roles claims)) ->
       (NewNumericDate t_nbf <= now' < NewNumericDate (Time_Add t_exp (24 * Hour)))%Z ->
       exists newToken newClaims,
         TokenManager_RefreshToken tm now t_exp t_iat t_nbf tokenString =
           Ok (newToken, Time_Add t_exp (24 * Hour)) /\
         TokenManager_ValidateToken tm now' newToken = Ok newClaims /\
         UserID newClaims = UserID claims /\ Email newClaims = Email claims /\
         Roles newClaims = Roles claims).
Proof.
  unfold TokenManager_RefreshToken. split.
  - now intros err ->.
  - intros claims ->. split; [reflexivity|]. intros now' RT Hwin.
    eexists _, _. split; [reflexivity|].
    split; [exact (GenerateToken_accepted tm t_exp t_iat t_nbf (UserID claims)
                     (Email claims) (Roles claims) now' RT Hwin)|].
    repeat split; reflexivity.
Qed.

(** The handler of the refresh route never looks at the roles inside the
    presented token: it reads the user, who must be active, and the
    user's roles from the store, and issues for these. *)
Lemma AuthHandler_RefreshToken_live h c w claims :
  GetClaims c = Some claims ->
  faults w = [] ->
  match List.find (fun u => String.eqb (User_ID u) (UserID claims) &&
                            Bool.eqb (Active u) true) (tbl_users (tables w)) with
  | None =>
      AuthHandler_RefreshToken h c w =
      (Context_JSON StatusUnauthorized
         (ErrorResponse "User not found or inactive" "" "USER_INACTIVE") c, w)
  | Some user =>
      let roleNames := map Role_Name (user_roles_of (tables w) (User_ID user)) in
      User_ID user = UserID claims /\ Active user = true /\
      (WireRoundTrip (secretKey (tokenManager h))
         (TokenManager_claims (tokenManager h) (Time_Add (clock w) (24 * Hour))
            (clock w) (clock w) (User_ID user) (User_Email user) roleNames) ->
       exists token newClaims,
         AuthHandler_RefreshToken h c w =
         (Context_JSON StatusOK
            (AuthResponseBody
               {| AR_Token := token;
                  AR_ExpiresAt := Time_Add (clock w) (24 * Hour);
                  AR_User := {| UI_ID := User_ID user; UI_Email := User_Email user;
                                UI_FirstName := FirstName user;
                                UI_LastName := LastName user;
                                UI_Roles := roleNames; UI_Active := Active user |} |}) c,
          w) /\
         TokenManager_ValidateToken (tokenManager h) (clock w) token = Ok newClaims /\
         UserID newClaims = UserID claims /\
         Email newClaims = User_Email user /\
         Roles newClaims = roleNames)
  end.
Proof.
  intros G F. unfold AuthHandler_RefreshToken. rewrite G.
  rewrite (gorm_First_nofault _ _ _ F).
  destruct (List.find _ _) as [user|] eqn:Efind; [|reflexivity].
  apply List.find_some in Efind as [_ Hcond].
  apply andb_true_iff in Hcond as [Hid Hact].
  apply String.eqb_eq in Hid. apply Bool.eqb_prop in Hact.
  cbv beta iota zeta.
  set (roleNames := map Role_Name (user_roles_of (tables w) (User_ID user))).
  split; [exact Hid|]. split; [exact Hact|]. intros RT.
  pose proof (GenerateToken_accepted (tokenManager h) (clock w) (clock w) (clock w)
                (User_ID user) (User_Email user) roleNames (clock w) RT
                (issued_now_window (clock w))) as V.
  change (User_GetRoleNames (Preload_Roles (tables w) user)) with roleNames.
  change (User_ID (Preload_Roles (tables w) user)) with (User_ID user).
  change (User_Email (Preload_Roles (tables w) user)) with (User_Email user).
  unfold TokenManager_GenerateToken. cbv zeta.
  eexists _, _. split; [reflexivity|]. split; [exact V|].
  repeat split; [exact Hid].
Qed.

(** C2, as amended.  [TokenManager.RefreshToken] is validation followed
    by issuance for the identity, e-mail and roles inside the old token,
    so the new token carries the old role snapshot.  The refresh the
    system exposes, the handler of [POST /auth/refresh], does not call
    it: for an authenticated request it looks the identity up among the
    active users and issues a token for that user's id, e-mail and the
    role names the store holds at that moment; without such a user it
    answers 401 [USER_INACTIVE]. *)
Theorem RefreshToken_snapshot_and_handler :
  (forall tm now t_exp t_iat t_nbf tokenString,
     (forall err,
        TokenManager_ValidateToken tm now tokenString = Err err ->
        TokenManager_RefreshToken tm now t_exp t_iat t_nbf tokenString = Err err) /\
     (forall claims,
        TokenManager_ValidateToken tm now tokenString = Ok claims ->
        TokenManager_RefreshToken tm now t_exp t_iat t_nbf tokenString =
          TokenManager_GenerateToken tm t_exp t_iat t_nbf
            (UserID claims) (Email claims) (Roles claims) /\
        forall now',
          WireRoundTrip (secretKey tm)
            (TokenManager_claims tm (Time_Add t_exp (24 * Hour)) t_iat t_nbf
               (UserID claims) (Email claims) (Roles claims)) ->
          (NewNumericDate t_nbf <= now' < NewNumericDate (Time_Add t_exp (24 * Hour)))%Z ->
          exists newToken newClaims,
            TokenManager_RefreshToken tm now t_exp t_iat t_nbf tokenString =
              Ok (newToken, Time_Add t_exp (24 * Hour)) /\
            TokenManager_ValidateToken tm now' newToken = Ok newClaims /\
            UserID newClaims = UserID claims /\ Email newClaims = Email claims /\
            Roles newClaims = Roles claims)) /\
  (forall h c w claims,
     GetClaims c = Some claims ->
     faults w = [] ->
     (List.find (fun u => String.eqb (User_ID u) (UserID claims) &&
                          Bool.eqb (Active u) true) (tbl_users (tables w)) = None ->
      AuthHandler_RefreshToken h c w =
      (Context_JSON StatusUnauthorized
         (ErrorResponse "User not found or inactive" "" "USER_INACTIVE") c, w)) /\
     (forall user,
        List.find (fun u => String.eqb (User_ID u) (UserID claims) &&
                            Bool.eqb (Active u) true) (tbl_users (tables w)) = Some user ->
        WireRoundTrip (secretKey (tokenManager h))
          (TokenManager_claims (tokenManager h) (Time_Add (clock w) (24 * Hour))
             (clock w) (clock w) (User_ID user) (User_Email user)
             (map Role_Name (user_roles_of (tables w) (User_ID user)))) ->
        exists response newClaims,
          fst (AuthHandler_RefreshToken h c w) =
            Context_JSON StatusOK (AuthResponseBody response) c /\
          TokenManager_ValidateToken (tokenManager h) (clock w) (AR_Token response) =
            Ok newClaims /\
          UserID newClaims = UserID claims /\
          Email newClaims = User_Email user /\
          Roles newClaims = map Role_Name (user_roles_of (tables w) (User_ID user)) /\
          UI_Roles (AR_User response) = Roles newClaims)).
Proof.
  split.
  - intros tm now t_exp t_iat t_nbf tokenString.
    exact (TokenManager_RefreshToken_snapshot tm now t_exp t_iat t_nbf tokenString).
  - intros h c w claims G F.
    pose proof (AuthHandler_RefreshToken_live h c w claims G F) as L.
    split.
    + intros E. now rewrite E in L.
    + intros user E RT. rewrite E in L. destruct L as (_ & _ & L).
      destruct (L RT) as (token & newClaims & R & V & Hu & He & Hr).
      eexists; exists newClaims. rewrite R. cbn [fst AR_Token AR_User UI_Roles].
      repeat split; try assumption. now rewrite Hr.
Qed.

End Refresh.

Section RefreshExamples.
#[local] Existing Instance exampleWire.

(** One second after the epoch the token of the practitioner is
    refreshed both ways: [TokenManager.RefreshToken] keeps the one role of
    the token, the handler issues for the two roles of the store. *)
Lemma RefreshToken_snapshot_and_handler_witness :
  (exists newToken newClaims,
     TokenManager_RefreshToken example_tm Second Second Second Second example_token =
       Ok (newToken, Time_Add Second (24 * Hour)) /\
     TokenManager_ValidateToken example_tm Second newToken = Ok newClaims /\
     Roles newClaims = ["practitioner"]) /\
  (exists response newClaims,
     fst (AuthHandler_RefreshToken example_handler
            (AuthMiddleware example_tm Second
               (example_request ("Bearer " +:+ example_token)))
            (example_world example_db Second)) =
       Context_JSON StatusOK (AuthResponseBody response)
         (AuthMiddleware example_tm Second
            (example_request ("Bearer " +:+ example_token))) /\
     TokenManager_ValidateToken example_tm Second (AR_Token response) = Ok newClaims /\
     Roles newClaims = ["practitioner"; "admin"]).
Proof.
  destruct RefreshToken_snapshot_and_handler as [A B]. split.
  - destruct (A example_tm Second Second Second Second example_token) as [_ Hok].
    destruct (Hok (TokenManager_claims example_tm (Time_Add 0 (24 * Hour)) 0 0
                     "u1" "doc@example.org" ["practitioner"])) as [_ Hnew].
    + vm_compute. reflexivity.
    + destruct (Hnew Second) as (newToken & newClaims & R & V & _ & _ & Hr).
      * vm_compute. reflexivity.
      * split; vm_compute; [discriminate | reflexivity].
      * exists newToken, newClaims. repeat split; assumption.
  - destruct (B example_handler
                (AuthMiddleware example_tm Second
                   (example_request ("Bearer " +:+ example_token)))
                (example_world example_db Second)
                (TokenManager_claims example_tm (Time_Add 0 (24 * Hour)) 0 0
                   "u1" "doc@example.org" ["practitioner"]))
      as [_ Hsome].
    + vm_compute. reflexivity.
    + reflexivity.
    + destruct (Hsome example_user) as (response & newClaims & R & V & _ & _ & Hr & _).
      * vm_compute. reflexivity.
      * vm_compute. reflexivity.
      * exists response, newClaims. repeat split; assumption.
Defined.

(** C2 as stated fails for the refresh the system exposes: the token
    presented carries the role [practitioner] alone, the user has since
    been made an admin too, and the token in the handler's answer
    carries both roles. *)
Lemma AuthHandler_RefreshToken_rereads_roles :
  exists claims response newClaims,
    TokenManager_ValidateToken example_tm Second example_token = Ok claims /\
    Roles claims = ["practitioner"] /\
    Written (fst (AuthHandler_RefreshToken example_handler
                    (AuthMiddleware example_tm Second
                       (example_request ("Bearer " +:+ example_token)))
                    (example_world example_db Second))) =
      [(StatusOK, AuthResponseBody response)] /\
    TokenManager_ValidateToken example_tm Second (AR_Token response) = Ok newClaims /\
    UserID newClaims = UserID claims /\
    Roles newClaims = ["practitioner"; "admin"].
Proof.
  do 3 eexists. split; [vm_compute; reflexivity|].
  split; [reflexivity|].
  split; [vm_compute; reflexivity|].
  split; [vm_compute; reflexivity|].
  split; reflexivity.
Qed.

End RefreshExamples.

(** ** The authorization gate *)

Section Gate.
Context `{Wire}.

(** What [AuthMiddleware] does with a bearer header, by the outcome of
    the validation. *)
Lemma AuthMiddleware_Bearer tm now c token :
  Context_GetHeader c "Authorization" = "Bearer " +:+ token ->
  AuthMiddleware tm now c =
  match TokenManager_ValidateToken tm now token with
  | Err _ =>
      Context_Abort (Context_JSON StatusUnauthorized
        (H {[ "error" := VString "Invalid or expired token";
              "code" := VString "INVALID_TOKEN" ]}) c)
  | Ok claims =>
      Context_Set "claims" (VClaims claims)
        (Context_Set "user_roles" (VStrings (Roles claims))
          (Context_Set "user_email" (VString (Email claims))
            (Context_Set "user_id" (VString (UserID claims)) c)))
  end.
Proof.
  intros Hh. unfold AuthMiddleware. rewrite Hh.
  destruct (TrimPrefix_Bearer token) as (-> & -> & ->). reflexivity.
Qed.

(** An accepted request carries the claims of its token and is otherwise
    as it came. *)
Lemma AuthMiddleware_accepts tm now c token claims :
  Context_GetHeader c "Authorization" = "Bearer " +:+ token ->
  TokenManager_ValidateToken tm now token = Ok claims ->
  let c' := AuthMiddleware tm now c in
  Context_Get c' "claims" = Some (VClaims claims) /\
  Context_Get c' "user_id" = Some (VString (UserID claims)) /\
  Written c' = Written c /\ Aborted c' = Aborted c /\ Panicked c' = Panicked c.
Proof.
  intros Hh V c'. subst c'. rewrite (AuthMiddleware_Bearer _ _ _ _ Hh), V.
  unfold Context_Get, Context_Set. cbn [Keys Written Aborted Panicked].
  repeat split.
  - now rewrite lookup_insert_eq.
  - rewrite !lookup_insert_ne by discriminate. now rewrite lookup_insert_eq.
Qed.

(** C3.  Whatever makes the validation of a bearer token fail, the
    middleware answers with the one response 401 [INVALID_TOKEN], aborts
    the chain and stores nothing in the context: the error is not looked
    at.  Two requests that differ in their tokens, validation times and
    validation errors only get the same response. *)
Theorem AuthMiddleware_rejects_uniformly (tm : TokenManager) (now1 now2 : Time)
    (token1 token2 : string) (err1 err2 : TokenError) (c1 c2 : Context) :
  Context_GetHeader c1 "Authorization" = "Bearer " +:+ token1 ->
  Context_GetHeader c2 "Authorization" = "Bearer " +:+ token2 ->
  TokenManager_ValidateToken tm now1 token1 = Err err1 ->
  TokenManager_ValidateToken tm now2 token2 = Err err2 ->
  let rejected :=
    (StatusUnauthorized,
     H {[ "error" := VString "Invalid or expired token";
          "code" := VString "INVALID_TOKEN" ]}) in
  Written (AuthMiddleware tm now1 c1) = Written c1 ++ [rejected] /\
  Written (AuthMiddleware tm now2 c2) = Written c2 ++ [rejected] /\
  (Written c1 = Written c2 ->
   Written (AuthMiddleware tm now1 c1) = Written (AuthMiddleware tm now2 c2)) /\
  Aborted (AuthMiddleware tm now1 c1) = true /\
  Aborted (AuthMiddleware tm now2 c2) = true /\
  Keys (AuthMiddleware tm now1 c1) = Keys c1 /\
  Keys (AuthMiddleware tm now2 c2) = Keys c2 /\
  (forall rest, run_chain (AuthMiddleware tm now1 :: rest) c1 = AuthMiddleware tm now1 c1) /\
  (forall rest, run_chain (AuthMiddleware tm now2 :: rest) c2 = AuthMiddleware tm now2 c2).
Proof.
  intros H1 H2 V1 V2 rejected.
  assert (R1 := AuthMiddleware_Bearer tm now1 c1 token1 H1). rewrite V1 in R1.
  assert (R2 := AuthMiddleware_Bearer tm now2 c2 token2 H2). rewrite V2 in R2.
  cbn [run_chain]. rewrite R1, R2. cbn [Written Aborted Keys Context_Abort Context_JSON orb].
  repeat split; try reflexivity. now intros ->.
Qed.

Lemma Claims_HasRole_In claims role :
  Claims_HasRole claims role = true <-> In role (Roles claims).
Proof.
  unfold Claims_HasRole. rewrite existsb_exists. split.
  - intros (r & Hin & E). apply String.eqb_eq in E. now subst.
  - intros Hin. exists role. split; [exact Hin | apply String.eqb_refl].
Qed.

Lemma Claims_HasAnyRole_In claims roles :
  Claims_HasAnyRole claims roles = true <->
  exists role, In role roles /\ In role (Roles claims).
Proof.
  unfold Claims_HasAnyRole. rewrite existsb_exists.
  split; intros (r & Hin & E); exists r; (split; [exact Hin|]);
    now apply Claims_HasRole_In.
Qed.

(** [RequireRole] on a context that carries claims. *)
Lemma RequireRole_claims allowedRoles c claims :
  Context_Get c "claims" = Some (VClaims claims) ->
  RequireRole allowedRoles c =
  if Claims_HasAnyRole claims allowedRoles then c
  else Context_Abort (Context_JSON StatusForbidden
         (H {[ "error" := VString "Insufficient permissions";
               "code" := VString "INSUFFICIENT_PERMISSIONS";
               "required_roles" := VStrings allowedRoles;
               "user_roles" := VStrings (Roles claims) ]}) c).
Proof.
  intros G. unfold RequireRole. rewrite G.
  now destruct (Claims_HasAnyRole claims allowedRoles).
Qed.

(** C4.  A request that passed [AuthMiddleware] is let through by
    [RequireRole] exactly when the roles inside its token contain one of
    the required roles; otherwise the guard aborts with 403 Forbidden
    ([INSUFFICIENT_PERMISSIONS]), not with 401.  A token with the roles
    [["practitioner"]] passes the guard for practitioner or admin and is
    forbidden by the guard for admin alone. *)
Theorem RequireRole_authorizes_iff (tm : TokenManager) (now : Time) (c : Context)
    (token : string) (claims : Claims) (allowedRoles : list string) :
  Context_GetHeader c "Authorization" = "Bearer " +:+ token ->
  TokenManager_ValidateToken tm now token = Ok claims ->
  Aborted c = false ->
  let authenticated := AuthMiddleware tm now c in
  let forbidden required :=
    Context_Abort (Context_JSON StatusForbidden
      (H {[ "error" := VString "Insufficient permissions";
            "code" := VString "INSUFFICIENT_PERMISSIONS";
            "required_roles" := VStrings required;
            "user_roles" := VStrings (Roles claims) ]}) authenticated) in
  (Aborted (RequireRole allowedRoles authenticated) = false <->
   exists role, In role allowedRoles /\ In role (Roles claims)) /\
  ((exists role, In role allowedRoles /\ In role (Roles claims)) ->
   RequireRole allowedRoles authenticated = authenticated) /\
  (~ (exists role, In role allowedRoles /\ In role (Roles claims)) ->
   RequireRole allowedRoles authenticated = forbidden allowedRoles /\
   Written (RequireRole allowedRoles authenticated) =
     Written c ++ [(StatusForbidden,
                    H {[ "error" := VString "Insufficient permissions";
                         "code" := VString "INSUFFICIENT_PERMISSIONS";
                         "required_roles" := VStrings allowedRoles;
                         "user_roles" := VStrings (Roles claims) ]})] /\
   StatusForbidden <> StatusUnauthorized) /\
  (Roles claims = ["practitioner"] ->
   RequireRole ["practitioner"; "admin"] authenticated = authenticated /\
   RequireRole ["admin"] authenticated = forbidden ["admin"]).
Proof.
  intros Hh V Hab authenticated forbidden.
  destruct (AuthMiddleware_accepts tm now c token claims Hh V)
    as (G & _ & HW & HA & _).
  fold authenticated in G, HW, HA.
  pose proof (fun roles => RequireRole_claims roles authenticated claims G) as R.
  pose proof (Claims_HasAnyRole_In claims allowedRoles) as Hany.
  split; [|split; [|split]].
  - rewrite R. destruct (Claims_HasAnyRole claims allowedRoles).
    + split; [intros _; now apply Hany | congruence].
    + split; [discriminate|]. intros Hex. apply Hany in Hex. discriminate.
  - intros Hex. rewrite R. apply Hany in Hex. now rewrite Hex.
  - intros Hno. rewrite R. destruct (Claims_HasAnyRole claims allowedRoles).
    + exfalso. apply Hno. now apply Hany.
    + split; [reflexivity|]. split; [|discriminate].
      cbn [Written Context_Abort Context_JSON]. now rewrite HW.
  - intros Hr. rewrite !R. unfold Claims_HasAnyRole, Claims_HasRole.
    subst forbidden. cbv beta. rewrite Hr. split; reflexivity.
Qed.

(** The table of [checkPermission] has no entry for another role. *)
Lemma permissions_lookup_None role :
  ~ In role ["admin"; "practitioner"; "nurse"; "lab-tech"] ->
  permissions !! role = None.
Proof.
  intros Hn. unfold permissions.
  rewrite !lookup_insert_ne, lookup_singleton_ne;
    first reflexivity; intros <-; apply Hn; simpl; tauto.
Qed.

Lemma checkPermission_unlisted userRoles resource action :
  (forall role, In role userRoles ->
     ~ In role ["admin"; "practitioner"; "nurse"; "lab-tech"]) ->
  checkPermission userRoles resource action = false.
Proof.
  induction userRoles as [|role userRoles IH]; intros Hn; [reflexivity|].
  cbn [checkPermission].
  rewrite (permissions_lookup_None role) by (apply Hn; now left).
  apply IH. intros r Hr. apply Hn. now right.
Qed.

(** C10.  [checkPermission] is false for every resource and action when
    none of the roles is admin, practitioner, nurse or lab-tech; so a
    request authenticated by a token with the roles [["patient"]] is
    aborted with 403 by [RequirePermission] for every resource and
    action. *)
Theorem checkPermission_denies_unlisted_roles :
  (forall userRoles resource action,
     (forall role, In role userRoles ->
        ~ In role ["admin"; "practitioner"; "nurse"; "lab-tech"]) ->
     checkPermission userRoles resource action = false) /\
  (forall tm now c token claims resource action,
     Context_GetHeader c "Authorization" = "Bearer " +:+ token ->
     TokenManager_ValidateToken tm now token = Ok claims ->
     Roles claims = ["patient"] ->
     let out := RequirePermission resource action (AuthMiddleware tm now c) in
     Aborted out = true /\
     Written out =
       Written c ++ [(StatusForbidden,
                      H {[ "error" := VString "Insufficient permissions";
                           "code" := VString "INSUFFICIENT_PERMISSIONS";
                           "resource" := VString resource;
                           "action" := VString action;
                           "user_id" := VString (UserID claims) ]})]).
Proof.
  split; [exact checkPermission_unlisted|].
  intros tm now c token claims resource action Hh V Hr out.
  destruct (AuthMiddleware_accepts tm now c token claims Hh V)
    as (G & Gid & HW & _ & _).
  subst out. unfold RequirePermission. rewrite Gid, G.
  rewrite checkPermission_unlisted.
  - cbn [negb Aborted Written Context_Abort Context_JSON]. now rewrite HW.
  - rewrite Hr. intros role [<-|[]]. simpl. intros [E|[E|[E|[E|[]]]]]; discriminate.
Qed.

End Gate.

Section GateExamples.
#[local] Existing Instance exampleWire.

Lemma example_request_header authorization :
  Context_GetHeader (example_request authorization) "Authorization" = authorization.
Proof.
  unfold Context_GetHeader, example_request. cbn [Request_Header].
  now rewrite lookup_singleton_eq.
Qed.

(** Four requests, refused by the validation for four reasons (a string that is no token
    a signature with one more byte, a token past its expiry, a
    token before its not-before date), get the same response. *)
Lemma AuthMiddleware_rejects_uniformly_witness :
  let rejected :=
    [(StatusUnauthorized,
      H {[ "error" := VString "Invalid or expired token";
           "code" := VString "INVALID_TOKEN" ]})] in
  (TokenManager_ValidateToken example_tm Second "garbage" = Err [ErrTokenMalformed] /\
   TokenManager_ValidateToken example_tm Second (example_token +:+ "x") =
     Err [ErrTokenSignatureInvalid; ErrSignatureInvalid] /\
   TokenManager_ValidateToken example_tm (48 * Hour) example_token =
     Err [ErrTokenInvalidClaims; ErrTokenExpired] /\
   TokenManager_ValidateToken example_tm (- Second) example_token =
     Err [ErrTokenInvalidClaims; ErrTokenNotValidYet]) /\
  Written (AuthMiddleware example_tm Second
             (example_request ("Bearer " +:+ "garbage"))) = rejected /\
  Written (AuthMiddleware example_tm Second
             (example_request ("Bearer " +:+ (example_token +:+ "x")))) = rejected /\
  Written (AuthMiddleware example_tm (48 * Hour)
             (example_request ("Bearer " +:+ example_token))) = rejected /\
  Written (AuthMiddleware example_tm (- Second)
             (example_request ("Bearer " +:+ example_token))) = rejected.
Proof.
  assert (V1 : TokenManager_ValidateToken example_tm Second "garbage" =
               Err [ErrTokenMalformed]) by (vm_compute; reflexivity).
  assert (V2 : TokenManager_ValidateToken example_tm Second (example_token +:+ "x") =
               Err [ErrTokenSignatureInvalid; ErrSignatureInvalid])
    by (vm_compute; reflexivity).
  assert (V3 : TokenManager_ValidateToken example_tm (48 * Hour) example_token =
               Err [ErrTokenInvalidClaims; ErrTokenExpired])
    by (vm_compute; reflexivity).
  assert (V4 : TokenManager_ValidateToken example_tm (- Second) example_token =
               Err [ErrTokenInvalidClaims; ErrTokenNotValidYet])
    by (vm_compute; reflexivity).
  intros rejected. split; [now repeat split|].
  destruct (AuthMiddleware_rejects_uniformly example_tm Second Second
              "garbage" (example_token +:+ "x") _ _
              (example_request ("Bearer " +:+ "garbage"))
              (example_request ("Bearer " +:+ (example_token +:+ "x")))
              (example_request_header _) (example_request_header _) V1 V2)
    as (W1 & W2 & _).
  destruct (AuthMiddleware_rejects_uniformly example_tm (48 * Hour) (- Second)
              example_token example_token _ _
              (example_request ("Bearer " +:+ example_token))
              (example_request ("Bearer " +:+ example_token))
              (example_request_header _) (example_request_header _) V3 V4)
    as (W3 & W4 & _).
  repeat split; assumption.
Defined.

(** The practitioner's token before the guards of [POST /patients] and
    of [DELETE /patients/:id]. *)
Lemma RequireRole_authorizes_iff_witness :
  let authenticated :=
    AuthMiddleware example_tm Second (example_request ("Bearer " +:+ example_token)) in
  Aborted (RequireRole ["practitioner"; "admin"] authenticated) = false /\
  RequireRole ["practitioner"; "admin"] authenticated = authenticated /\
  Aborted (RequireRole ["admin"] authenticated) = true /\
  map fst (Written (RequireRole ["admin"] authenticated)) = [StatusForbidden].
Proof.
  intros authenticated.
  destruct (RequireRole_authorizes_iff example_tm Second
              (example_request ("Bearer " +:+ example_token)) example_token
              (TokenManager_claims example_tm (Time_Add 0 (24 * Hour)) 0 0
                 "u1" "doc@example.org" ["practitioner"])
              ["practitioner"; "admin"])
    as (Hiff & _ & _ & Hex).
  - apply example_request_header.
  - vm_compute. reflexivity.
  - reflexivity.
  - destruct (Hex eq_refl) as [Hpass Hdeny]. fold authenticated in Hiff, Hpass, Hdeny.
    split; [|split; [exact Hpass|]].
    + apply Hiff. exists "practitioner". split; simpl; tauto.
    + rewrite Hdeny. split; reflexivity.
Defined.

(** A patient's token before a permission guard. *)
Lemma checkPermission_denies_unlisted_roles_witness :
  checkPermission ["patient"] "patients" "read" = false /\
  Aborted (RequirePermission "patients" "read"
             (AuthMiddleware example_tm Second
                (example_request ("Bearer " +:+ example_patient_token)))) = true.
Proof.
  destruct checkPermission_denies_unlisted_roles as [Hcheck Hguard]. split.
  - apply Hcheck. intros role [<-|[]]. simpl.
    intros [E|[E|[E|[E|[]]]]]; discriminate.
  - destruct (Hguard example_tm Second
                (example_request ("Bearer " +:+ example_patient_token))
                example_patient_token
                (TokenManager_claims example_tm (Time_Add 0 (24 * Hour)) 0 0
                   "u2" "pat@example.org" ["patient"])
                "patients" "read") as [Hab _].
    + apply example_request_header.
    + vm_compute. reflexivity.
    + reflexivity.
    + exact Hab.
Defined.

End GateExamples.

(** ** The credential verifier *)


Section CredentialExamples.
#[local] Existing Instance exampleBcrypt.


End CredentialExamples.

(** ** Lists of rows *)

Lemma find_eqb_None {T} (f : T -> string) x (l : list T) :
  ~ In x (map f l) -> List.find (fun r => String.eqb (f r) x) l = None.
Proof.
  intros Hn. destruct (List.find _ l) as [r|] eqn:E; [|reflexivity].
  apply List.find_some in E as [Hin Heq]. apply String.eqb_eq in Heq.
  exfalso. apply Hn. rewrite <- Heq. now apply in_map.
Qed.

Lemma find_eqb_Some {T} (f : T -> string) x (l : list T) :
  In x (map f l) ->
  exists r, List.find (fun r => String.eqb (f r) x) l = Some r /\ f r = x /\ In r l.
Proof.
  intros Hin. destruct (List.find _ l) as [r|] eqn:E.
  - exists r. apply List.find_some in E as [Hr Heq]. apply String.eqb_eq in Heq. auto.
  - exfalso. apply in_map_iff in Hin as (r & Heq & Hr).
    apply (List.find_none _ _ E) in Hr. cbv beta in Hr. rewrite Heq in Hr.
    now rewrite String.eqb_refl in Hr.
Qed.

Lemma existsb_false_iff {T} (p : T -> bool) (l : list T) :
  existsb p l = false <-> forall x, In x l -> p x = false.
Proof.
  induction l as [|a l IH]; simpl.
  - split; [intros _ x [] | reflexivity].
  - rewrite orb_false_iff, IH. split.
    + intros [Ha Hl] x [<-|Hx]; auto.
    + intros Hall. split; [apply Hall; now left | intros x Hx; apply Hall; now right].
Qed.

Lemma filter_all {T} (p : T -> bool) (l : list T) :
  (forall x, In x l -> p x = true) -> List.filter p l = l.
Proof.
  induction l as [|a l IH]; intros Hall; simpl; [reflexivity|].
  rewrite (Hall a) by now left. f_equal. apply IH. intros x Hx. apply Hall. now right.
Qed.

Lemma filter_none {T} (p : T -> bool) (l : list T) :
  (forall x, In x l -> p x = false) -> List.filter p l = [].
Proof.
  induction l as [|a l IH]; intros Hall; simpl; [reflexivity|].
  rewrite (Hall a) by now left. apply IH. intros x Hx. apply Hall. now right.
Qed.

Lemma NoDup_snoc {A} (l : list A) (a : A) :
  List.NoDup l -> ~ In a l -> List.NoDup (l ++ [a]).
Proof.
  intros Hl Ha. apply List.NoDup_app; [exact Hl | |].
  - apply List.NoDup_cons; [intros [] | constructor].
  - intros x Hx [<-|[]]. contradiction.
Qed.

Lemma NoDup_map_filter {A B} (f : A -> B) (p : A -> bool) (l : list A) :
  List.NoDup (map f l) -> List.NoDup (map f (List.filter p l)).
Proof.
  induction l as [|a l IH]; [constructor|].
  cbn [map List.filter]. intros Hnd.
  apply List.NoDup_cons_iff in Hnd as [Hnotin Hnd].
  destruct (p a); [|now apply IH].
  cbn [map]. apply List.NoDup_cons; [|now apply IH].
  intros Hin. apply Hnotin. apply in_map_iff in Hin as (x & Hx & Hxin).
  apply filter_In in Hxin as [Hxin _]. rewrite <- Hx. now apply in_map.
Qed.


(** ** Assigning and unassigning roles *)

Lemma assignment_cond_In userID roleID (l : list UserRole) :
  existsb (fun ur => String.eqb (UR_UserID ur) userID &&
                     String.eqb (UR_RoleID ur) roleID) l = true <->
  In (userID, roleID) (map assignment_key l).
Proof.
  rewrite existsb_exists, in_map_iff. unfold assignment_key.
  split; intros (ur & A & B); exists ur.
  - apply andb_true_iff in B as [Bu Br].
    apply String.eqb_eq in Bu, Br. subst. auto.
  - injection A as <- <-. split; [exact B|]. now rewrite !String.eqb_refl.
Qed.

Lemma assignment_find_Some userID roleID (l : list UserRole) :
  In (userID, roleID) (map assignment_key l) ->
  exists ur,
    List.find (fun ur => String.eqb (UR_UserID ur) userID &&
                         String.eqb (UR_RoleID ur) roleID) l = Some ur.
Proof.
  intros Hin. destruct (List.find _ l) as [ur|] eqn:E; [now exists ur|].
  exfalso. apply in_map_iff in Hin as (ur & A & Hur).
  apply (List.find_none _ _ E) in Hur. cbv beta in Hur.
  unfold assignment_key in A. injection A as <- <-.
  now rewrite !String.eqb_refl in Hur.
Qed.

Lemma assignment_find_None userID roleID (l : list UserRole) :
  ~ In (userID, roleID) (map assignment_key l) ->
  List.find (fun ur => String.eqb (UR_UserID ur) userID &&
                       String.eqb (UR_RoleID ur) roleID) l = None /\
  existsb (fun ur => String.eqb (UR_UserID ur) userID &&
                     String.eqb (UR_RoleID ur) roleID) l = false.
Proof.
  intros Hn.
  assert (Hex : existsb (fun ur => String.eqb (UR_UserID ur) userID &&
                                   String.eqb (UR_RoleID ur) roleID) l = false).
  { apply not_true_is_false. intros E. now apply assignment_cond_In in E. }
  split; [|exact Hex].
  destruct (List.find _ l) as [ur|] eqn:E; [|reflexivity].
  apply List.find_some in E as [Hin Hc].
  rewrite existsb_false_iff in Hex. rewrite (Hex ur Hin) in Hc. discriminate.
Qed.

Lemma AssignRoleToUser_nofault userID roleID grantedBy w :
  faults w = [] ->
  let db := tables w in
  RBACService_AssignRoleToUser userID roleID grantedBy w =
  match List.find (fun u => String.eqb (User_ID u) userID) (tbl_users db) with
  | None => (Some (Errorf "user not found" (Some ErrRecordNotFound)), w)
  | Some _ =>
      match List.find (fun r => String.eqb (Role_ID r) roleID) (tbl_roles db) with
      | None => (Some (Errorf "role not found" (Some ErrRecordNotFound)), w)
      | Some _ =>
          if existsb (fun ur => String.eqb (UR_UserID ur) userID &&
                                String.eqb (UR_RoleID ur) roleID) (tbl_user_roles db)
          then (Some (Errorf "user already has this role" None), w)
          else (None,
                with_tables
                  (assigned_db db {| UR_UserID := userID; UR_RoleID := roleID;
                                     GrantedBy := grantedBy; GrantedAt := clock w |}) w)
      end
  end.
Proof.
  intros F db. unfold RBACService_AssignRoleToUser.
  rewrite (gorm_First_nofault _ _ _ F). fold db.
  destruct (List.find _ (tbl_users db)); [|reflexivity].
  rewrite (gorm_First_nofault _ _ _ F). fold db.
  destruct (List.find _ (tbl_roles db)); [|reflexivity].
  rewrite (gorm_First_nofault _ _ _ F). fold db.
  destruct (List.find _ (tbl_user_roles db)) as [ur|] eqn:E.
  - apply List.find_some in E as [Hin Hc].
    assert (Hex : existsb (fun ur => String.eqb (UR_UserID ur) userID &&
                                     String.eqb (UR_RoleID ur) roleID)
                    (tbl_user_roles db) = true)
      by (apply existsb_exists; eauto).
    now rewrite Hex.
  - assert (Hex : existsb (fun ur => String.eqb (UR_UserID ur) userID &&
                                     String.eqb (UR_RoleID ur) roleID)
                    (tbl_user_roles db) = false).
    { apply existsb_false_iff. intros x Hx. exact (List.find_none _ _ E x Hx). }
    unfold gorm_Create_UserRole. rewrite (statement_nofault _ F).
    cbn [UR_UserID UR_RoleID]. fold db. now rewrite Hex.
Qed.

Lemma RemoveRoleFromUser_nofault userID roleID w :
  faults w = [] ->
  let db := tables w in
  RBACService_RemoveRoleFromUser userID roleID w =
  (if existsb (fun ur => String.eqb (UR_UserID ur) userID &&
                         String.eqb (UR_RoleID ur) roleID) (tbl_user_roles db)
   then None else Some (Errorf "role assignment not found" None),
   with_tables (unassigned_db db userID roleID) w).
Proof.
  intros F db. unfold RBACService_RemoveRoleFromUser, gorm_Delete_UserRole.
  rewrite (statement_nofault _ F). fold db.
  set (cond := fun ur => String.eqb (UR_UserID ur) userID && String.eqb (UR_RoleID ur) roleID).
  destruct (existsb cond (tbl_user_roles db)) eqn:Hex.
  - apply existsb_exists in Hex as (ur & Hin & Hc).
    assert (Hlen : length (List.filter cond (tbl_user_roles db)) <> 0).
    { intros E. apply length_zero_iff_nil in E.
      assert (Hf : In ur (List.filter cond (tbl_user_roles db)))
        by (apply filter_In; auto).
      rewrite E in Hf. destruct Hf. }
    apply Nat.eqb_neq in Hlen. now rewrite Hlen.
  - rewrite existsb_false_iff in Hex. rewrite (filter_none _ _ Hex). reflexivity.
Qed.

Lemma unassigned_db_id db userID roleID :
  ~ In (userID, roleID) (map assignment_key (tbl_user_roles db)) ->
  unassigned_db db userID roleID = db.
Proof.
  intros Hn. destruct (assignment_find_None _ _ _ Hn) as [_ Hex].
  rewrite existsb_false_iff in Hex.
  unfold unassigned_db. rewrite filter_all.
  - now destruct db.
  - intros ur Hur. now rewrite (Hex ur Hur).
Qed.

(** C8.  Without storage failures, [AssignRoleToUser] fails with "user
    not found" when no user has the id, with "role not found" when the
    user exists and no role has the id, and with "user already has this
    role" when the pair is assigned already (both rows exist then, in a
    store that keeps the foreign keys of [user_roles]); in each case the
    store is left as it was.  Otherwise it succeeds and adds exactly one
    row, for this pair.  [RemoveRoleFromUser] fails with "role
    assignment not found" and changes nothing when the pair is not
    assigned, and otherwise removes it.  Both keep the pairs of
    [user_roles] free of duplicates: a user holds a role at most once. *)
Theorem AssignRoleToUser_RemoveRoleFromUser (userID roleID grantedBy : string)
    (w : World) :
  faults w = [] ->
  let db := tables w in
  let user_exists := In userID (map User_ID (tbl_users db)) in
  let role_exists := In roleID (map Role_ID (tbl_roles db)) in
  let assigned := In (userID, roleID) (map assignment_key (tbl_user_roles db)) in
  let assignment := {| UR_UserID := userID; UR_RoleID := roleID;
                       GrantedBy := grantedBy; GrantedAt := clock w |} in
  (~ user_exists ->
   RBACService_AssignRoleToUser userID roleID grantedBy w =
     (Some (Errorf "user not found" (Some ErrRecordNotFound)), w)) /\
  (user_exists -> ~ role_exists ->
   RBACService_AssignRoleToUser userID roleID grantedBy w =
     (Some (Errorf "role not found" (Some ErrRecordNotFound)), w)) /\
  (assigned -> (UserRolesReferenced db \/ (user_exists /\ role_exists)) ->
   RBACService_AssignRoleToUser userID roleID grantedBy w =
     (Some (Errorf "user already has this role" None), w)) /\
  (user_exists -> role_exists -> ~ assigned ->
   RBACService_AssignRoleToUser userID roleID grantedBy w =
     (None, with_tables (assigned_db db assignment) w) /\
   tbl_user_roles (assigned_db db assignment) = tbl_user_roles db ++ [assignment]) /\
  (~ assigned ->
   RBACService_RemoveRoleFromUser userID roleID w =
     (Some (Errorf "role assignment not found" None), w)) /\
  (assigned ->
   RBACService_RemoveRoleFromUser userID roleID w =
     (None, with_tables (unassigned_db db userID roleID) w) /\
   ~ In (userID, roleID)
       (map assignment_key (tbl_user_roles (unassigned_db db userID roleID)))) /\
  (List.NoDup (map assignment_key (tbl_user_roles db)) ->
   List.NoDup (map assignment_key
     (tbl_user_roles (tables (snd (RBACService_AssignRoleToUser userID roleID grantedBy w))))) /\
   List.NoDup (map assignment_key
     (tbl_user_roles (tables (snd (RBACService_RemoveRoleFromUser userID roleID w)))))).
Proof.
  intros F db user_exists role_exists assigned assignment.
  pose proof (AssignRoleToUser_nofault userID roleID grantedBy w F) as A.
  pose proof (RemoveRoleFromUser_nofault userID roleID w F) as R.
  cbv zeta in A, R. fold db in A, R. fold assignment in A.
  assert (Hconflict : user_exists -> role_exists -> assigned ->
    RBACService_AssignRoleToUser userID roleID grantedBy w =
      (Some (Errorf "user already has this role" None), w)).
  { intros Hu Hr Ha. rewrite A.
    destruct (find_eqb_Some User_ID userID _ Hu) as (u & -> & _).
    destruct (find_eqb_Some Role_ID roleID _ Hr) as (r & -> & _).
    apply assignment_cond_In in Ha. now rewrite Ha. }
  split; [|split; [|split; [|split; [|split; [|split]]]]].
  - intros Hu. rewrite A. now rewrite (find_eqb_None User_ID userID _ Hu).
  - intros Hu Hr. rewrite A.
    destruct (find_eqb_Some User_ID userID _ Hu) as (u & -> & _).
    now rewrite (find_eqb_None Role_ID roleID _ Hr).
  - intros Ha [Href|[Hu Hr]]; [|now apply Hconflict].
    pose proof Ha as Ha'. apply in_map_iff in Ha' as (ur & Hk & Hur).
    destruct (Href ur Hur) as [Hu Hr].
    unfold assignment_key in Hk. injection Hk as Eu Er. rewrite Eu in Hu. rewrite Er in Hr.
    now apply Hconflict.
  - intros Hu Hr Ha. split; [|reflexivity]. rewrite A.
    destruct (find_eqb_Some User_ID userID _ Hu) as (u & -> & _).
    destruct (find_eqb_Some Role_ID roleID _ Hr) as (r & -> & _).
    destruct (assignment_find_None _ _ _ Ha) as [_ ->]. reflexivity.
  - intros Ha. rewrite R. destruct (assignment_find_None _ _ _ Ha) as [_ ->].
    rewrite (unassigned_db_id db userID roleID Ha). subst db. now destruct w.
  - intros Ha. rewrite R. pose proof Ha as Ha'. apply assignment_cond_In in Ha' as ->.
    split; [reflexivity|]. cbn [unassigned_db tbl_user_roles].
    intros Hin. apply in_map_iff in Hin as (ur & Hk & Hur).
    apply filter_In in Hur as [_ Hc].
    unfold assignment_key in Hk. injection Hk as Eu Er.
    now rewrite Eu, Er, !String.eqb_refl in Hc.
  - intros Hnd. split.
    + rewrite A.
      destruct (List.find _ (tbl_users db)); [|exact Hnd].
      destruct (List.find _ (tbl_roles db)); [|exact Hnd].
      destruct (existsb _ (tbl_user_roles db)) eqn:Hex; [exact Hnd|].
      cbn [snd tables with_tables assigned_db tbl_user_roles].
      rewrite map_app. cbn [map]. apply NoDup_snoc; [exact Hnd|].
      intros Hk. change (assignment_key assignment) with (userID, roleID) in Hk.
      apply assignment_cond_In in Hk. congruence.
    + rewrite R. cbn [snd tables with_tables unassigned_db tbl_user_roles].
      now apply NoDup_map_filter.
Qed.

(** On the example store: user [u1] holds [r1]; there is no role [r9].  *)
Lemma AssignRoleToUser_RemoveRoleFromUser_witness :
  fst (RBACService_AssignRoleToUser "u1" "r1" "root" (example_world example_db 0)) =
    Some (Errorf "user already has this role" None) /\
  fst (RBACService_RemoveRoleFromUser "u1" "r1" (example_world example_db 0)) = None /\
  fst (RBACService_AssignRoleToUser "u1" "r9" "root" (example_world example_db 0)) =
    Some (Errorf "role not found" (Some ErrRecordNotFound)) /\
  fst (RBACService_RemoveRoleFromUser "u1" "r9" (example_world example_db 0)) =
    Some (Errorf "role assignment not found" None).
Proof.
  destruct (AssignRoleToUser_RemoveRoleFromUser "u1" "r1" "root"
              (example_world example_db 0) eq_refl)
    as (_ & _ & Hconflict & _ & _ & Hremove & _).
  destruct (AssignRoleToUser_RemoveRoleFromUser "u1" "r9" "root"
              (example_world example_db 0) eq_refl)
    as (_ & Hrole & _ & _ & Habsent & _).
  split; [|split; [|split]].
  - rewrite Hconflict; [reflexivity | simpl; tauto |].
    right. split; simpl; tauto.
  - destruct Hremove as [-> _]; [simpl; tauto | reflexivity].
  - rewrite Hrole; [reflexivity | simpl; tauto |].
    simpl. intros [E|[E|[]]]; discriminate.
  - rewrite Habsent; [reflexivity|].
    simpl. intros [E|[E|[]]]; discriminate.
Defined.

(** ** Deleting a role *)

Lemma filter_negb_eqb_spec {T} (f : T -> string) x (l : list T) :
  (forall r, In r (List.filter (fun r => negb (String.eqb (f r) x)) l) -> f r <> x) /\
  ((forall r, In r l -> f r <> x) ->
   List.filter (fun r => negb (String.eqb (f r) x)) l = l).
Proof.
  split.
  - intros r Hr. apply filter_In in Hr as [_ Hc].
    apply negb_true_iff, String.eqb_neq in Hc. exact Hc.
  - intros Hall. apply filter_all. intros r Hr.
    apply negb_true_iff, String.eqb_neq. now apply Hall.
Qed.

(** C6, as amended.  [DeleteRole] is all or nothing, whichever of its
    statements the storage layer fails: either it returns [nil] and the
    store is the old one without the role's assignments, without its
    permission links and without the role, or it returns an error and
    the store is the old one.  Without storage failures it returns
    [nil], also when no role has the id; afterwards no row of a join
    table names the id and no role has it.  When no role had the id and
    no join row named it, the store is unchanged. *)
Theorem DeleteRole_all_or_nothing (roleID : string) (w : World) :
  let db := tables w in
  let err := fst (RBACService_DeleteRole roleID w) in
  let db' := tables (snd (RBACService_DeleteRole roleID w)) in
  ((err = None /\ db' = role_deleted_db db roleID) \/ (err <> None /\ db' = db)) /\
  (faults w = [] -> err = None /\ db' = role_deleted_db db roleID) /\
  Unreferenced roleID (role_deleted_db db roleID) /\
  ~ In roleID (map Role_ID (tbl_roles (role_deleted_db db roleID))) /\
  (~ In roleID (map Role_ID (tbl_roles db)) -> Unreferenced roleID db ->
   role_deleted_db db roleID = db).
Proof.
  intros db err db'. subst db err db'.
  split; [|split; [|split; [|split]]].
  - destruct w as [db clk fl uu].
    unfold RBACService_DeleteRole, gorm_Delete_UserRole, gorm_Delete_RolePermission,
      gorm_Delete_Role, tx_Commit, tx_Rollback, statement, with_tables.
    destruct fl as [|[] [|[] [|[] [|[] fl]]]]; cbn;
      solve [left; split; reflexivity | right; split; [discriminate | reflexivity]].
  - intros F. destruct w as [db clk fl uu]. cbn in F. subst fl.
    split; reflexivity.
  - split; intros r Hr.
    + now apply (proj1 (filter_negb_eqb_spec UR_RoleID roleID _)) in Hr.
    + now apply (proj1 (filter_negb_eqb_spec RP_RoleID roleID _)) in Hr.
  - intros Hin. apply in_map_iff in Hin as (r & E & Hr).
    now apply (proj1 (filter_negb_eqb_spec Role_ID roleID _)) in Hr.
  - intros Hno [Hur Hrp]. unfold role_deleted_db.
    rewrite (proj2 (filter_negb_eqb_spec Role_ID roleID _)).
    + rewrite (proj2 (filter_negb_eqb_spec UR_RoleID roleID _) Hur).
      rewrite (proj2 (filter_negb_eqb_spec RP_RoleID roleID _) Hrp).
      now destruct (tables w).
    + intros r Hr E. apply Hno. rewrite <- E. now apply in_map.
Qed.

(** On the example store: deleting role [r1] takes its assignment and
    its permission link with it; when the third statement fails, nothing
    is deleted. *)
Lemma DeleteRole_all_or_nothing_witness :
  (fst (RBACService_DeleteRole "r1" (example_world example_db 0)) = None /\
   tables (snd (RBACService_DeleteRole "r1" (example_world example_db 0))) =
     {| tbl_users := [example_user];
        tbl_roles := [example_role "r2" "admin"];
        tbl_permissions := [example_permission "p1" "patients:read" "patients" "read"];
        tbl_user_roles := [{| UR_UserID := "u1"; UR_RoleID := "r2"; GrantedBy := "root";
                              GrantedAt := 0 |}];
        tbl_role_permissions := [] |}) /\
  (let failing := {| tables := example_db; clock := 0; faults := [false; false; true];
                     uuids := example_uuids |} in
   fst (RBACService_DeleteRole "r1" failing) =
     Some (Errorf "failed to delete role" (Some ErrDriver)) /\
   tables (snd (RBACService_DeleteRole "r1" failing)) = example_db).
Proof.
  split.
  - destruct (DeleteRole_all_or_nothing "r1" (example_world example_db 0))
      as (_ & Hok & _).
    destruct (Hok eq_refl) as [-> ->]. split; reflexivity.
  - intros failing.
    destruct (DeleteRole_all_or_nothing "r1" failing) as ([[E _]|[_ Hsame]] & _).
    + discriminate E.
    + split; [reflexivity | exact Hsame].
Defined.

(** C6 as stated fails: no role of the example store has the id
    ["ghost"], and [DeleteRole "ghost"] returns [nil], not an error. *)
Lemma DeleteRole_missing_role_no_error :
  List.find (fun r => String.eqb (Role_ID r) "ghost") (tbl_roles example_db) = None /\
  RBACService_DeleteRole "ghost" (example_world example_db 0) =
    (None, example_world example_db 0).
Proof. split; reflexivity. Qed.

(** ** Creating a role *)

(** The links after [Append]: the old ones, and one from the role to
    each of the permissions. *)
Lemma link_permissions_keys roleID ps links k :
  In k (map link_key (link_permissions roleID ps links)) <->
  In k (map link_key links) \/ exists p, In p ps /\ k = (roleID, Permission_ID p).
Proof.
  revert links. induction ps as [|p ps IH]; intros links; cbn [link_permissions].
  - split; [now left | intros [Hk|(p & [] & _)]; exact Hk].
  - rewrite IH. clear IH.
    set (cond := fun rp => String.eqb (RP_RoleID rp) roleID &&
                           String.eqb (RP_PermissionID rp) (Permission_ID p)).
    assert (Hcond : existsb cond links = true <->
                    In (roleID, Permission_ID p) (map link_key links)).
    { rewrite existsb_exists, in_map_iff. unfold cond, link_key.
      split; intros (rp & A & B); exists rp.
      - apply andb_true_iff in B as [B1 B2]. apply String.eqb_eq in B1, B2.
        split; [congruence | exact A].
      - injection A as <- <-. split; [exact B|]. now rewrite !String.eqb_refl. }
    destruct (existsb cond links) eqn:Hex.
    + split.
      * intros [Hk|(q & Hq & ->)]; [now left | right; exists q; split; [now right|reflexivity]].
      * intros [Hk|(q & [<-|Hq] & ->)]; [now left | left; now apply Hcond | right; eauto].
    + rewrite map_app, in_app_iff. cbn [map link_key RP_RoleID RP_PermissionID In].
      split.
      * intros [[Hk|[<-|[]]]|(q & Hq & ->)];
          [now left | right; exists p; split; [now left|reflexivity]
          | right; exists q; split; [now right|reflexivity]].
      * intros [Hk|(q & [<-|Hq] & ->)]; [left; now left | left; right; now left | right; eauto].
Qed.

Lemma gorm_Create_Role_nofault role w :
  faults w = [] -> Role_ID role = "" ->
  ~ In (uuids w 0) (map Role_ID (tbl_roles (tables w))) ->
  ~ In (Role_Name role) (map Role_Name (tbl_roles (tables w))) ->
  let row := {| Role_ID := uuids w 0; Role_Name := Role_Name role;
                Role_Description := Role_Description role;
                Permissions := Permissions role;
                Role_CreatedAt := clock w; Role_UpdatedAt := clock w |} in
  gorm_Create_Role role w =
  (Ok row,
   {| tables := {| tbl_users := tbl_users (tables w);
                   tbl_roles := tbl_roles (tables w) ++ [row];
                   tbl_permissions := tbl_permissions (tables w);
                   tbl_user_roles := tbl_user_roles (tables w);
                   tbl_role_permissions := tbl_role_permissions (tables w) |};
      clock := clock w; faults := [];
      uuids := fun n => uuids w (S n) |}).
Proof.
  intros F Hid Hfresh Hname row. unfold gorm_Create_Role, uuid_New.
  rewrite Hid. cbn [String.eqb]. unfold statement. cbn [faults tables clock uuids].
  rewrite F.
  assert (Hex : existsb (fun r => String.eqb (Role_ID r) (uuids w 0) ||
                                  String.eqb (Role_Name r) (Role_Name role))
                  (tbl_roles (tables w)) = false).
  { apply existsb_false_iff. intros r Hr. apply orb_false_iff. split.
    - apply String.eqb_neq. intros E. apply Hfresh. rewrite <- E. now apply in_map.
    - apply String.eqb_neq. intros E. apply Hname. rewrite <- E. now apply in_map. }
  cbn [Role_Name tables clock faults uuids]. rewrite Hex. unfold with_tables. cbn [clock faults uuids].
  reflexivity.
Qed.

Lemma find_snoc_new {T} (f : T -> string) (l : list T) (row : T) :
  ~ In (f row) (map f l) ->
  List.find (fun r => String.eqb (f r) (f row)) (l ++ [row]) = Some row.
Proof.
  intros Hn. induction l as [|a l IH]; cbn [app List.find].
  - now rewrite String.eqb_refl.
  - destruct (String.eqb_spec (f a) (f row)) as [E|_].
    + exfalso. apply Hn. left. exact E.
    + apply IH. intros Hin. apply Hn. now right.
Qed.


Lemma CreateRole_new name description permissionIDs w :
  faults w = [] ->
  ~ In name (map Role_Name (tbl_roles (tables w))) ->
  ~ In (uuids w 0) (map Role_ID (tbl_roles (tables w))) ->
  let row := new_role (uuids w 0) name description (clock w) in
  let found := List.filter (fun p => bool_decide (Permission_ID p ∈ permissionIDs))
                 (tbl_permissions (tables w)) in
  let db' := role_created_db (tables w) row found in
  RBACService_CreateRole name description permissionIDs w =
  (Ok (Preload_Permissions db' row),
   {| tables := db'; clock := clock w; faults := [];
      uuids := fun n => uuids w (S n) |}).
Proof.
  intros F Hname Hfresh row found db'.
  unfold RBACService_CreateRole.
  rewrite (gorm_First_nofault _ _ _ F).
  rewrite (find_eqb_None Role_Name name _ Hname).
  erewrite gorm_Create_Role_nofault; [|exact F|reflexivity|exact Hfresh|exact Hname].
  cbn [Role_Name Role_Description Permissions].
  fold (new_role (uuids w 0) name description (clock w)). fold row.
  pose proof (find_snoc_new Role_ID (tbl_roles (tables w)) row Hfresh) as Hfind.
  destruct permissionIDs as [|i ids].
  - cbn [length Nat.ltb Nat.leb].
    rewrite gorm_First_nofault by reflexivity.
    cbn [tables tbl_roles]. rewrite Hfind.
    subst db' found. unfold role_created_db.
    rewrite filter_none.
    + cbn [link_permissions]. reflexivity.
    + intros p _. apply bool_decide_eq_false. intros Hin. inversion Hin.
  - cbn [length Nat.ltb Nat.leb].
    rewrite gorm_Find_nofault by reflexivity.
    unfold gorm_Append_Permissions, statement.
    cbn [faults tables clock uuids tbl_users tbl_roles tbl_permissions tbl_user_roles
         tbl_role_permissions with_tables].
    rewrite gorm_First_nofault by reflexivity.
    unfold with_tables. cbn [tables clock faults uuids tbl_roles set_Permissions Role_ID].
    rewrite Hfind. reflexivity.
Qed.

(** C5, as amended.  Without storage failures, [CreateRole] with a name
    some role has already fails with "role with name ... already exists"
    and writes nothing.  With a new name it succeeds, whatever the
    permission ids are: it stores the role and links it to exactly those
    stored permissions whose id is in the list; an id that resolves to
    no permission is passed over without an error. *)
Theorem CreateRole_outcomes (name description : string) (permissionIDs : list string)
    (w : World) :
  faults w = [] ->
  let db := tables w in
  (In name (map Role_Name (tbl_roles db)) ->
   RBACService_CreateRole name description permissionIDs w =
     (Err (Errorf ("role with name '" +:+ name +:+ "' already exists") None), w)) /\
  (~ In name (map Role_Name (tbl_roles db)) ->
   ~ In (uuids w 0) (map Role_ID (tbl_roles db)) ->
   let row := new_role (uuids w 0) name description (clock w) in
   let found := List.filter (fun p => bool_decide (Permission_ID p ∈ permissionIDs))
                  (tbl_permissions db) in
   let db' := role_created_db db row found in
   fst (RBACService_CreateRole name description permissionIDs w) =
     Ok (Preload_Permissions db' row) /\
   tables (snd (RBACService_CreateRole name description permissionIDs w)) = db' /\
   (forall roleID permissionID,
      In (roleID, permissionID) (map link_key (tbl_role_permissions db')) <->
      In (roleID, permissionID) (map link_key (tbl_role_permissions db)) \/
      (roleID = uuids w 0 /\ In permissionID permissionIDs /\
       In permissionID (map Permission_ID (tbl_permissions db))))).
Proof.
  intros F db. split.
  - intros Hin. unfold RBACService_CreateRole.
    rewrite (gorm_First_nofault _ _ _ F). fold db.
    now destruct (find_eqb_Some Role_Name name _ Hin) as (r & -> & _).
  - intros Hname Hfresh row found db'.
    rewrite (CreateRole_new name description permissionIDs w F Hname Hfresh).
    split; [reflexivity|]. split; [reflexivity|].
    intros roleID permissionID. subst db'. cbn [role_created_db tbl_role_permissions].
    rewrite link_permissions_keys. apply or_iff_compat_l. subst found. split.
    + intros (p & Hp & E). injection E as -> ->.
      apply filter_In in Hp as [Hp Hc]. apply bool_decide_eq_true in Hc.
      apply list_elem_of_In in Hc. repeat split; [exact Hc | now apply in_map].
    + intros (-> & Hid & Hp). apply in_map_iff in Hp as (p & <- & Hp).
      exists p. split; [|reflexivity]. apply filter_In. split; [exact Hp|].
      apply bool_decide_eq_true. now apply list_elem_of_In.
Qed.

(** On the example store: a new role [auditor] with the id of a stored
    permission and an id that resolves to nothing. *)
Lemma CreateRole_outcomes_witness :
  fst (RBACService_CreateRole "admin" "" ["p1"] (example_world example_db 0)) =
    Err (Errorf "role with name 'admin' already exists" None) /\
  map Role_Name
    (tbl_roles (tables (snd (RBACService_CreateRole "auditor" "" ["p1"; "nope"]
                               (example_world example_db 0))))) =
    ["practitioner"; "admin"; "auditor"] /\
  map link_key
    (tbl_role_permissions
       (tables (snd (RBACService_CreateRole "auditor" "" ["p1"; "nope"]
                       (example_world example_db 0))))) =
    [("r1", "p1"); ("uuid-", "p1")].
Proof.
  destruct (CreateRole_outcomes "admin" "" ["p1"] (example_world example_db 0) eq_refl)
    as [Hconflict _].
  destruct (CreateRole_outcomes "auditor" "" ["p1"; "nope"]
              (example_world example_db 0) eq_refl) as [_ Hnew].
  split.
  - rewrite Hconflict; [reflexivity | simpl; tauto].
  - destruct Hnew as (_ & -> & _).
    + simpl. intros [E|[E|[]]]; discriminate.
    + simpl. intros [E|[E|[]]]; discriminate.
    + split; reflexivity.
Defined.

(** C5 as stated fails: ["nope"] is the id of no permission of the
    example store, and [CreateRole] with it does not fail; it returns the
    new role, stored and linked to the one permission that exists. *)
Lemma CreateRole_unresolvable_id_succeeds :
  List.find (fun p => String.eqb (Permission_ID p) "nope")
    (tbl_permissions example_db) = None /\
  fst (RBACService_CreateRole "auditor" "" ["p1"; "nope"]
         (example_world example_db 0)) =
    Ok {| Role_ID := "uuid-"; Role_Name := "auditor"; Role_Description := "";
          Permissions := [example_permission "p1" "patients:read" "patients" "read"];
          Role_CreatedAt := 0; Role_UpdatedAt := 0 |} /\
  map Role_Name
    (tbl_roles (tables (snd (RBACService_CreateRole "auditor" "" ["p1"; "nope"]
                               (example_world example_db 0))))) =
    ["practitioner"; "admin"; "auditor"] /\
  map link_key
    (tbl_role_permissions
       (tables (snd (RBACService_CreateRole "auditor" "" ["p1"; "nope"]
                       (example_world example_db 0))))) =
    [("r1", "p1"); ("uuid-", "p1")].
Proof. repeat split; vm_compute; reflexivity. Qed.

(** There is no transaction around the statements of [CreateRole]: when
    the lookup of the permissions fails in the storage layer, the error
    is returned and the role stays stored. *)
Lemma CreateRole_keeps_role_on_failure :
  let failing := {| tables := example_db; clock := 0; faults := [false; false; true];
                    uuids := example_uuids |} in
  fst (RBACService_CreateRole "auditor" "" ["p1"] failing) =
    Err (Errorf "failed to find permissions" (Some ErrDriver)) /\
  map Role_Name (tbl_roles (tables (snd (RBACService_CreateRole "auditor" "" ["p1"] failing)))) =
    ["practitioner"; "admin"; "auditor"].
Proof. split; vm_compute; reflexivity. Qed.

(** ** Seeding the default roles and permissions *)

Lemma gorm_Create_Permission_nofault permission w :
  faults w = [] -> Permission_ID permission = "" ->
  ~ In (uuids w 0) (map Permission_ID (tbl_permissions (tables w))) ->
  ~ In (Permission_Name permission) (map Permission_Name (tbl_permissions (tables w))) ->
  let row := {| Permission_ID := uuids w 0;
                Permission_Name := Permission_Name permission;
                Permission_Description := Permission_Description permission;
                Resource := Resource permission; Action := Action permission;
                Permission_CreatedAt := clock w; Permission_UpdatedAt := clock w |} in
  gorm_Create_Permission permission w =
  (Ok row,
   {| tables := {| tbl_users := tbl_users (tables w);
                   tbl_roles := tbl_roles (tables w);
                   tbl_permissions := tbl_permissions (tables w) ++ [row];
                   tbl_user_roles := tbl_user_roles (tables w);
                   tbl_role_permissions := tbl_role_permissions (tables w) |};
      clock := clock w; faults := [];
      uuids := fun n => uuids w (S n) |}).
Proof.
  intros F Hid Hfresh Hname row. unfold gorm_Create_Permission, uuid_New.
  rewrite Hid. cbn [String.eqb]. unfold statement. cbn [faults tables clock uuids].
  rewrite F.
  assert (Hex : existsb (fun p => String.eqb (Permission_ID p) (uuids w 0) ||
                                  String.eqb (Permission_Name p) (Permission_Name permission))
                  (tbl_permissions (tables w)) = false).
  { apply existsb_false_iff. intros r Hr. apply orb_false_iff. split.
    - apply String.eqb_neq. intros E. apply Hfresh. rewrite <- E. now apply in_map.
    - apply String.eqb_neq. intros E. apply Hname. rewrite <- E. now apply in_map. }
  cbn [Permission_Name tables clock faults uuids]. rewrite Hex. unfold with_tables.
  cbn [clock faults uuids]. reflexivity.
Qed.

Lemma Seeded_refl w :
  faults w = [] -> FreshUUIDs w ->
  List.NoDup (map Permission_Name (tbl_permissions (tables w))) ->
  List.NoDup (map Role_Name (tbl_roles (tables w))) ->
  Seeded w w.
Proof. intros. now constructor. Qed.

Lemma Seeded_trans w1 w2 w3 : Seeded w1 w2 -> Seeded w2 w3 -> Seeded w1 w3.
Proof.
  intros [] []. constructor; auto.
Qed.

Lemma FreshUUIDs_next w db' :
  FreshUUIDs w ->
  (forall id, In id (map Role_ID (tbl_roles db')) ->
     In id (map Role_ID (tbl_roles (tables w))) \/ id = uuids w 0) ->
  (forall id, In id (map Permission_ID (tbl_permissions db')) ->
     In id (map Permission_ID (tbl_permissions (tables w))) \/ id = uuids w 0) ->
  FreshUUIDs {| tables := db'; clock := clock w; faults := [];
                uuids := fun n => uuids w (S n) |}.
Proof.
  intros (Hinj & Hr & Hp) Hroles Hperms. unfold FreshUUIDs. cbn [uuids tables].
  split; [|split].
  - intros m n E. apply Hinj in E. lia.
  - intros n Hin. destruct (Hroles _ Hin) as [Hold|E].
    + exact (Hr _ Hold).
    + apply Hinj in E. discriminate.
  - intros n Hin. destruct (Hperms _ Hin) as [Hold|E].
    + exact (Hp _ Hold).
    + apply Hinj in E. discriminate.
Qed.

(** The first loop: each permission that is missing is created, none
    is created twice, and no error comes up. *)
Lemma create_default_permissions_spec perms :
  (forall p, In p perms -> Permission_ID p = "") ->
  forall w,
    faults w = [] -> FreshUUIDs w ->
    List.NoDup (map Permission_Name (tbl_permissions (tables w))) ->
    List.NoDup (map Role_Name (tbl_roles (tables w))) ->
    exists w',
      create_default_permissions perms w = (None, w') /\
      Seeded w w' /\
      tbl_roles (tables w') = tbl_roles (tables w) /\
      (forall p, In p perms ->
         In (Permission_Name p) (map Permission_Name (tbl_permissions (tables w')))).
Proof.
  intros Hids. induction perms as [|perm rest IH]; intros w F Hfresh Hpn Hrn.
  - exists w. split; [reflexivity|]. split; [now apply Seeded_refl|].
    split; [reflexivity|]. intros p [].
  - cbn [create_default_permissions]. rewrite (gorm_First_nofault _ _ _ F).
    assert (Hrest : forall p, In p rest -> Permission_ID p = "")
      by (intros p Hp; apply Hids; now right).
    destruct (in_dec String.string_dec (Permission_Name perm)
                (map Permission_Name (tbl_permissions (tables w)))) as [Hin|Hnotin].
    + destruct (find_eqb_Some Permission_Name _ _ Hin) as (row & -> & _).
      destruct (IH Hrest w F Hfresh Hpn Hrn) as (w' & E & S & Hroles & Hall).
      exists w'. split; [exact E|]. split; [exact S|]. split; [exact Hroles|].
      intros p [<-|Hp]; [|now apply Hall]. now apply (seeded_permissions_kept _ _ S).
    + rewrite (find_eqb_None Permission_Name _ _ Hnotin).
      pose proof Hfresh as (Hinj & Hfr & Hfp).
      rewrite (gorm_Create_Permission_nofault perm w F (Hids perm (or_introl eq_refl))
                 (Hfp 0) Hnotin).
      match goal with |- context [create_default_permissions rest ?x] =>
        set (w1 := x) end.
      assert (S1 : Seeded w w1).
      { constructor; subst w1; cbn [faults tables tbl_permissions tbl_roles].
        - reflexivity.
        - apply FreshUUIDs_next; [exact Hfresh | |]; cbn [tbl_roles tbl_permissions].
          + intros id Hid. now left.
          + intros id Hid. rewrite map_app in Hid. apply in_app_iff in Hid as [Hid|[<-|[]]];
              [now left | now right].
        - rewrite map_app. cbn [map Permission_Name]. now apply NoDup_snoc.
        - exact Hrn.
        - intros n Hn. rewrite map_app. apply in_app_iff. now left.
        - intros n Hn. exact Hn. }
      destruct (IH Hrest w1 (seeded_faults _ _ S1) (seeded_fresh _ _ S1)
                  (seeded_permission_names _ _ S1) (seeded_role_names _ _ S1))
        as (w' & E & S & Hroles & Hall).
      exists w'. split; [exact E|]. split; [exact (Seeded_trans _ _ _ S1 S)|].
      split; [rewrite Hroles; reflexivity|].
      intros p [<-|Hp]; [|now apply Hall].
      apply (seeded_permissions_kept _ _ S). subst w1.
      cbn [tables tbl_permissions]. rewrite map_app. apply in_app_iff. right. now left.
Qed.





Lemma tally_inj m n : tally m = tally n -> m = n.
Proof.
  revert n. induction m as [|m IH]; intros [|n] E; try discriminate; [reflexivity|].
  injection E as E. f_equal. now apply IH.
Qed.


Lemma example_db_constraints : Constraints example_db.
Proof.
  constructor; simpl; repeat constructor; simpl; intuition discriminate.
Qed.


(** The same run, evaluated: the two roles that were there get no
    links, the two new ones are linked to their permissions. *)
Lemma InitializeDefaultRoles_example :
  let first :=
    RBACService_InitializeDefaultRoles (rev rolePermissions)
      (example_world example_db 0) in
  map Role_Name (tbl_roles (tables (snd first))) =
    ["practitioner"; "admin"; "lab-tech"; "nurse"] /\
  length (tbl_permissions (tables (snd first))) = 12 /\
  map RP_RoleID (tbl_role_permissions (tables (snd first))) =
    ["r1"; "uuid-iiiiiiiiiii"; "uuid-iiiiiiiiiii"; "uuid-iiiiiiiiiii";
     "uuid-iiiiiiiiiii"; "uuid-iiiiiiiiiiii"; "uuid-iiiiiiiiiiii"].
Proof. vm_compute. repeat split. Qed.

(** ** More on the token codec *)

Section TokenAcceptance.
Context `{Wire}.

Lemma GetSigningMethod_HMAC_iff alg m :
  GetSigningMethod alg = Some m ->
  (In alg ["HS256"; "HS384"; "HS512"] <-> m = SigningMethodHMAC alg) /\
  (forall a, m = SigningMethodHMAC a -> a = alg).
Proof.
  unfold GetSigningMethod. intros E.
  destruct (bool_decide (alg ∈ ["HS256"; "HS384"; "HS512"])) eqn:B1.
  - apply bool_decide_eq_true, list_elem_of_In in B1. injection E as <-.
    split; [tauto|]. now intros a [= ->].
  - apply bool_decide_eq_false in B1. rewrite list_elem_of_In in B1.
    destruct (bool_decide (alg = "none")).
    + injection E as <-. split; [split; [tauto|discriminate]|discriminate].
    + destruct (bool_decide _); [|discriminate]. injection E as <-.
      split; [split; [tauto|discriminate]|discriminate].
Qed.

(** X1.  [ValidateToken] accepts a token exactly when it decodes, its header
    names one of the three HMAC methods, its signature is the MAC of the
    signed text under the manager's key for that method, and its expiry and
    not-before dates (where present) admit the clock; the claims it returns
    are the decoded ones.  So no token with the method [none], with an
    asymmetric method or with another signature is ever accepted, and a
    token signed with HS384 or HS512 under the same key is. *)
Theorem ValidateToken_Ok_iff (tm : TokenManager) (now : Time) (tokenString : string)
    (claims : Claims) :
  TokenManager_ValidateToken tm now tokenString = Ok claims <->
  exists d alg,
    decodeToken tokenString = Some d /\
    d_alg d = Some alg /\
    In alg ["HS256"; "HS384"; "HS512"] /\
    d_sig d = Some (hmacSum alg (secretKey tm) (d_text d)) /\
    d_claims d = claims /\
    verifyExpiresAt (Registered claims) now = true /\
    verifyNotBefore (Registered claims) now = true.
Proof.
  unfold TokenManager_ValidateToken, ParseWithClaims, ParseUnverified, HMAC_Verify,
    Validator_Validate.
  split.
  - destruct (decodeToken tokenString) as [d|]; [|discriminate].
    destruct (d_alg d) as [alg|] eqn:Ealg; [|discriminate].
    destruct (GetSigningMethod alg) as [m|] eqn:Em; [|discriminate].
    destruct (GetSigningMethod_HMAC_iff alg m Em) as [Hiff Hsame].
    destruct m as [a| |a]; cbv beta iota; try discriminate.
    specialize (Hsame a eq_refl). subst a.
    destruct (d_sig d) as [sig|] eqn:Esig; [|discriminate].
    destruct (String.eqb_spec sig (hmacSum alg (secretKey tm) (d_text d)));
      [|discriminate].
    destruct (verifyExpiresAt _ now) eqn:Eexp; [|discriminate].
    destruct (verifyNotBefore _ now) eqn:Enbf; [|discriminate].
    cbn. intros [= <-]. exists d, alg. subst sig.
    repeat split; try assumption; try reflexivity. now apply Hiff.
  - intros (d & alg & Ed & Ealg & Hin & Esig & Ecl & Eexp & Enbf).
    rewrite Ed, Ealg.
    destruct (GetSigningMethod alg) as [m|] eqn:Em.
    + destruct (GetSigningMethod_HMAC_iff alg m Em) as [Hiff _].
      rewrite (proj1 Hiff Hin). cbv beta iota.
      rewrite Esig, String.eqb_refl, Ecl, Eexp, Enbf. reflexivity.
    + exfalso. unfold GetSigningMethod in Em.
      apply list_elem_of_In in Hin. apply (bool_decide_eq_true_2 _) in Hin.
      now rewrite Hin in Em.
Qed.

(** X2.  An error that is [ErrTokenExpired] or [ErrTokenNotValidYet] is only
    returned for a token that carries the right signature: the dates of a
    token that was not signed under the manager's key are never reported on. *)
Theorem ValidateToken_date_errors_authentic (tm : TokenManager) (now : Time)
    (tokenString : string) (err : TokenError) :
  TokenManager_ValidateToken tm now tokenString = Err err ->
  errors_Is err ErrTokenExpired = true \/ errors_Is err ErrTokenNotValidYet = true ->
  exists d alg,
    decodeToken tokenString = Some d /\
    d_alg d = Some alg /\
    In alg ["HS256"; "HS384"; "HS512"] /\
    d_sig d = Some (hmacSum alg (secretKey tm) (d_text d)) /\
    errors_Is err ErrTokenInvalidClaims = true /\
    (errors_Is err ErrTokenExpired = negb (verifyExpiresAt (Registered (d_claims d)) now)) /\
    (errors_Is err ErrTokenNotValidYet =
       negb (verifyNotBefore (Registered (d_claims d)) now)).
Proof.
  unfold TokenManager_ValidateToken, ParseWithClaims, ParseUnverified, HMAC_Verify,
    Validator_Validate.
  destruct (decodeToken tokenString) as [d|];
    [|intros [= <-] [E|E]; discriminate E].
  destruct (d_alg d) as [alg|] eqn:Ealg; [|intros [= <-] [E|E]; discriminate E].
  destruct (GetSigningMethod alg) as [m|] eqn:Em;
    [|intros [= <-] [E|E]; discriminate E].
  destruct (GetSigningMethod_HMAC_iff alg m Em) as [Hiff Hsame].
  destruct m as [a| |a]; cbv beta iota; try (intros [= <-] [E|E]; discriminate E).
  specialize (Hsame a eq_refl). subst a.
  destruct (d_sig d) as [sig|] eqn:Esig; [|intros [= <-] [E|E]; discriminate E].
  destruct (String.eqb_spec sig (hmacSum alg (secretKey tm) (d_text d)));
    [|intros [= <-] [E|E]; discriminate E].
  subst sig. intros Herr _. exists d, alg.
  split; [reflexivity|]. split; [exact Ealg|]. split; [now apply Hiff|].
  split; [exact Esig|].
  destruct (verifyExpiresAt _ now), (verifyNotBefore _ now); cbn in Herr;
    try discriminate Herr; injection Herr as <-; repeat split; reflexivity.
Qed.

(** X3.  A token whose header names no HMAC method is refused as
    unverifiable, whatever its signature, its claims and the time. *)
Theorem ValidateToken_other_method_Unverifiable (tm : TokenManager) (now : Time)
    (tokenString : string) (d : Decoded) (alg : string) :
  decodeToken tokenString = Some d ->
  d_alg d = Some alg ->
  ~ In alg ["HS256"; "HS384"; "HS512"] ->
  exists err,
    TokenManager_ValidateToken tm now tokenString = Err err /\
    errors_Is err ErrTokenUnverifiable = true /\
    errors_Is err ErrTokenExpired = false /\
    errors_Is err ErrTokenNotValidYet = false /\
    errors_Is err ErrTokenSignatureInvalid = false.
Proof.
  intros Ed Ealg Hn.
  unfold TokenManager_ValidateToken, ParseWithClaims, ParseUnverified.
  rewrite Ed, Ealg.
  destruct (GetSigningMethod alg) as [m|] eqn:Em.
  - destruct (GetSigningMethod_HMAC_iff alg m Em) as [Hiff Hsame].
    destruct m as [a| |a].
    + exfalso. specialize (Hsame a eq_refl). subst a. apply Hn. now apply Hiff.
    + eexists. split; [reflexivity|]. repeat split; reflexivity.
    + eexists. split; [reflexivity|]. repeat split; reflexivity.
  - eexists. split; [reflexivity|]. repeat split; reflexivity.
Qed.

(** X4.  A token [GenerateToken] issued, with another signature put in place
    of its own, is refused at every time with an error that is
    [ErrTokenSignatureInvalid] (provided the wire format decodes the altered
    token to the same header, claims and text, and to the altered
    signature). *)
Theorem ValidateToken_altered_signature (tm : TokenManager)
    (t_exp t_iat t_nbf : Time) (userID email : string) (roles : list string)
    (sig' : string) (now : Time) :
  let claims := TokenManager_claims tm (Time_Add t_exp (24 * Hour)) t_iat t_nbf
                  userID email roles in
  let text := signingString "HS256" claims in
  decodeToken (text +:+ "." +:+ encodeSegment sig') =
    Some {| d_alg := Some "HS256"; d_claims := claims; d_text := text;
            d_sig := Some sig' |} ->
  sig' <> hmacSum "HS256" (secretKey tm) text ->
  TokenManager_ValidateToken tm now (text +:+ "." +:+ encodeSegment sig') =
    Err [ErrTokenSignatureInvalid; ErrSignatureInvalid].
Proof.
  intros claims text Ed Hne.
  unfold TokenManager_ValidateToken, ParseWithClaims, ParseUnverified, HMAC_Verify.
  rewrite Ed. cbn [d_alg d_sig d_text d_claims]. rewrite GetSigningMethod_HS256.
  cbn [d_alg d_sig d_text d_claims].
  now destruct (String.eqb_spec sig' (hmacSum "HS256" (secretKey tm) text)).
Qed.

End TokenAcceptance.

Section TokenAcceptanceExamples.
#[local] Existing Instance exampleWire.

(** The practitioner's token two days after it was issued. *)
Lemma ValidateToken_date_errors_authentic_witness :
  TokenManager_ValidateToken example_tm (48 * Hour) example_token =
    Err [ErrTokenInvalidClaims; ErrTokenExpired] /\
  exists d,
    decodeToken example_token = Some d /\
    d_sig d = Some (hmacSum "HS256" (secretKey example_tm) (d_text d)).
Proof.
  assert (V : TokenManager_ValidateToken example_tm (48 * Hour) example_token =
              Err [ErrTokenInvalidClaims; ErrTokenExpired]) by (vm_compute; reflexivity).
  split; [exact V|].
  destruct (ValidateToken_date_errors_authentic example_tm (48 * Hour) example_token _ V)
    as (d & alg & Ed & Ealg & _ & Esig & _).
  - left. reflexivity.
  - exists d. split; [exact Ed|].
    assert (alg = "HS256") as <-; [|exact Esig].
    assert (Ed' : exists d', decodeToken example_token = Some d' /\ d_alg d' = Some "HS256")
      by (eexists; split; vm_compute; reflexivity).
    destruct Ed' as (d' & Ed' & Ealg'). congruence.
Defined.

(** An unsigned token that claims the role admin. *)
Lemma ValidateToken_other_method_Unverifiable_witness :
  TokenManager_ValidateToken example_tm Second example_none_token =
    Err [ErrTokenUnverifiable; ErrSignatureInvalid].
Proof.
  assert (Ed : exists d, decodeToken example_none_token = Some d /\ d_alg d = Some "none")
    by (eexists; split; vm_compute; reflexivity).
  destruct Ed as (d & Ed & Ealg).
  destruct (ValidateToken_other_method_Unverifiable example_tm Second
              example_none_token d "none" Ed Ealg) as (err & V & _).
  - simpl. intros [E|[E|[E|[]]]]; discriminate E.
  - rewrite V. revert V. vm_compute. now intros [= <-].
Defined.

(** The practitioner's token with the signature ["forged"]. *)
Lemma ValidateToken_altered_signature_witness :
  TokenManager_ValidateToken example_tm Second
    (signingString "HS256"
       (TokenManager_claims example_tm (Time_Add 0 (24 * Hour)) 0 0
          "u1" "doc@example.org" ["practitioner"]) +:+ "." +:+
     encodeSegment "forged") =
    Err [ErrTokenSignatureInvalid; ErrSignatureInvalid].
Proof.
  apply (ValidateToken_altered_signature example_tm 0 0 0 "u1" "doc@example.org"
           ["practitioner"] "forged" Second).
  - vm_compute. reflexivity.
  - vm_compute. discriminate.
Defined.

End TokenAcceptanceExamples.

(** ** More on the authorization gate *)

Lemma strip_prefix_Some p s t : strip_prefix p s = Some t -> s = p +:+ t.
Proof.
  revert s. induction p as [|a p IH]; intros s; simpl.
  - now intros [= ->].
  - destruct s as [|b s]; [discriminate|].
    destruct (Ascii.eqb_spec a b) as [->|]; [|discriminate].
    intros E. now rewrite (IH s E).
Qed.

Section GateCases.
Context `{Wire}.

(** Without a bearer token nothing is validated. *)
Lemma AuthMiddleware_without_bearer (tm : TokenManager) (now : Time) (c : Context) :
  let header := Context_GetHeader c "Authorization" in
  let refuse message code :=
    Context_Abort (Context_JSON StatusUnauthorized
      (H {[ "error" := VString message; "code" := VString code ]}) c) in
  (header = "" ->
   AuthMiddleware tm now c =
     refuse "Authorization header required" "MISSING_AUTH_HEADER") /\
  (header <> "" -> (forall token, header <> "Bearer " +:+ token) ->
   AuthMiddleware tm now c = refuse "Bearer token required" "INVALID_AUTH_FORMAT").
Proof.
  intros header refuse. split.
  - intros E. unfold AuthMiddleware. fold header. now rewrite E.
  - intros Hne Hno. unfold AuthMiddleware. fold header.
    apply String.eqb_neq in Hne. rewrite Hne. unfold TrimPrefix.
    destruct (strip_prefix "Bearer " header) as [t|] eqn:E.
    + apply strip_prefix_Some in E. now destruct (Hno t).
    + now rewrite String.eqb_refl.
Qed.

(** A request is accepted with the claims of its token, or refused
    with one response. *)
Lemma AuthMiddleware_accepts_or_aborts (tm : TokenManager) (now : Time) (c : Context) :
  let c' := AuthMiddleware tm now c in
  (exists token claims,
     Context_GetHeader c "Authorization" = "Bearer " +:+ token /\
     TokenManager_ValidateToken tm now token = Ok claims /\
     GetClaims c' = Some claims /\
     Written c' = Written c /\ Aborted c' = Aborted c) \/
  (Aborted c' = true /\ Keys c' = Keys c /\
   exists body, Written c' = Written c ++ [(StatusUnauthorized, body)]).
Proof.
  intros c'. destruct (AuthMiddleware_without_bearer tm now c) as [Hmissing Hformat].
  set (header := Context_GetHeader c "Authorization") in *.
  destruct (String.eqb_spec header "") as [E|Hne].
  { right. subst c'. rewrite (Hmissing E). cbn. eauto. }
  destruct (strip_prefix "Bearer " header) as [token|] eqn:E.
  - apply strip_prefix_Some in E.
    pose proof (AuthMiddleware_Bearer tm now c token E) as R. fold c' in R.
    destruct (TokenManager_ValidateToken tm now token) as [claims|err] eqn:V.
    + left. exists token, claims.
      destruct (AuthMiddleware_accepts tm now c token claims E V) as (G & _ & HW & HA & _).
      fold c' in G, HW, HA. unfold GetClaims. rewrite G. auto.
    + right. rewrite R. cbn. eauto.
  - right. subst c'. rewrite Hformat; [cbn; eauto | exact Hne |].
    intros token Et. rewrite Et, strip_prefix_app in E. discriminate.
Qed.

(** X5.  [AuthMiddleware] lets a request through only with a header
    ["Bearer " ++ token] whose token validates.  Without the header it
    answers 401 [MISSING_AUTH_HEADER]; with a header that does not start
    with ["Bearer "] (the comparison is exact, so ["bearer x"] and
    ["Bearer"] are such headers) it answers 401 [INVALID_AUTH_FORMAT]
    without validating anything.  Every refusal is one response with
    status 401, aborts the chain and leaves the keys of the context as
    they were. *)
Theorem AuthMiddleware_lets_through_only (tm : TokenManager) (now : Time) (c : Context) :
  let header := Context_GetHeader c "Authorization" in
  let c' := AuthMiddleware tm now c in
  let refuse message code :=
    Context_Abort (Context_JSON StatusUnauthorized
      (H {[ "error" := VString message; "code" := VString code ]}) c) in
  (header = "" -> c' = refuse "Authorization header required" "MISSING_AUTH_HEADER") /\
  (header <> "" -> (forall token, header <> "Bearer " +:+ token) ->
   c' = refuse "Bearer token required" "INVALID_AUTH_FORMAT") /\
  ((exists token claims,
      header = "Bearer " +:+ token /\
      TokenManager_ValidateToken tm now token = Ok claims /\
      GetClaims c' = Some claims /\
      Written c' = Written c /\ Aborted c' = Aborted c) \/
   (Aborted c' = true /\ Keys c' = Keys c /\
    exists body, Written c' = Written c ++ [(StatusUnauthorized, body)])).
Proof.
  intros header c' refuse.
  destruct (AuthMiddleware_without_bearer tm now c) as [Hmissing Hformat].
  split; [exact Hmissing|]. split; [exact Hformat|].
  exact (AuthMiddleware_accepts_or_aborts tm now c).
Qed.

(** X6.  After [AuthMiddleware] accepted a request, the readers of the
    context give back the identity of the token; after it refused one, they
    give what they gave before (nothing, on a new request). *)
Theorem AuthMiddleware_identity_read_back (tm : TokenManager) (now : Time) (c : Context) :
  let c' := AuthMiddleware tm now c in
  (forall token claims,
     Context_GetHeader c "Authorization" = "Bearer " +:+ token ->
     TokenManager_ValidateToken tm now token = Ok claims ->
     GetUserID c' = Some (UserID claims) /\
     GetUserRoles c' = Some (Roles claims) /\
     GetClaims c' = Some claims /\
     IsAuthenticated c' = true /\
     Context_Get c' "user_email" = Some (VString (Email claims))) /\
  (Aborted c' = true -> Aborted c = false ->
   GetUserID c' = GetUserID c /\ GetUserRoles c' = GetUserRoles c /\
   GetClaims c' = GetClaims c /\ IsAuthenticated c' = IsAuthenticated c) /\
  (Keys c = ∅ -> Aborted c = false -> Aborted c' = true ->
   GetUserID c' = None /\ GetUserRoles c' = None /\ GetClaims c' = None /\
   IsAuthenticated c' = false).
Proof.
  intros c'.
  assert (Hkeys : Aborted c' = true -> Aborted c = false -> Keys c' = Keys c).
  { intros Ha Hc.
    destruct (AuthMiddleware_accepts_or_aborts tm now c) as [Hok|Hno].
    - destruct Hok as (? & ? & _ & _ & _ & _ & HA). fold c' in HA. congruence.
    - now destruct Hno as (_ & HK & _). }
  split; [|split].
  - intros token claims Hh V. subst c'. rewrite (AuthMiddleware_Bearer _ _ _ _ Hh), V.
    unfold GetUserID, GetUserRoles, GetClaims, IsAuthenticated, Context_Get, Context_Set.
    cbn [Keys].
    repeat (rewrite lookup_insert_eq || (rewrite lookup_insert_ne by discriminate)).
    repeat split; reflexivity.
  - intros Ha Hc. unfold GetUserID, GetUserRoles, GetClaims, IsAuthenticated, Context_Get.
    now rewrite (Hkeys Ha Hc).
  - intros He Hc Ha. unfold GetUserID, GetUserRoles, GetClaims, IsAuthenticated, Context_Get.
    rewrite (Hkeys Ha Hc), He. repeat split; reflexivity.
Qed.

(** X7.  [OptionalAuth] never answers, aborts or panics.  Where
    [AuthMiddleware] would accept the request it stores the same four keys
    and the flag ["authenticated"]; where [AuthMiddleware] would refuse it
    (no header, another scheme, a token that does not validate) it leaves
    the context untouched. *)
Theorem OptionalAuth_never_refuses (tm : TokenManager) (now : Time) (c : Context) :
  let c' := OptionalAuth tm now c in
  Written c' = Written c /\ Aborted c' = Aborted c /\ Panicked c' = Panicked c /\
  ((exists token claims,
      Context_GetHeader c "Authorization" = "Bearer " +:+ token /\
      TokenManager_ValidateToken tm now token = Ok claims /\
      c' = Context_Set "authenticated" (VBool true) (AuthMiddleware tm now c)) \/
   (c' = c /\ Aborted (AuthMiddleware tm now c) = true)).
Proof.
  intros c'.
  destruct (AuthMiddleware_without_bearer tm now c) as (Hmissing & Hformat).
  subst c'.
  destruct (strip_prefix "Bearer " (Context_GetHeader c "Authorization"))
    as [token|] eqn:E.
  - apply strip_prefix_Some in E.
    pose proof (AuthMiddleware_Bearer tm now c token E) as R.
    unfold OptionalAuth. rewrite E.
    destruct (TrimPrefix_Bearer token) as (-> & -> & ->).
    destruct (TokenManager_ValidateToken tm now token) as [claims|err] eqn:V.
    + split; [|split; [|split]]; try reflexivity.
      left. exists token, claims. now rewrite R.
    + split; [|split; [|split]]; try reflexivity.
      right. split; [reflexivity|]. now rewrite R.
  - assert (Hc : OptionalAuth tm now c = c).
    { unfold OptionalAuth, TrimPrefix. rewrite E, String.eqb_refl.
      now destruct (String.eqb _ ""). }
    rewrite Hc. split; [|split; [|split]]; try reflexivity.
    right. split; [reflexivity|].
    destruct (String.eqb_spec (Context_GetHeader c "Authorization") "") as [E0|Hne].
    + now rewrite (Hmissing E0).
    + rewrite Hformat; [reflexivity | exact Hne |].
      intros token Et. rewrite Et, strip_prefix_app in E. discriminate.
Qed.

(** [RequireRole] lets a context through, unchanged, only when it
    carries claims with one of the allowed roles.  In every other case
    (no claims because no authentication ran or [OptionalAuth] found no
    valid token, a value that is no claims, no role in common, an empty
    list of allowed roles) it aborts with one response of status 403. *)
Lemma RequireRole_lets_through_only (allowedRoles : list string) (c : Context) :
  let c' := RequireRole allowedRoles c in
  ((exists claims role,
      GetClaims c = Some claims /\ In role allowedRoles /\ In role (Roles claims)) /\
   c' = c) \/
  (~ (exists claims role,
        GetClaims c = Some claims /\ In role allowedRoles /\ In role (Roles claims)) /\
   Aborted c' = true /\ Keys c' = Keys c /\
   exists body, Written c' = Written c ++ [(StatusForbidden, body)]).
Proof.
  intros c'. subst c'. unfold RequireRole, GetClaims.
  destruct (Context_Get c "claims") as [[s|l|claims|b]|] eqn:G;
    try solve [right; split; [intros (? & ? & [=] & _) | cbn; eauto]].
  destruct (Claims_HasAnyRole claims allowedRoles) eqn:Hany; cbn [negb].
  - left. split; [|reflexivity]. apply Claims_HasAnyRole_In in Hany as (role & ? & ?).
    now exists claims, role.
  - right. split; [|cbn; eauto]. intros (claims' & role & [= <-] & Hin & Hr).
    assert (Claims_HasAnyRole claims allowedRoles = true)
      by (apply Claims_HasAnyRole_In; eauto).
    congruence.
Qed.

(** X8.  [RequirePermission] lets a context through, unchanged, only when it
    carries a user id and claims whose roles [checkPermission] grants the
    resource and action.  Without a user id or without claims, or when the
    roles are not granted the permission, it aborts with one response of
    status 403; with a user id and a value under ["claims"] that is no
    claims it panics, where [RequireRole] answers 403. *)
Theorem RequirePermission_lets_through_only (resource action : string) (c : Context) :
  let c' := RequirePermission resource action c in
  ((exists userID claims,
      Context_Get c "user_id" = Some userID /\ GetClaims c = Some claims /\
      checkPermission (Roles claims) resource action = true) /\
   c' = c) \/
  (Aborted c' = true /\ Panicked c' = Panicked c /\ Keys c' = Keys c /\
   exists body, Written c' = Written c ++ [(StatusForbidden, body)]) \/
  ((exists userID v,
      Context_Get c "user_id" = Some userID /\ Context_Get c "claims" = Some v /\
      GetClaims c = None /\
      Aborted (RequireRole [] c) = true) /\
   c' = Context_panic c).
Proof.
  intros c'. subst c'. unfold RequirePermission, GetClaims.
  destruct (Context_Get c "user_id") as [userID|] eqn:Gid;
    [|right; left; cbn; eauto 10].
  destruct (Context_Get c "claims") as [[s|l|claims|b]|] eqn:G;
    try solve [right; right; split; [|reflexivity]; eexists _, _;
               repeat split; try reflexivity; unfold RequireRole; now rewrite G].
  - destruct (checkPermission (Roles claims) resource action) eqn:Hc; cbn [negb].
    + left. split; [|reflexivity]. now exists userID, claims.
    + right; left. cbn. eauto 10.
  - right; left. cbn. eauto 10.
Qed.

(** X9.  A handler behind [AuthMiddleware] and [RequireRole], as the routes
    of the server are set up, runs only for a request with a valid bearer
    token whose roles contain an allowed role, and then on the context
    [AuthMiddleware] produced; every other request is answered with 401 or
    403 and the handler does not run. *)
Theorem guarded_handler_runs_only_authorized (tm : TokenManager) (now : Time)
    (allowedRoles : list string) (handler : HandlerFunc) (c : Context) :
  Aborted c = false -> Panicked c = false ->
  let out := run_chain [AuthMiddleware tm now; RequireRole allowedRoles; handler] c in
  (exists token claims role,
     Context_GetHeader c "Authorization" = "Bearer " +:+ token /\
     TokenManager_ValidateToken tm now token = Ok claims /\
     In role allowedRoles /\ In role (Roles claims) /\
     out = handler (AuthMiddleware tm now c)) \/
  (Aborted out = true /\
   (out = AuthMiddleware tm now c \/
    out = RequireRole allowedRoles (AuthMiddleware tm now c)) /\
   exists status body,
     Written out = Written c ++ [(status, body)] /\
     (status = StatusUnauthorized \/ status = StatusForbidden)).
Proof.
  intros Ha Hp out. subst out. cbn [run_chain].
  destruct (AuthMiddleware_accepts_or_aborts tm now c) as [Hok|Hno].
  - destruct Hok as (token & claims & Hh & V & G & HW & HA).
    destruct (AuthMiddleware_accepts tm now c token claims Hh V) as (_ & _ & _ & _ & HP).
    rewrite HA, Ha, HP, Hp. cbn [orb].
    destruct (RequireRole_lets_through_only allowedRoles (AuthMiddleware tm now c))
      as [[(claims' & role & G' & Hin & Hr) ->]|(Hn & Hab & _ & body & HW')].
    + rewrite HA, Ha, HP, Hp. cbn [orb]. left. exists token, claims, role.
      assert (claims' = claims) as -> by congruence.
      repeat (split; [assumption|]).
      now destruct (Aborted (handler _) || Panicked (handler _)).
    + rewrite Hab. cbn [orb]. right. split; [exact Hab|]. split; [now right|].
      exists StatusForbidden, body. rewrite HW', HW. auto.
  - destruct Hno as (Hab & _ & body & HW). rewrite Hab. cbn [orb]. right.
    split; [exact Hab|]. split; [now left|]. exists StatusUnauthorized, body. auto.
Qed.

End GateCases.

Section GateExamples2.
#[local] Existing Instance exampleWire.

(** The practitioner's token before a handler behind the guard for
    practitioner or admin, and behind the guard for admin. *)
Lemma guarded_handler_runs_only_authorized_witness :
  Written (run_chain [AuthMiddleware example_tm Second;
                      RequireRole ["practitioner"; "admin"]; example_ok_handler]
             (example_request ("Bearer " +:+ example_token))) =
    [(StatusOK, H {[ "status" := VString "ok" ]})] /\
  map fst (Written (run_chain [AuthMiddleware example_tm Second;
                               RequireRole ["admin"]; example_ok_handler]
                      (example_request ("Bearer " +:+ example_token)))) =
    [StatusForbidden].
Proof.
  split.
  - destruct (guarded_handler_runs_only_authorized example_tm Second
                ["practitioner"; "admin"] example_ok_handler
                (example_request ("Bearer " +:+ example_token)) eq_refl eq_refl)
      as [(token & claims & role & _ & _ & _ & _ & ->)|(Hab & _)].
    + vm_compute. reflexivity.
    + vm_compute in Hab. discriminate Hab.
  - destruct (guarded_handler_runs_only_authorized example_tm Second
                ["admin"] example_ok_handler
                (example_request ("Bearer " +:+ example_token)) eq_refl eq_refl)
      as [_|_]; vm_compute; reflexivity.
Defined.

End GateExamples2.

(** ** The permission table of the fast path *)

Lemma checkPermission_app l1 l2 resource action :
  checkPermission (l1 ++ l2) resource action =
  checkPermission l1 resource action || checkPermission l2 resource action.
Proof.
  induction l1 as [|role l1 IH]; [reflexivity|].
  cbn [app checkPermission]. rewrite IH.
  now destruct (match permissions !! role with Some _ => _ | None => _ end).
Qed.

Lemma checkPermission_exists roles resource action :
  checkPermission roles resource action = true <->
  exists role, In role roles /\ checkPermission [role] resource action = true.
Proof.
  induction roles as [|role roles IH].
  - split; [discriminate | intros (? & [] & _)].
  - change (role :: roles) with ([role] ++ roles).
    rewrite checkPermission_app, orb_true_iff, IH. split.
    + intros [E|(r & Hr & E)]; [exists role; split; [now left|exact E]
                               |exists r; split; [now right|exact E]].
    + intros (r & [<-|Hr] & E); [now left | right; eauto].
Qed.

Lemma seeded_grant_spec roleName resource action :
  seeded_grant roleName resource action = true <->
  exists permNames p,
    In (roleName, permNames) rolePermissions /\ In p defaultPermissions /\
    In (Permission_Name p) permNames /\
    Resource p = resource /\ Action p = action.
Proof.
  unfold seeded_grant. rewrite existsb_exists. split.
  - intros ([rn names] & Hin & Hc). cbn [fst snd] in Hc.
    apply andb_true_iff in Hc as [Hn Hc]. apply String.eqb_eq in Hn. subst rn.
    apply existsb_exists in Hc as (p & Hp & Hc).
    apply andb_true_iff in Hc as [Hc Hname]. apply andb_true_iff in Hc as [Hr Ha].
    apply String.eqb_eq in Hr, Ha.
    apply existsb_exists in Hname as (n & Hn & En). apply String.eqb_eq in En. subst n.
    exists names, p. auto.
  - intros (names & p & Hin & Hp & Hname & Hr & Ha).
    exists (roleName, names). split; [exact Hin|]. cbn [fst snd].
    rewrite String.eqb_refl. cbn [andb]. apply existsb_exists. exists p.
    split; [exact Hp|]. rewrite Hr, Ha, !String.eqb_refl. cbn [andb].
    apply existsb_exists. exists (Permission_Name p). split; [exact Hname|].
    apply String.eqb_refl.
Qed.

(** The finitely many grants of the table, one role at a time. *)
Lemma checkPermission_single role resource action :
  checkPermission [role] resource action = seeded_grant role resource action.
Proof.
  destruct (seeded_grant role resource action) eqn:S.
  - apply seeded_grant_spec in S as (names & p & Hin & Hp & Hname & <- & <-).
    cbn [rolePermissions In] in Hin.
    destruct Hin as [E|[E|[E|[E|[]]]]]; injection E as <- <-;
      cbn [defaultPermissions In] in Hp;
      repeat (destruct Hp as [<-|Hp];
              [first [ reflexivity
                     | exfalso; cbn in Hname;
                       repeat (destruct Hname as [Hname|Hname];
                               [discriminate Hname|]); exact Hname ] |]);
      destruct Hp.
  - apply not_true_is_false. intros C. apply not_true_iff_false in S. apply S. clear S.
    cbn [checkPermission] in C.
    destruct (permissions !! role) as [table|] eqn:Et; [|discriminate].
    destruct (table !! resource) as [actions|] eqn:Ea; [|discriminate].
    destruct (existsb _ actions) eqn:Ex; [|discriminate].
    apply existsb_exists in Ex as (a & Ha & Eq). apply String.eqb_eq in Eq. subst a.
    unfold permissions in Et.
    repeat (rewrite lookup_insert in Et; case_decide; [subst role; injection Et as <-|]);
      try (rewrite lookup_singleton in Et; case_decide; [subst role; injection Et as <-|
                                                         discriminate Et]);
      repeat (rewrite lookup_insert in Ea; case_decide;
              [subst resource; injection Ea as <-|]);
      try (rewrite lookup_singleton in Ea; case_decide;
           [subst resource; injection Ea as <-|discriminate Ea]);
      cbn [In] in Ha;
      repeat (destruct Ha as [<-|Ha]; [reflexivity|]); destruct Ha.
Qed.

(** X10.  The permission table that [RequirePermission] consults and the
    seed data that [InitializeDefaultRoles] writes to the store say the
    same: [checkPermission] grants an action on a resource to a list of
    roles exactly when [rolePermissions] lists, for one of these roles, the
    name of a permission of [defaultPermissions] with that resource and that
    action. *)
Theorem checkPermission_agrees_with_seed_data (roles : list string)
    (resource action : string) :
  checkPermission roles resource action = true <->
  exists roleName permNames p,
    In roleName roles /\
    In (roleName, permNames) rolePermissions /\
    In p defaultPermissions /\
    In (Permission_Name p) permNames /\
    Resource p = resource /\ Action p = action.
Proof.
  rewrite checkPermission_exists. split.
  - intros (role & Hin & E). rewrite checkPermission_single in E.
    apply seeded_grant_spec in E as (names & p & E). exists role, names, p. tauto.
  - intros (role & names & p & Hin & E). exists role. split; [exact Hin|].
    rewrite checkPermission_single. apply seeded_grant_spec. exists names, p. exact E.
Qed.

(** X11.  The roles of a user add up: a list of roles is granted what one of
    its roles is granted, so a further role never takes a permission away
    and the order and the repetitions of the roles do not matter. *)
Theorem checkPermission_union (roles1 roles2 : list string) (resource action : string) :
  checkPermission (roles1 ++ roles2) resource action =
    checkPermission roles1 resource action || checkPermission roles2 resource action /\
  ((forall role, In role roles1 <-> In role roles2) ->
   checkPermission roles1 resource action = checkPermission roles2 resource action).
Proof.
  split; [apply checkPermission_app|]. intros Hsame.
  apply eq_true_iff_eq. rewrite !checkPermission_exists.
  split; intros (role & Hin & E); exists role; (split; [now apply Hsame|exact E]).
Qed.

(** X12.  Only the role admin reaches the users, and only the role admin
    deletes: a list of roles that is granted an action on the resource
    users, or the action delete on any resource, contains admin. *)
Theorem checkPermission_users_and_delete_only_admin (roles : list string)
    (resource action : string) :
  checkPermission roles resource action = true ->
  resource = "users" \/ action = "delete" ->
  In "admin" roles.
Proof.
  intros C Hra. apply checkPermission_exists in C as (role & Hin & E).
  enough (role = "admin") as <- by exact Hin.
  cbn [checkPermission] in E.
  destruct (permissions !! role) as [table|] eqn:Et; [|discriminate].
  destruct (table !! resource) as [actions|] eqn:Ea; [|discriminate].
  destruct (existsb _ actions) eqn:Ex; [clear E|discriminate].
  apply existsb_exists in Ex as (a & Ha & Eq). apply String.eqb_eq in Eq. subst a.
  unfold permissions in Et.
  repeat (rewrite lookup_insert in Et; case_decide; [subst role; injection Et as <-|]);
    try (rewrite lookup_singleton in Et; case_decide; [subst role; injection Et as <-|
                                                       discriminate Et]);
    try reflexivity; exfalso;
    repeat (rewrite lookup_insert in Ea; case_decide;
            [subst resource; injection Ea as <-|]);
    try (rewrite lookup_singleton in Ea; case_decide;
         [subst resource; injection Ea as <-|discriminate Ea]);
    cbn [In] in Ha;
    repeat (destruct Ha as [<-|Ha]; [destruct Hra as [C|C]; discriminate C|]);
    destruct Ha.
Qed.

(** A practitioner who is also an admin may delete a user. *)
Lemma checkPermission_users_and_delete_only_admin_witness :
  checkPermission ["practitioner"; "admin"] "users" "delete" = true /\
  In "admin" ["practitioner"; "admin"].
Proof.
  split; [reflexivity|].
  apply (checkPermission_users_and_delete_only_admin
           ["practitioner"; "admin"] "users" "delete"); [reflexivity|now left].
Defined.

(** ** The constraints of the schema *)

Lemma statement_tables w : tables (snd (statement w)) = tables w.
Proof. unfold statement. now destruct (faults w). Qed.

Lemma gorm_First_tables {T} (tbl : DB -> list T) cond w r w' :
  gorm_First tbl cond w = (r, w') -> tables w' = tables w.
Proof.
  unfold gorm_First. pose proof (statement_tables w) as E.
  destruct (statement w) as [failed w1]. cbn [snd] in E.
  destruct failed; [|destruct (List.find _ _)]; intros [= _ <-]; exact E.
Qed.

Lemma gorm_Find_tables {T} (tbl : DB -> list T) cond w r w' :
  gorm_Find tbl cond w = (r, w') -> tables w' = tables w.
Proof.
  unfold gorm_Find. pose proof (statement_tables w) as E.
  destruct (statement w) as [failed w1]. cbn [snd] in E.
  destruct failed; intros [= _ <-]; exact E.
Qed.

Lemma Schema_tables db db' : db' = db -> Schema db -> Schema db'.
Proof. now intros ->. Qed.

Lemma key_or_name_free {T} (id name : T -> string) i n (l : list T) :
  existsb (fun r => String.eqb (id r) i || String.eqb (name r) n) l = false ->
  ~ In i (map id l) /\ ~ In n (map name l).
Proof.
  intros E. rewrite existsb_false_iff in E.
  split; intros Hin; apply in_map_iff in Hin as (r & <- & Hr);
    specialize (E r Hr); rewrite String.eqb_refl in E;
    [discriminate | now rewrite orb_true_r in E].
Qed.

Lemma gorm_Create_Role_Schema role w r w' :
  gorm_Create_Role role w = (r, w') -> Schema (tables w) -> Schema (tables w').
Proof.
  unfold gorm_Create_Role.
  destruct (if String.eqb (Role_ID role) "" then uuid_New w else (Role_ID role, w))
    as [id w1] eqn:Eid.
  assert (tables w1 = tables w) as E1.
  { destruct (String.eqb (Role_ID role) ""); injection Eid as <- <-; reflexivity. }
  pose proof (statement_tables w1) as E2.
  destruct (statement w1) as [failed w2]. cbn [snd] in E2.
  destruct failed; [intros [= _ <-]; now rewrite E2, E1|].
  destruct (existsb _ _) eqn:Ex; intros [= _ <-]; [now rewrite E2, E1|].
  rewrite E2, E1 in *. cbn [with_tables tables Role_Name] in *.
  apply key_or_name_free in Ex as [Hid Hname].
  intros [[] HL]. split; [constructor|]; cbn; try assumption;
    rewrite map_app; now apply NoDup_snoc.
Qed.

Lemma gorm_Create_Permission_Schema permission w r w' :
  gorm_Create_Permission permission w = (r, w') ->
  Schema (tables w) -> Schema (tables w').
Proof.
  unfold gorm_Create_Permission.
  destruct (if String.eqb (Permission_ID permission) "" then uuid_New w
            else (Permission_ID permission, w)) as [id w1] eqn:Eid.
  assert (tables w1 = tables w) as E1.
  { destruct (String.eqb (Permission_ID permission) ""); injection Eid as <- <-;
      reflexivity. }
  pose proof (statement_tables w1) as E2.
  destruct (statement w1) as [failed w2]. cbn [snd] in E2.
  destruct failed; [intros [= _ <-]; now rewrite E2, E1|].
  destruct (existsb _ _) eqn:Ex; intros [= _ <-]; [now rewrite E2, E1|].
  rewrite E2, E1 in *. cbn [with_tables tables Permission_Name] in *.
  apply key_or_name_free in Ex as [Hid Hname].
  intros [[] HL]. split; [constructor|]; cbn; try assumption;
    rewrite map_app; now apply NoDup_snoc.
Qed.

Lemma gorm_Create_UserRole_Schema assignment w r w' :
  gorm_Create_UserRole assignment w = (r, w') ->
  Schema (tables w) -> Schema (tables w').
Proof.
  unfold gorm_Create_UserRole.
  pose proof (statement_tables w) as E2.
  destruct (statement w) as [failed w2]. cbn [snd] in E2.
  destruct failed; [intros [= _ <-]; now rewrite E2|].
  destruct (existsb _ _) eqn:Ex; intros [= _ <-]; [now rewrite E2|].
  rewrite E2 in *. cbn [with_tables tables] in *.
  intros [[] HL]. split; [constructor|]; cbn; try assumption.
  rewrite map_app. apply NoDup_snoc; [assumption|].
  intros Hin. apply assignment_cond_In in Hin. congruence.
Qed.

Lemma link_permissions_NoDup roleID ps : forall links,
  List.NoDup (map link_key links) ->
  List.NoDup (map link_key (link_permissions roleID ps links)).
Proof.
  induction ps as [|p ps IH]; intros links HL; [exact HL|].
  cbn [link_permissions]. apply IH.
  destruct (existsb _ links) eqn:Ex; [exact HL|].
  rewrite map_app. apply NoDup_snoc; [exact HL|]. cbn.
  intros Hin. apply in_map_iff in Hin as (rp & Ek & Hrp).
  rewrite existsb_false_iff in Ex. specialize (Ex rp Hrp).
  unfold link_key in Ek. cbn in Ek. injection Ek as E1 E2.
  rewrite E1, E2, !String.eqb_refl in Ex. discriminate Ex.
Qed.

Lemma gorm_Append_Permissions_Schema role ps w err role' w' :
  gorm_Append_Permissions role ps w = (err, role', w') ->
  Schema (tables w) -> Schema (tables w').
Proof.
  unfold gorm_Append_Permissions.
  pose proof (statement_tables w) as E2.
  destruct (statement w) as [failed w2]. cbn [snd] in E2.
  destruct failed; intros [= _ _ <-]; [now rewrite E2|].
  rewrite E2 in *. cbn [with_tables tables] in *.
  intros [[] HL]. split; [constructor|]; cbn; try assumption.
  now apply link_permissions_NoDup.
Qed.

Lemma gorm_Delete_UserRole_Schema cond w err n w' :
  gorm_Delete_UserRole cond w = (err, n, w') ->
  Schema (tables w) -> Schema (tables w').
Proof.
  unfold gorm_Delete_UserRole.
  pose proof (statement_tables w) as E2.
  destruct (statement w) as [failed w2]. cbn [snd] in E2.
  destruct failed; intros [= _ _ <-]; [now rewrite E2|].
  rewrite E2 in *. cbn [with_tables tables] in *.
  intros [[] HL]. split; [constructor|]; cbn; try assumption.
  now apply NoDup_map_filter.
Qed.

Lemma gorm_Delete_RolePermission_Schema cond w err n w' :
  gorm_Delete_RolePermission cond w = (err, n, w') ->
  Schema (tables w) -> Schema (tables w').
Proof.
  unfold gorm_Delete_RolePermission.
  pose proof (statement_tables w) as E2.
  destruct (statement w) as [failed w2]. cbn [snd] in E2.
  destruct failed; intros [= _ _ <-]; [now rewrite E2|].
  rewrite E2 in *. cbn [with_tables tables] in *.
  intros [[] HL]. split; [constructor|]; cbn; try assumption.
  now apply NoDup_map_filter.
Qed.

Lemma gorm_Delete_Role_Schema cond w err n w' :
  gorm_Delete_Role cond w = (err, n, w') ->
  Schema (tables w) -> Schema (tables w').
Proof.
  unfold gorm_Delete_Role.
  pose proof (statement_tables w) as E2.
  destruct (statement w) as [failed w2]. cbn [snd] in E2.
  destruct failed; intros [= _ _ <-]; [now rewrite E2|].
  rewrite E2 in *. cbn [with_tables tables] in *.
  intros [[] HL]. split; [constructor|]; cbn; try assumption;
    now apply NoDup_map_filter.
Qed.

Lemma gorm_Delete_Permission_Schema cond w err n w' :
  gorm_Delete_Permission cond w = (err, n, w') ->
  Schema (tables w) -> Schema (tables w').
Proof.
  unfold gorm_Delete_Permission.
  pose proof (statement_tables w) as E2.
  destruct (statement w) as [failed w2]. cbn [snd] in E2.
  destruct failed; intros [= _ _ <-]; [now rewrite E2|].
  rewrite E2 in *. cbn [with_tables tables] in *.
  intros [[] HL]. split; [constructor|]; cbn; try assumption;
    now apply NoDup_map_filter.
Qed.

Lemma tx_Commit_Schema begin w err w' :
  tx_Commit begin w = (err, w') ->
  Schema begin -> Schema (tables w) -> Schema (tables w').
Proof.
  unfold tx_Commit.
  pose proof (statement_tables w) as E2.
  destruct (statement w) as [failed w2]. cbn [snd] in E2.
  destruct failed; intros [= _ <-]; [intros Hb _; exact Hb|now rewrite E2].
Qed.

(** The next statement of a service function, for a goal on the store
    the function leaves: the call is named and the constraints are
    carried to the store after it; any other test is split. *)
Ltac head_of t :=
  lazymatch t with
  | match ?x with _ => _ end => head_of x
  | _ => t
  end.

Ltac schema_call h lemma w :=
  let E := fresh "E" in
  destruct h eqn:E;
  match goal with
  | HS : Schema (tables w) |- _ => pose proof (lemma _ _ _ _ _ E HS)
  | HS : Schema (tables w) |- _ => pose proof (lemma _ _ _ _ _ _ E HS)
  | HS : Schema (tables w) |- _ => pose proof (lemma _ _ _ _ E HS)
  end; clear E.

Ltac schema_read h lemma w :=
  let E := fresh "E" in
  destruct h eqn:E; apply lemma in E;
  match goal with
  | HS : Schema (tables w) |- _ => pose proof (Schema_tables _ _ E HS)
  end; clear E.

Ltac schema_on h :=
  lazymatch h with
  | gorm_First _ _ ?w => schema_read h @gorm_First_tables w
  | gorm_Find _ _ ?w => schema_read h @gorm_Find_tables w
  | gorm_Create_Role _ ?w => schema_call h gorm_Create_Role_Schema w
  | gorm_Create_Permission _ ?w => schema_call h gorm_Create_Permission_Schema w
  | gorm_Create_UserRole _ ?w => schema_call h gorm_Create_UserRole_Schema w
  | gorm_Append_Permissions _ _ ?w =>
      destruct h as [[? ?] ?] eqn:?E;
      match goal with
      | E : h = _, HS : Schema (tables w) |- _ =>
          pose proof (gorm_Append_Permissions_Schema _ _ _ _ _ _ E HS); clear E
      end
  | gorm_Delete_UserRole _ ?w =>
      destruct h as [[? ?] ?] eqn:?E;
      match goal with
      | E : h = _, HS : Schema (tables w) |- _ =>
          pose proof (gorm_Delete_UserRole_Schema _ _ _ _ _ E HS); clear E
      end
  | gorm_Delete_RolePermission _ ?w =>
      destruct h as [[? ?] ?] eqn:?E;
      match goal with
      | E : h = _, HS : Schema (tables w) |- _ =>
          pose proof (gorm_Delete_RolePermission_Schema _ _ _ _ _ E HS); clear E
      end
  | gorm_Delete_Role _ ?w =>
      destruct h as [[? ?] ?] eqn:?E;
      match goal with
      | E : h = _, HS : Schema (tables w) |- _ =>
          pose proof (gorm_Delete_Role_Schema _ _ _ _ _ E HS); clear E
      end
  | gorm_Delete_Permission _ ?w =>
      destruct h as [[? ?] ?] eqn:?E;
      match goal with
      | E : h = _, HS : Schema (tables w) |- _ =>
          pose proof (gorm_Delete_Permission_Schema _ _ _ _ _ E HS); clear E
      end
  | tx_Commit ?begin ?w =>
      destruct h as [? ?] eqn:?E;
      match goal with
      | E : h = _, HB : Schema begin, HS : Schema (tables w) |- _ =>
          pose proof (tx_Commit_Schema _ _ _ _ E HB HS); clear E
      end
  | _ => destruct h
  end.

Ltac schema_go :=
  lazymatch goal with
  | |- Schema (tables (snd (_, _))) =>
      cbn [snd tx_Rollback with_tables tables]; assumption
  | |- Schema (tables (snd ?t)) => let h := head_of t in schema_on h
  end.

Lemma CreateRole_Schema name description permissionIDs w :
  Schema (tables w) ->
  Schema (tables (snd (RBACService_CreateRole name description permissionIDs w))).
Proof. intros HS. unfold RBACService_CreateRole. repeat schema_go. Qed.

Lemma CreatePermission_Schema name description resource action w :
  Schema (tables w) ->
  Schema (tables (snd (RBACService_CreatePermission name description resource action w))).
Proof. intros HS. unfold RBACService_CreatePermission. repeat schema_go. Qed.

Lemma AssignRoleToUser_Schema userID roleID grantedBy w :
  Schema (tables w) ->
  Schema (tables (snd (RBACService_AssignRoleToUser userID roleID grantedBy w))).
Proof. intros HS. unfold RBACService_AssignRoleToUser. repeat schema_go. Qed.

Lemma RemoveRoleFromUser_Schema userID roleID w :
  Schema (tables w) ->
  Schema (tables (snd (RBACService_RemoveRoleFromUser userID roleID w))).
Proof. intros HS. unfold RBACService_RemoveRoleFromUser. repeat schema_go. Qed.

Lemma DeleteRole_Schema roleID w :
  Schema (tables w) -> Schema (tables (snd (RBACService_DeleteRole roleID w))).
Proof. intros HS. unfold RBACService_DeleteRole. cbv zeta. repeat schema_go. Qed.

Lemma DeletePermission_Schema permissionID w :
  Schema (tables w) ->
  Schema (tables (snd (RBACService_DeletePermission permissionID w))).
Proof. intros HS. unfold RBACService_DeletePermission. cbv zeta. repeat schema_go. Qed.

Lemma create_default_permissions_Schema perms : forall w,
  Schema (tables w) -> Schema (tables (snd (create_default_permissions perms w))).
Proof.
  induction perms as [|perm rest IH]; intros w HS; [exact HS|].
  cbn [create_default_permissions].
  repeat first [apply IH; assumption | schema_go].
Qed.

Lemma create_default_roles_Schema order : forall w,
  Schema (tables w) -> Schema (tables (snd (create_default_roles order w))).
Proof.
  induction order as [|[roleName permNames] rest IH]; intros w HS; [exact HS|].
  cbn [create_default_roles].
  repeat first [apply IH; assumption | schema_go].
Qed.

Lemma InitializeDefaultRoles_Schema order w :
  Schema (tables w) ->
  Schema (tables (snd (RBACService_InitializeDefaultRoles order w))).
Proof.
  intros HS. unfold RBACService_InitializeDefaultRoles.
  pose proof (create_default_permissions_Schema defaultPermissions w HS) as HS1.
  destruct (create_default_permissions defaultPermissions w) as [[err|] w1];
    cbn [snd] in HS1; [exact HS1|].
  now apply create_default_roles_Schema.
Qed.

(** X13.  Every operation of the service that writes keeps the uniqueness
    constraints of the schema (the primary keys of the tables, of
    [user_roles] and of [role_permissions], and the unique names of roles
    and permissions), whether it succeeds or fails, whichever statements
    fail in the storage layer and whichever identifiers are generated. *)
Theorem RBACService_keeps_Schema (w : World) :
  Schema (tables w) ->
  (forall name description permissionIDs,
     Schema (tables (snd (RBACService_CreateRole name description permissionIDs w)))) /\
  (forall name description resource action,
     Schema (tables (snd (RBACService_CreatePermission name description
                            resource action w)))) /\
  (forall userID roleID grantedBy,
     Schema (tables (snd (RBACService_AssignRoleToUser userID roleID grantedBy w)))) /\
  (forall userID roleID,
     Schema (tables (snd (RBACService_RemoveRoleFromUser userID roleID w)))) /\
  (forall roleID, Schema (tables (snd (RBACService_DeleteRole roleID w)))) /\
  (forall permissionID,
     Schema (tables (snd (RBACService_DeletePermission permissionID w)))) /\
  (forall order, Schema (tables (snd (RBACService_InitializeDefaultRoles order w)))).
Proof.
  intros HS.
  split; [intros; now apply CreateRole_Schema|].
  split; [intros; now apply CreatePermission_Schema|].
  split; [intros; now apply AssignRoleToUser_Schema|].
  split; [intros; now apply RemoveRoleFromUser_Schema|].
  split; [intros; now apply DeleteRole_Schema|].
  split; [intros; now apply DeletePermission_Schema|].
  intros; now apply InitializeDefaultRoles_Schema.
Qed.

(** The seed store keeps the constraints through a deletion and
    through the seeding. *)
Lemma RBACService_keeps_Schema_witness :
  Schema example_db /\
  Schema (tables (snd (RBACService_DeleteRole "r1" (example_world example_db 0)))) /\
  Schema (tables (snd (RBACService_InitializeDefaultRoles rolePermissions
                         (example_world example_db 0)))).
Proof.
  assert (Schema example_db) as HS.
  { split; [exact example_db_constraints|].
    cbn. constructor; [intros []|constructor]. }
  split; [exact HS|].
  destruct (RBACService_keeps_Schema (example_world example_db 0) HS)
    as (_ & _ & _ & _ & Hd & _ & Hi).
  split; [apply Hd | apply Hi].
Defined.

(** ** Creating a permission *)

Lemma statement_keeps w failed w' :
  statement w = (failed, w') ->
  tables w' = tables w /\ clock w' = clock w /\ uuids w' = uuids w.
Proof. unfold statement. destruct (faults w); intros [= _ <-]; auto. Qed.

(** X14.  [CreatePermission] adds one row with a fresh identifier, the given
    name, resource and action and the time stamps of the clock, or it
    returns an error and leaves the store as it was, whichever statements
    fail in the storage layer; without such failures it refuses a name that
    is taken with the message that names it, refuses an identifier that is
    taken as a failed creation, and creates the row otherwise. *)
Theorem CreatePermission_outcomes (name description resource action : string)
    (w : World) :
  let db := tables w in
  let out := RBACService_CreatePermission name description resource action w in
  let row := new_permission (uuids w 0) name description resource action (clock w) in
  ((fst out = Ok row /\ tables (snd out) = permission_created_db db row /\
    ~ In name (map Permission_Name (tbl_permissions db)) /\
    ~ In (uuids w 0) (map Permission_ID (tbl_permissions db))) \/
   ((exists e, fst out = Err e) /\ tables (snd out) = db)) /\
  (faults w = [] -> In name (map Permission_Name (tbl_permissions db)) ->
   out = (Err (Errorf ("permission with name '" +:+ name +:+ "' already exists") None),
          w)) /\
  (faults w = [] -> ~ In name (map Permission_Name (tbl_permissions db)) ->
   In (uuids w 0) (map Permission_ID (tbl_permissions db)) ->
   fst out = Err (Errorf "failed to create permission" (Some ErrDuplicatedKey))) /\
  (faults w = [] -> ~ In name (map Permission_Name (tbl_permissions db)) ->
   ~ In (uuids w 0) (map Permission_ID (tbl_permissions db)) ->
   fst out = Ok row /\ tables (snd out) = permission_created_db db row).
Proof.
  intros db out row.
  assert (Hcreate : forall w1,
    tables w1 = tables w -> clock w1 = clock w -> uuids w1 = uuids w ->
    let res := gorm_Create_Permission
                 {| Permission_ID := ""; Permission_Name := name;
                    Permission_Description := description;
                    Resource := resource; Action := action;
                    Permission_CreatedAt := Time_zero;
                    Permission_UpdatedAt := Time_zero |} w1 in
    (fst res = Ok row /\ tables (snd res) = permission_created_db db row /\
     ~ In name (map Permission_Name (tbl_permissions db)) /\
     ~ In (uuids w 0) (map Permission_ID (tbl_permissions db))) \/
    ((exists e, fst res = Err e) /\ tables (snd res) = db /\
     (faults w1 = [] ->
      fst res = Err ErrDuplicatedKey /\
      (In name (map Permission_Name (tbl_permissions db)) \/
       In (uuids w 0) (map Permission_ID (tbl_permissions db)))))).
  { intros w1 Et Ec Eu res. subst res.
    unfold gorm_Create_Permission. cbn [Permission_ID String.eqb uuid_New].
    destruct (statement _) as [failed w2] eqn:S.
    assert (faults w1 = [] -> failed = false) as Hf.
    { intros F. unfold statement in S. cbn in S. rewrite F in S. now injection S. }
    apply statement_keeps in S as (Et2 & Ec2 & Eu2). cbn in Et2, Ec2, Eu2.
    destruct failed.
    - right. split; [eauto|]. split; [cbn; now rewrite Et2, Et|].
      intros F. now specialize (Hf F).
    - cbn [Permission_Name tables]. rewrite Et2, Et. fold db.
      destruct (existsb _ (tbl_permissions db)) eqn:Ex.
      + right. split; [eauto|]. split; [cbn; now rewrite Et2, Et|]. intros _.
        split; [reflexivity|].
        apply existsb_exists in Ex as (p & Hp & Ex).
        apply orb_true_iff in Ex as [Ex|Ex]; apply String.eqb_eq in Ex.
        * right. rewrite <- Eu, <- Ex. now apply in_map.
        * left. rewrite <- Ex. now apply in_map.
      + apply key_or_name_free in Ex as [Hid Hname]. rewrite Eu in Hid.
        left. cbn. unfold permission_created_db, row, new_permission.
        rewrite Eu, Ec. auto. }
  subst out. unfold RBACService_CreatePermission, gorm_First.
  destruct (statement w) as [failed w1] eqn:S.
  assert (faults w = [] -> failed = false /\ w1 = w) as Hf.
  { intros F. rewrite (statement_nofault w F) in S. injection S as <- <-. auto. }
  apply statement_keeps in S as (Et & Ec & Eu).
  specialize (Hcreate w1 Et Ec Eu). cbv zeta in Hcreate.
  assert (Hout :
    let res := gorm_Create_Permission
                 {| Permission_ID := ""; Permission_Name := name;
                    Permission_Description := description;
                    Resource := resource; Action := action;
                    Permission_CreatedAt := Time_zero;
                    Permission_UpdatedAt := Time_zero |} w1 in
    let out := (let '(created, w2) := res in
                match created with
                | Ok permission => (Ok permission, w2)
                | Err err => (Err (Errorf "failed to create permission" (Some err)), w2)
                end) in
    ((fst out = Ok row /\ tables (snd out) = permission_created_db db row /\
      ~ In name (map Permission_Name (tbl_permissions db)) /\
      ~ In (uuids w 0) (map Permission_ID (tbl_permissions db))) \/
     ((exists e, fst out = Err e) /\ tables (snd out) = db)) /\
    (faults w1 = [] -> ~ In name (map Permission_Name (tbl_permissions db)) ->
     In (uuids w 0) (map Permission_ID (tbl_permissions db)) ->
     fst out = Err (Errorf "failed to create permission" (Some ErrDuplicatedKey))) /\
    (faults w1 = [] -> ~ In name (map Permission_Name (tbl_permissions db)) ->
     ~ In (uuids w 0) (map Permission_ID (tbl_permissions db)) ->
     fst out = Ok row /\ tables (snd out) = permission_created_db db row)).
  { cbv zeta. destruct (gorm_Create_Permission _ w1) as [[r|e] w2]; cbn [fst snd] in *;
      destruct Hcreate as [(C1 & C2 & C3 & C4)|((e' & C1) & C2 & C3)];
      try discriminate C1.
    - injection C1 as ->. split; [left; auto|].
      split; [intros _ _ Hin; now destruct C4|auto].
    - split; [right; eauto|].
      split; intros F Hname Hid; destruct (C3 F) as [[= ->] [C|C]];
        solve [reflexivity | now destruct Hname | now destruct Hid]. }
  cbv zeta in Hout. destruct failed.
  - destruct Hout as (O1 & O2 & O3). split; [exact O1|].
    split; [|split]; intros F; now destruct (Hf F).
  - rewrite Et. fold db.
    destruct (List.find _ (tbl_permissions db)) as [p|] eqn:Efind.
    + cbn [fst snd]. split; [right; split; [eauto|exact Et]|].
      apply find_some in Efind as [Hp Ename]. apply String.eqb_eq in Ename.
      assert (In name (map Permission_Name (tbl_permissions db))) as Hin
        by (rewrite <- Ename; now apply in_map).
      split; [|split]; try (intros _ Hno; now destruct Hno).
      intros F _. now destruct (Hf F) as [_ ->].
    + assert (~ In name (map Permission_Name (tbl_permissions db))) as Hno.
      { intros Hin. apply find_eqb_Some in Hin as (r & E & _). congruence. }
      destruct Hout as (O1 & O2 & O3). split; [exact O1|].
      split; [intros _ Hin; now destruct Hno|].
      split; intros F; destruct (Hf F) as [_ ->]; auto.
Qed.

(** ** Deleting a permission *)

Lemma existsb_filter_implied {T} (c h : T -> bool) (l : list T) :
  (forall x, In x l -> c x = true -> h x = true) ->
  existsb c (List.filter h l) = existsb c l.
Proof.
  induction l as [|x l IH]; intros Himp; [reflexivity|]. cbn [List.filter existsb].
  assert (forall y, In y l -> c y = true -> h y = true) as Hl
    by (intros y Hy; apply Himp; now right).
  destruct (h x) eqn:Hx; cbn [existsb]; rewrite (IH Hl); [reflexivity|].
  destruct (c x) eqn:Cx; [|reflexivity].
  rewrite (Himp x (or_introl eq_refl) Cx) in Hx. discriminate Hx.
Qed.

Lemma filter_filter_swap {T} (f f' g : T -> bool) (l : list T) :
  (forall x, In x l -> g x = true -> f' x = f x) ->
  List.filter f' (List.filter g l) = List.filter g (List.filter f l).
Proof.
  induction l as [|x l IH]; intros Hext; [reflexivity|]. cbn [List.filter].
  assert (forall y, In y l -> g y = true -> f' y = f y) as Hl
    by (intros y Hy; apply Hext; now right).
  destruct (g x) eqn:Gx.
  - cbn [List.filter]. rewrite (Hext x (or_introl eq_refl) Gx).
    destruct (f x); cbn [List.filter]; rewrite ?Gx, (IH Hl); reflexivity.
  - destruct (f x); cbn [List.filter]; rewrite ?Gx, (IH Hl); reflexivity.
Qed.

Lemma filter_ext_in {T} (f g : T -> bool) (l : list T) :
  (forall x, In x l -> f x = g x) -> List.filter f l = List.filter g l.
Proof.
  induction l as [|x l IH]; intros Hext; [reflexivity|]. cbn [List.filter].
  rewrite (Hext x (or_introl eq_refl)), IH; [reflexivity|].
  intros y Hy. apply Hext. now right.
Qed.

Lemma role_permissions_of_permission_deleted db permissionID roleID :
  role_permissions_of (permission_deleted_db db permissionID) roleID =
  List.filter (fun p => negb (String.eqb (Permission_ID p) permissionID))
    (role_permissions_of db roleID).
Proof.
  unfold role_permissions_of, permission_deleted_db.
  cbn [tbl_permissions tbl_role_permissions].
  apply filter_filter_swap. intros p _ Hp.
  apply existsb_filter_implied. intros rp _ Hc.
  apply andb_true_iff in Hc as [_ Hc]. apply String.eqb_eq in Hc.
  now rewrite Hc.
Qed.

(** X15.  [DeletePermission] is all or nothing, whichever of its statements
    the storage layer fails: either it returns [nil] and the store is the
    old one without the permission and without the links that name it, or it
    returns an error and the store is the old one.  Without storage failures
    it returns [nil], also when no permission has the id.  After the
    deletion every role has the permissions it had, except the deleted one,
    and every user the roles they had; when no permission had the id and no
    link named it, the store is unchanged. *)
Theorem DeletePermission_all_or_nothing (permissionID : string) (w : World) :
  let db := tables w in
  let err := fst (RBACService_DeletePermission permissionID w) in
  let db' := tables (snd (RBACService_DeletePermission permissionID w)) in
  ((err = None /\ db' = permission_deleted_db db permissionID) \/
   (err <> None /\ db' = db)) /\
  (faults w = [] -> err = None /\ db' = permission_deleted_db db permissionID) /\
  (forall roleID,
     role_permissions_of (permission_deleted_db db permissionID) roleID =
     List.filter (fun p => negb (String.eqb (Permission_ID p) permissionID))
       (role_permissions_of db roleID)) /\
  (forall userID,
     user_roles_of (permission_deleted_db db permissionID) userID =
     user_roles_of db userID) /\
  (~ In permissionID (map Permission_ID (tbl_permissions db)) ->
   (forall rp, In rp (tbl_role_permissions db) -> RP_PermissionID rp <> permissionID) ->
   permission_deleted_db db permissionID = db).
Proof.
  intros db err db'. subst db err db'.
  split; [|split; [|split; [|split]]].
  - destruct w as [db clk fl uu].
    unfold RBACService_DeletePermission, gorm_Delete_RolePermission,
      gorm_Delete_Permission, tx_Commit, tx_Rollback, statement, with_tables.
    destruct fl as [|[] [|[] [|[] fl]]]; cbn;
      solve [left; split; reflexivity | right; split; [discriminate | reflexivity]].
  - intros F. destruct w as [db clk fl uu]. cbn in F. subst fl.
    split; reflexivity.
  - apply role_permissions_of_permission_deleted.
  - reflexivity.
  - intros Hno Hrp. unfold permission_deleted_db.
    rewrite (proj2 (filter_negb_eqb_spec Permission_ID permissionID _)).
    + rewrite (proj2 (filter_negb_eqb_spec RP_PermissionID permissionID _) Hrp).
      now destruct (tables w).
    + intros r Hr E. apply Hno. rewrite <- E. now apply in_map.
Qed.

(** ** What the users keep *)

Lemma GetUserRoles_nofault userID w :
  faults w = [] ->
  RBACService_GetUserRoles userID w =
  (match List.find (fun u => String.eqb (User_ID u) userID) (tbl_users (tables w)) with
   | Some u => Ok (map (Preload_Permissions (tables w))
                     (user_roles_of (tables w) (User_ID u)))
   | None => Err (Errorf "user not found" (Some ErrRecordNotFound))
   end, w).
Proof.
  intros F. unfold RBACService_GetUserRoles. rewrite (gorm_First_nofault _ _ w F).
  now destruct (List.find _ _).
Qed.

Lemma find_user_id userID (l : list User) u :
  List.find (fun u => String.eqb (User_ID u) userID) l = Some u -> User_ID u = userID.
Proof. intros E. apply find_some in E as [_ E]. now apply String.eqb_eq. Qed.

Lemma map_filter_swap {A B} (f f' : A -> B) (g : A -> bool) (g' : B -> bool)
    (l : list A) :
  (forall x, In x l -> g' (f x) = g x) ->
  (forall x, In x l -> g x = true -> f' x = f x) ->
  map f' (List.filter g l) = List.filter g' (map f l).
Proof.
  induction l as [|x l IH]; intros Hg Hf; [reflexivity|].
  cbn [map List.filter]. rewrite (Hg x (or_introl eq_refl)).
  assert (map f' (List.filter g l) = List.filter g' (map f l)) as E.
  { apply IH; intros y Hy; [apply Hg|apply Hf]; now right. }
  destruct (g x) eqn:Gx; [|exact E].
  cbn [map]. now rewrite E, (Hf x (or_introl eq_refl) Gx).
Qed.

Lemma user_roles_of_role_deleted db roleID userID :
  user_roles_of (role_deleted_db db roleID) userID =
  List.filter (fun r => negb (String.eqb (Role_ID r) roleID)) (user_roles_of db userID).
Proof.
  unfold user_roles_of, role_deleted_db. cbn [tbl_roles tbl_user_roles].
  apply filter_filter_swap. intros r _ Hr.
  apply existsb_filter_implied. intros ur _ Hc.
  apply andb_true_iff in Hc as [_ Hc]. apply String.eqb_eq in Hc.
  now rewrite Hc.
Qed.

Lemma role_permissions_of_role_deleted db roleID other :
  role_permissions_of (role_deleted_db db roleID) other =
  if String.eqb other roleID then [] else role_permissions_of db other.
Proof.
  unfold role_permissions_of, role_deleted_db. cbn [tbl_permissions tbl_role_permissions].
  destruct (String.eqb_spec other roleID) as [->|Hne].
  - apply filter_none. intros p _. apply existsb_false_iff. intros rp Hrp.
    apply filter_In in Hrp as [_ Hrp]. apply negb_true_iff in Hrp. now rewrite Hrp.
  - apply filter_ext_in. intros p _. apply existsb_filter_implied.
    intros rp _ Hc. apply andb_true_iff in Hc as [Hc _]. apply String.eqb_eq in Hc.
    rewrite Hc. apply negb_true_iff. now apply String.eqb_neq.
Qed.

(** X16.  After [DeleteRole] every user has the roles they had, except the
    deleted one, each with the permissions it had: the roles [GetUserRoles]
    returns for a user after a deletion that did not fail are those it
    returned before, without the role of the deleted id, and [GetUserRoles]
    fails after it exactly as it failed before. *)
Theorem DeleteRole_then_GetUserRoles (roleID userID : string) (w : World) :
  faults w = [] ->
  fst (RBACService_GetUserRoles userID (snd (RBACService_DeleteRole roleID w))) =
  match fst (RBACService_GetUserRoles userID w) with
  | Ok roles => Ok (List.filter (fun r => negb (String.eqb (Role_ID r) roleID)) roles)
  | Err e => Err e
  end.
Proof.
  intros F.
  assert (RBACService_DeleteRole roleID w =
          (None, with_tables (role_deleted_db (tables w) roleID) w)) as ->.
  { destruct w as [db clk fl uu]. cbn in F. subst fl. reflexivity. }
  cbn [snd]. rewrite !GetUserRoles_nofault by (cbn; exact F). cbn [fst with_tables tables].
  change (tbl_users (role_deleted_db (tables w) roleID)) with (tbl_users (tables w)).
  destruct (List.find _ (tbl_users (tables w))) as [u|]; [|reflexivity]. f_equal.
  rewrite user_roles_of_role_deleted. apply map_filter_swap.
  - reflexivity.
  - intros r _ Hr. unfold Preload_Permissions. f_equal.
    rewrite role_permissions_of_role_deleted.
    apply negb_true_iff in Hr. now rewrite Hr.
Qed.

(** Deleting the role practitioner leaves user [u1] the role admin. *)
Lemma DeleteRole_then_GetUserRoles_witness :
  fst (RBACService_GetUserRoles "u1"
         (snd (RBACService_DeleteRole "r1" (example_world example_db 0)))) =
  Ok [example_role "r2" "admin"].
Proof.
  rewrite (DeleteRole_then_GetUserRoles "r1" "u1" (example_world example_db 0) eq_refl).
  reflexivity.
Defined.

(** ** The permissions of a user *)

Lemma NoDup_map_inj {A B} (f : A -> B) (l : list A) a b :
  List.NoDup (map f l) -> In a l -> In b l -> f a = f b -> a = b.
Proof.
  induction l as [|x l IH]; intros Hnd Ha Hb E; [destruct Ha|].
  cbn [map] in Hnd. apply List.NoDup_cons_iff in Hnd as [Hx Hnd].
  destruct Ha as [->|Ha], Hb as [->|Hb].
  - reflexivity.
  - exfalso. apply Hx. rewrite E. now apply in_map.
  - exfalso. apply Hx. rewrite <- E. now apply in_map.
  - now apply IH.
Qed.

Lemma collect_roles (roles : list Role) m :
  fold_left (fun m role =>
    fold_left (fun m permission => <[Permission_ID permission := permission]> m)
      (Permissions role) m) roles m =
  collect (concat (map Permissions roles)) m.
Proof.
  revert m. induction roles as [|role roles IH]; intros m; [reflexivity|].
  cbn [fold_left map concat]. rewrite IH. unfold collect. now rewrite fold_left_app.
Qed.

Lemma collect_lookup ps : forall m k p,
  collect ps m !! k = Some p ->
  (In p ps /\ Permission_ID p = k) \/ m !! k = Some p.
Proof.
  induction ps as [|a ps IH]; intros m k p E; [now right|].
  cbn [collect fold_left] in E. apply IH in E as [[Hin Hk]|E].
  - left. split; [now right|exact Hk].
  - rewrite lookup_insert in E. case_decide as Hd.
    + injection E as <-. left. split; [now left|exact Hd].
    + now right.
Qed.

Lemma collect_keeps ps : forall m k p,
  m !! k = Some p -> exists p', collect ps m !! k = Some p'.
Proof.
  induction ps as [|a ps IH]; intros m k p E; [now exists p|].
  cbn [collect fold_left].
  destruct (decide (Permission_ID a = k)) as [<-|Hne].
  - apply (IH _ _ a). apply lookup_insert_eq.
  - apply (IH _ _ p). now rewrite lookup_insert_ne.
Qed.

Lemma collect_In ps : forall m p,
  In p ps -> exists p', collect ps m !! Permission_ID p = Some p'.
Proof.
  induction ps as [|a ps IH]; intros m p Hin; [destruct Hin|].
  destruct Hin as [->|Hin].
  - cbn [collect fold_left]. apply (collect_keeps ps _ _ p). apply lookup_insert_eq.
  - cbn [collect fold_left]. now apply IH.
Qed.

Lemma role_permissions_of_In db roleID p :
  In p (role_permissions_of db roleID) -> In p (tbl_permissions db).
Proof. intros Hin. now apply filter_In in Hin as [Hin _]. Qed.

Lemma In_concat_Permissions db (roles : list Role) p :
  In p (concat (map Permissions (map (Preload_Permissions db) roles))) <->
  exists role, In role roles /\ In p (role_permissions_of db (Role_ID role)).
Proof.
  rewrite in_concat. split.
  - intros (l & Hl & Hp). apply in_map_iff in Hl as (r & <- & Hr).
    apply in_map_iff in Hr as (role & <- & Hrole). now exists role.
  - intros (role & Hrole & Hp). exists (role_permissions_of db (Role_ID role)).
    split; [|exact Hp]. apply in_map_iff. exists (Preload_Permissions db role).
    split; [reflexivity|]. now apply in_map.
Qed.

Section UserPermissions.
Variable range : gmap string Permission -> list (string * Permission).
Hypothesis range_order : RangeOrder range.

Lemma range_In m k p : In (k, p) (range m) <-> m !! k = Some p.
Proof.
  rewrite <- elem_of_map_to_list, list_elem_of_In. split; apply Permutation_in.
  - apply range_order.
  - symmetry. apply range_order.
Qed.

Lemma range_NoDup m : List.NoDup (map fst (range m)).
Proof.
  apply (Permutation_NoDup (l := map fst (map_to_list m))).
  - symmetry. apply Permutation_map, range_order.
  - apply NoDup_ListNoDup, NoDup_fst_map_to_list.
Qed.

Lemma GetUserPermissions_nofault userID w :
  faults w = [] ->
  RBACService_GetUserPermissions range userID w =
  (match List.find (fun u => String.eqb (User_ID u) userID) (tbl_users (tables w)) with
   | Some u =>
       Ok (map snd (range (collect
             (concat (map Permissions
                (map (Preload_Permissions (tables w))
                   (user_roles_of (tables w) (User_ID u))))) ∅)))
   | None => Err (Errorf "user not found" (Some ErrRecordNotFound))
   end, w).
Proof.
  intros F. unfold RBACService_GetUserPermissions.
  rewrite (GetUserRoles_nofault userID w F).
  destruct (List.find _ _); [|reflexivity]. now rewrite collect_roles.
Qed.

Lemma range_collect_members ps p :
  In p (map snd (range (collect ps ∅))) -> In p ps.
Proof.
  intros Hp. apply in_map_iff in Hp as ([k p'] & <- & Hkp).
  apply range_In, collect_lookup in Hkp as [[Hkp _]|Hkp]; [exact Hkp|].
  rewrite lookup_empty in Hkp. discriminate Hkp.
Qed.

Lemma range_collect_NoDup ps :
  List.NoDup (map Permission_ID (map snd (range (collect ps ∅)))).
Proof.
  rewrite map_map.
  erewrite map_ext_in; [apply (range_NoDup (collect ps ∅))|].
  intros [k p] Hkp. cbn.
  apply range_In, collect_lookup in Hkp as [[_ Hkp]|Hkp]; [exact Hkp|].
  rewrite lookup_empty in Hkp. discriminate Hkp.
Qed.

Lemma range_collect_complete (perms ps : list Permission) p :
  List.NoDup (map Permission_ID perms) ->
  (forall q, In q ps -> In q perms) ->
  In p ps -> In p (map snd (range (collect ps ∅))).
Proof.
  intros Hpk Hps Hp. destruct (collect_In ps ∅ p Hp) as (p' & E).
  assert (p' = p) as ->.
  { destruct (collect_lookup ps ∅ _ _ E) as [[Hp' Ek]|C];
      [|rewrite lookup_empty in C; discriminate C].
    apply (NoDup_map_inj Permission_ID perms); auto. }
  apply in_map_iff. exists (Permission_ID p, p). split; [reflexivity|].
  now apply range_In.
Qed.

Lemma loaded_permissions_In db userID p :
  In p (concat (map Permissions
          (map (Preload_Permissions db) (user_roles_of db userID)))) ->
  In p (tbl_permissions db).
Proof.
  intros Hp. apply In_concat_Permissions in Hp as (role & _ & Hp).
  now apply role_permissions_of_In in Hp.
Qed.

(** X17.  [GetUserPermissions] returns, for a user of the store, the
    permissions of the user's roles, each once, whatever the order in which
    the map is read back; for an unknown user it fails as [GetUserRoles]
    does. *)
Theorem GetUserPermissions_spec (userID : string) (w : World) :
  faults w = [] ->
  List.NoDup (map Permission_ID (tbl_permissions (tables w))) ->
  let db := tables w in
  (In userID (map User_ID (tbl_users db)) ->
   exists userPermissions,
     fst (RBACService_GetUserPermissions range userID w) = Ok userPermissions /\
     List.NoDup (map Permission_ID userPermissions) /\
     (forall p, In p userPermissions <->
        exists role, In role (user_roles_of db userID) /\
                     In p (role_permissions_of db (Role_ID role)))) /\
  (~ In userID (map User_ID (tbl_users db)) ->
   fst (RBACService_GetUserPermissions range userID w) =
     Err (Errorf "user not found" (Some ErrRecordNotFound))) /\
  snd (RBACService_GetUserPermissions range userID w) = w.
Proof.
  intros F Hpk db. rewrite (GetUserPermissions_nofault userID w F). fold db.
  split; [|split; [|reflexivity]].
  - intros Hin. apply find_eqb_Some in Hin as (u & -> & Eid & _). rewrite Eid.
    eexists. split; [reflexivity|]. split; [apply range_collect_NoDup|].
    intros p. rewrite <- In_concat_Permissions. split.
    + apply range_collect_members.
    + apply (range_collect_complete (tbl_permissions db)); [exact Hpk|].
      intros q. apply loaded_permissions_In.
  - intros Hno. now rewrite (find_eqb_None User_ID userID _ Hno).
Qed.

Lemma HasPermission_loaded
    (userID resource action : string) (w : World) (u : User) :
  faults w = [] ->
  List.NoDup (map Permission_ID (tbl_permissions (tables w))) ->
  List.find (fun u => String.eqb (User_ID u) userID) (tbl_users (tables w)) = Some u ->
  RBACService_HasPermission range userID resource action w =
    (Ok (User_HasPermission (Preload_Roles_Permissions (tables w) u) resource action), w).
Proof.
  intros F Hpk Hu. unfold RBACService_HasPermission.
  rewrite (GetUserPermissions_nofault userID w F), Hu. f_equal. f_equal.
  apply eq_true_iff_eq. unfold User_HasPermission, Preload_Roles_Permissions.
  cbn [User_Roles set_Roles]. rewrite !existsb_exists. split.
  - intros (p & Hp & Hc). apply range_collect_members in Hp.
    apply in_concat in Hp as (l & Hl & Hp). apply in_map_iff in Hl as (r & <- & Hr).
    exists r. split; [exact Hr|]. apply existsb_exists. now exists p.
  - intros (r & Hr & Hc). apply existsb_exists in Hc as (p & Hp & Hc).
    exists p. split; [|exact Hc].
    apply (range_collect_complete (tbl_permissions (tables w))); [exact Hpk| |].
    + intros q. apply loaded_permissions_In.
    + apply in_concat. exists (Permissions r). split; [now apply in_map|exact Hp].
Qed.

(** X18.  The check against the store and the check on a loaded user agree:
    [RBACService.HasPermission] answers for a user of the store what
    [User.HasPermission] answers on the user's row loaded with roles and
    permissions, whatever the order in which the map is read back; for an
    unknown user it fails as [GetUserRoles] does. *)
Theorem HasPermission_agrees_with_User_HasPermission
    (userID resource action : string) (w : World) :
  faults w = [] ->
  List.NoDup (map Permission_ID (tbl_permissions (tables w))) ->
  let found := List.find (fun u => String.eqb (User_ID u) userID)
                 (tbl_users (tables w)) in
  (forall u, found = Some u ->
     RBACService_HasPermission range userID resource action w =
       (Ok (User_HasPermission (Preload_Roles_Permissions (tables w) u) resource action),
        w)) /\
  (found = None ->
   RBACService_HasPermission range userID resource action w =
     (Err (Errorf "user not found" (Some ErrRecordNotFound)), w)).
Proof.
  intros F Hpk found. split.
  - intros u Hu. now apply HasPermission_loaded.
  - intros Hnone. unfold RBACService_HasPermission.
    rewrite (GetUserPermissions_nofault userID w F). fold found. now rewrite Hnone.
Qed.

End UserPermissions.

(** On the example store, user [u1] may read patients and may not
    delete them. *)
Lemma GetUserPermissions_spec_witness :
  exists userPermissions,
    fst (RBACService_GetUserPermissions map_to_list "u1" (example_world example_db 0)) =
      Ok userPermissions /\
    forall p, In p userPermissions <->
      exists role, In role (user_roles_of example_db "u1") /\
                   In p (role_permissions_of example_db (Role_ID role)).
Proof.
  assert (RangeOrder map_to_list) as Hrange by (intros m; reflexivity).
  destruct (GetUserPermissions_spec map_to_list Hrange "u1"
              (example_world example_db 0) eq_refl) as (Hok & _).
  { apply (permissions_pk _ example_db_constraints). }
  destruct Hok as (ups & E & _ & Hin); [cbn; now left|].
  exists ups. split; [exact E|exact Hin].
Defined.

Lemma HasPermission_agrees_with_User_HasPermission_witness :
  fst (RBACService_HasPermission map_to_list "u1" "patients" "read"
         (example_world example_db 0)) = Ok true /\
  fst (RBACService_HasPermission map_to_list "u1" "patients" "delete"
         (example_world example_db 0)) = Ok false /\
  fst (RBACService_HasPermission map_to_list "u9" "patients" "read"
         (example_world example_db 0)) =
    Err (Errorf "user not found" (Some ErrRecordNotFound)).
Proof.
  assert (RangeOrder map_to_list) as Hrange by (intros m; reflexivity).
  pose proof (permissions_pk _ example_db_constraints) as Hpk.
  split; [|split].
  - destruct (HasPermission_agrees_with_User_HasPermission map_to_list Hrange
                "u1" "patients" "read" (example_world example_db 0) eq_refl Hpk)
      as [Hfound _].
    rewrite (Hfound example_user eq_refl). reflexivity.
  - destruct (HasPermission_agrees_with_User_HasPermission map_to_list Hrange
                "u1" "patients" "delete" (example_world example_db 0) eq_refl Hpk)
      as [Hfound _].
    rewrite (Hfound example_user eq_refl). reflexivity.
  - destruct (HasPermission_agrees_with_User_HasPermission map_to_list Hrange
                "u9" "patients" "read" (example_world example_db 0) eq_refl Hpk)
      as [_ Hnone].
    rewrite (Hnone eq_refl). reflexivity.
Defined.

(** ** Assignments and the roles of a user *)

Lemma filter_andb {T} (f g : T -> bool) (l : list T) :
  List.filter (fun x => g x && f x) l = List.filter g (List.filter f l).
Proof.
  induction l as [|x l IH]; [reflexivity|]. cbn [List.filter].
  destruct (f x), (g x) eqn:Gx; cbn [andb List.filter]; rewrite ?Gx, IH; reflexivity.
Qed.

Lemma user_roles_of_assigned db assignment userID :
  user_roles_of (assigned_db db assignment) userID =
  List.filter (fun r =>
    existsb (fun ur => String.eqb (UR_UserID ur) userID &&
                       String.eqb (UR_RoleID ur) (Role_ID r)) (tbl_user_roles db) ||
    (String.eqb (UR_UserID assignment) userID &&
     String.eqb (UR_RoleID assignment) (Role_ID r))) (tbl_roles db).
Proof.
  unfold user_roles_of, assigned_db. cbn [tbl_roles tbl_user_roles].
  apply filter_ext_in. intros r _. rewrite existsb_app. cbn [existsb].
  now rewrite orb_false_r.
Qed.

Lemma user_roles_of_unassigned db userID roleID other :
  user_roles_of (unassigned_db db userID roleID) other =
  if String.eqb other userID
  then List.filter (fun r => negb (String.eqb (Role_ID r) roleID)) (user_roles_of db other)
  else user_roles_of db other.
Proof.
  unfold user_roles_of, unassigned_db. cbn [tbl_roles tbl_user_roles].
  destruct (String.eqb_spec other userID) as [->|Hne].
  - rewrite <- filter_andb. apply filter_ext_in. intros r _.
    destruct (String.eqb_spec (Role_ID r) roleID) as [E|Hr]; cbn [negb andb].
    + apply existsb_false_iff. intros ur Hur. apply filter_In in Hur as [_ Hur].
      apply negb_true_iff in Hur. now rewrite E.
    + apply existsb_filter_implied. intros ur _ Hc.
      apply andb_true_iff in Hc as [_ Hc]. apply String.eqb_eq in Hc.
      apply negb_true_iff, andb_false_iff. right. rewrite Hc. now apply String.eqb_neq.
  - apply filter_ext_in. intros r _. apply existsb_filter_implied.
    intros ur _ Hc. apply andb_true_iff in Hc as [Hc _]. apply String.eqb_eq in Hc.
    rewrite Hc. apply negb_true_iff, andb_false_iff. left. now apply String.eqb_neq.
Qed.

Lemma HasRole_nofault userID roleName w :
  faults w = [] ->
  RBACService_HasRole userID roleName w =
  (match fst (RBACService_GetUserRoles userID w) with
   | Ok roles => Ok (existsb (fun role => String.eqb (Role_Name role) roleName) roles)
   | Err err => Err err
   end, w).
Proof.
  intros F. unfold RBACService_HasRole. rewrite (GetUserRoles_nofault userID w F).
  cbn [fst]. now destruct (List.find _ _).
Qed.

(** X19.  An assignment is seen by the next reading of the store: after
    [AssignRoleToUser] returned [nil], [GetUserRoles] returns for the user
    the roles it returned before and the role of the given id, [HasRole]
    finds that role by its name, and the roles of every other user are what
    they were. *)
Theorem AssignRoleToUser_then_GetUserRoles (userID roleID grantedBy : string)
    (w w' : World) :
  faults w = [] ->
  RBACService_AssignRoleToUser userID roleID grantedBy w = (None, w') ->
  let db := tables w in
  exists roles roles',
    fst (RBACService_GetUserRoles userID w) = Ok roles /\
    fst (RBACService_GetUserRoles userID w') = Ok roles' /\
    (forall role, In role roles' <->
       In role roles \/
       (In role (map (Preload_Permissions db) (tbl_roles db)) /\ Role_ID role = roleID)) /\
    (exists role, In role roles' /\ Role_ID role = roleID /\
       fst (RBACService_HasRole userID (Role_Name role) w') = Ok true) /\
    (forall other, other <> userID ->
       fst (RBACService_GetUserRoles other w') = fst (RBACService_GetUserRoles other w)).
Proof.
  intros F Hassign db. rewrite (AssignRoleToUser_nofault _ _ _ w F) in Hassign.
  cbv zeta in Hassign. fold db in Hassign.
  destruct (List.find _ (tbl_users db)) as [u|] eqn:Eu; [|discriminate Hassign].
  destruct (List.find _ (tbl_roles db)) as [r|] eqn:Er; [|discriminate Hassign].
  destruct (existsb _ (tbl_user_roles db)) eqn:Ex; [discriminate Hassign|].
  injection Hassign as <-.
  set (a := {| UR_UserID := userID; UR_RoleID := roleID; GrantedBy := grantedBy;
               GrantedAt := clock w |}).
  assert (F' : faults (with_tables (assigned_db db a) w) = []) by exact F.
  assert (Hroles' : forall other,
    fst (RBACService_GetUserRoles other (with_tables (assigned_db db a) w)) =
    match List.find (fun u => String.eqb (User_ID u) other) (tbl_users db) with
    | Some u => Ok (map (Preload_Permissions db)
                      (user_roles_of (assigned_db db a) (User_ID u)))
    | None => Err (Errorf "user not found" (Some ErrRecordNotFound))
    end).
  { intros other. rewrite (GetUserRoles_nofault other _ F'). reflexivity. }
  pose proof (find_user_id _ _ _ Eu) as Eid.
  apply find_some in Er as [Hr Erid]. apply String.eqb_eq in Erid.
  assert (Hin' : forall role,
    In role (user_roles_of (assigned_db db a) userID) <->
    In role (user_roles_of db userID) \/ (In role (tbl_roles db) /\ Role_ID role = roleID)).
  { intros role. rewrite user_roles_of_assigned. unfold user_roles_of.
    rewrite !filter_In, orb_true_iff. cbn [a UR_UserID UR_RoleID].
    rewrite String.eqb_refl. cbn [andb]. rewrite String.eqb_eq.
    split; [intros (H1 & [H2|H2])|intros [(H1 & H2)|(H1 & H2)]]; auto. }
  exists (map (Preload_Permissions db) (user_roles_of db userID)),
         (map (Preload_Permissions db) (user_roles_of (assigned_db db a) userID)).
  split; [|split; [|split; [|split]]].
  - rewrite (GetUserRoles_nofault userID w F). fold db. now rewrite Eu, Eid.
  - now rewrite Hroles', Eu, Eid.
  - intros role. rewrite !in_map_iff. split.
    + intros (x & <- & Hx). apply Hin' in Hx as [Hx|(Hx & Ex')].
      * left. now exists x.
      * right. split; [now exists x|exact Ex'].
    + intros [(x & <- & Hx)|((x & <- & Hx) & Ex')].
      * exists x. split; [reflexivity|]. apply Hin'. now left.
      * exists x. split; [reflexivity|]. apply Hin'. now right.
  - exists (Preload_Permissions db r). split; [|split; [exact Erid|]].
    + apply in_map, Hin'. now right.
    + rewrite (HasRole_nofault _ _ _ F'), Hroles', Eu, Eid. cbn [fst]. f_equal.
      apply existsb_exists. exists (Preload_Permissions db r).
      split; [apply in_map, Hin'; now right|apply String.eqb_refl].
  - intros other Hother. rewrite Hroles', (GetUserRoles_nofault other w F). fold db.
    cbn [fst].
    destruct (List.find (fun u => String.eqb (User_ID u) other) (tbl_users db))
      as [u'|] eqn:Eu'; [|reflexivity].
    f_equal. f_equal. rewrite user_roles_of_assigned. unfold user_roles_of.
    apply filter_ext_in. intros role _. cbn [a UR_UserID].
    rewrite (find_user_id _ _ _ Eu').
    destruct (String.eqb_spec userID other) as [E|_]; [now destruct Hother|].
    now rewrite orb_false_r.
Qed.

(** Giving user [u2] the role admin on a store with that user. *)
Lemma AssignRoleToUser_then_GetUserRoles_witness :
  let db := {| tbl_users := [example_user; set_Roles
                               {| User_ID := "u2"; User_Email := "pat@example.org";
                                  Password := ""; FirstName := "Pat"; LastName := "Doe";
                                  User_Roles := []; Active := true; LastLogin := None;
                                  User_CreatedAt := 0; User_UpdatedAt := 0;
                                  CreatedBy := "" |} []];
               tbl_roles := tbl_roles example_db;
               tbl_permissions := tbl_permissions example_db;
               tbl_user_roles := tbl_user_roles example_db;
               tbl_role_permissions := tbl_role_permissions example_db |} in
  exists roles',
    fst (RBACService_GetUserRoles "u2"
           (snd (RBACService_AssignRoleToUser "u2" "r2" "root" (example_world db 0)))) =
      Ok roles' /\
    map Role_Name roles' = ["admin"].
Proof.
  intros db.
  destruct (AssignRoleToUser_then_GetUserRoles "u2" "r2" "root" (example_world db 0)
              (snd (RBACService_AssignRoleToUser "u2" "r2" "root" (example_world db 0)))
              eq_refl eq_refl) as (roles & roles' & _ & E & _).
  exists roles'. split; [exact E|].
  vm_compute in E. injection E as <-. reflexivity.
Defined.

(** X20.  Taking a role from a user is seen by the next reading of the
    store: after [RemoveRoleFromUser] returned [nil], [GetUserRoles] returns
    for the user the roles it returned before without the role of the given
    id (and fails as before for a user that is no row), the roles of every
    other user are what they were, and, where role names are unique,
    [HasRole] no longer finds the role by its name. *)
Theorem RemoveRoleFromUser_then_GetUserRoles (userID roleID : string) (w w' : World) :
  faults w = [] ->
  RBACService_RemoveRoleFromUser userID roleID w = (None, w') ->
  let db := tables w in
  fst (RBACService_GetUserRoles userID w') =
    match fst (RBACService_GetUserRoles userID w) with
    | Ok roles => Ok (List.filter (fun r => negb (String.eqb (Role_ID r) roleID)) roles)
    | Err err => Err err
    end /\
  (forall other, other <> userID ->
     fst (RBACService_GetUserRoles other w') = fst (RBACService_GetUserRoles other w)) /\
  (In userID (map User_ID (tbl_users db)) ->
   List.NoDup (map Role_Name (tbl_roles db)) ->
   forall role, In role (tbl_roles db) -> Role_ID role = roleID ->
     fst (RBACService_HasRole userID (Role_Name role) w') = Ok false).
Proof.
  intros F Hremove db. rewrite (RemoveRoleFromUser_nofault _ _ w F) in Hremove.
  cbv zeta in Hremove. fold db in Hremove.
  destruct (existsb _ (tbl_user_roles db)) eqn:Ex; [|discriminate Hremove].
  injection Hremove as <-.
  assert (F' : faults (with_tables (unassigned_db db userID roleID) w) = []) by exact F.
  assert (Hroles' : forall other,
    fst (RBACService_GetUserRoles other
           (with_tables (unassigned_db db userID roleID) w)) =
    match List.find (fun u => String.eqb (User_ID u) other) (tbl_users db) with
    | Some u => Ok (map (Preload_Permissions db)
                      (user_roles_of (unassigned_db db userID roleID) (User_ID u)))
    | None => Err (Errorf "user not found" (Some ErrRecordNotFound))
    end).
  { intros other. rewrite (GetUserRoles_nofault other _ F'). reflexivity. }
  assert (Hmine : forall u,
    List.find (fun u => String.eqb (User_ID u) userID) (tbl_users db) = Some u ->
    map (Preload_Permissions db)
      (user_roles_of (unassigned_db db userID roleID) (User_ID u)) =
    List.filter (fun r => negb (String.eqb (Role_ID r) roleID))
      (map (Preload_Permissions db) (user_roles_of db (User_ID u)))).
  { intros u Eu. rewrite (find_user_id _ _ _ Eu), user_roles_of_unassigned,
      String.eqb_refl.
    apply map_filter_swap; reflexivity. }
  split; [|split].
  - rewrite Hroles', (GetUserRoles_nofault userID w F). fold db. cbn [fst].
    destruct (List.find (fun u => String.eqb (User_ID u) userID) (tbl_users db))
      as [u|] eqn:Eu; [|reflexivity].
    f_equal. now apply Hmine.
  - intros other Hother. rewrite Hroles', (GetUserRoles_nofault other w F). fold db.
    cbn [fst].
    destruct (List.find (fun u => String.eqb (User_ID u) other) (tbl_users db))
      as [u|] eqn:Eu; [|reflexivity].
    rewrite user_roles_of_unassigned, (find_user_id _ _ _ Eu).
    destruct (String.eqb_spec other userID) as [E|_]; [now destruct Hother|reflexivity].
  - intros Hin Hnames role Hrole Erid.
    rewrite (HasRole_nofault _ _ _ F'), Hroles'. cbn [fst].
    apply find_eqb_Some in Hin as (u & Eu & _). rewrite Eu, (Hmine u Eu). f_equal.
    apply existsb_false_iff. intros r Hr. apply filter_In in Hr as [Hr Hne].
    apply in_map_iff in Hr as (x & <- & Hx). cbn [Preload_Permissions set_Permissions
      Role_Name Role_ID] in *.
    apply String.eqb_neq. intros Ename.
    apply filter_In in Hx as [Hx _].
    assert (x = role) as -> by (apply (NoDup_map_inj Role_Name (tbl_roles db)); auto).
    apply negb_true_iff, String.eqb_neq in Hne. now apply Hne.
Qed.

(** Taking the role practitioner from user [u1] leaves the role admin. *)
Lemma RemoveRoleFromUser_then_GetUserRoles_witness :
  fst (RBACService_GetUserRoles "u1"
         (snd (RBACService_RemoveRoleFromUser "u1" "r1" (example_world example_db 0)))) =
    Ok [example_role "r2" "admin"] /\
  fst (RBACService_HasRole "u1" "practitioner"
         (snd (RBACService_RemoveRoleFromUser "u1" "r1" (example_world example_db 0)))) =
    Ok false.
Proof.
  destruct (RemoveRoleFromUser_then_GetUserRoles "u1" "r1" (example_world example_db 0)
              (snd (RBACService_RemoveRoleFromUser "u1" "r1"
                      (example_world example_db 0))) eq_refl eq_refl)
    as (E & _ & Hhas).
  split; [rewrite E; reflexivity|].
  apply (Hhas ltac:(cbn; now left) (roles_name _ example_db_constraints)
           (example_role "r1" "practitioner")); [cbn; now left|reflexivity].
Defined.

(** ** The three role checks *)

Lemma existsb_map {A B} (f : A -> B) (p : B -> bool) (l : list A) :
  existsb p (map f l) = existsb (fun x => p (f x)) l.
Proof. induction l as [|x l IH]; [reflexivity|]. cbn. now rewrite IH. Qed.

(** X21.  The role checks agree: for a user of the store,
    [RBACService.HasRole] answers what [User.HasRole] answers on the user's
    row loaded with its roles, which is whether the name is among
    [User.GetRoleNames]; and the claims of a token issued with these role
    names answer the same to [Claims.HasRole]. *)
Theorem role_checks_agree (userID roleName : string) (w : World) (u : User)
    (claims : Claims) :
  faults w = [] ->
  List.find (fun u => String.eqb (User_ID u) userID) (tbl_users (tables w)) = Some u ->
  Roles claims = User_GetRoleNames (Preload_Roles (tables w) u) ->
  let loaded := Preload_Roles (tables w) u in
  RBACService_HasRole userID roleName w = (Ok (User_HasRole loaded roleName), w) /\
  Claims_HasRole claims roleName = User_HasRole loaded roleName /\
  (User_HasRole loaded roleName = true <-> In roleName (User_GetRoleNames loaded)).
Proof.
  intros F Eu Hroles loaded.
  assert (Hnames : User_HasRole loaded roleName = true <->
                   In roleName (User_GetRoleNames loaded)).
  { unfold User_HasRole, User_GetRoleNames. rewrite existsb_exists, in_map_iff.
    split; intros (r & H1 & H2).
    - apply String.eqb_eq in H2. now exists r.
    - exists r. split; [exact H2|]. now apply String.eqb_eq. }
  split; [|split; [|exact Hnames]].
  - rewrite (HasRole_nofault _ _ _ F), (GetUserRoles_nofault _ _ F), Eu. cbn [fst].
    f_equal. f_equal. rewrite existsb_map. reflexivity.
  - apply eq_true_iff_eq. rewrite Claims_HasRole_In, Hroles. symmetry. exact Hnames.
Qed.

(** User [u1] of the example store and the claims of a token with the
    user's two roles. *)
Lemma role_checks_agree_witness :
  let claims := TokenManager_claims example_tm (Time_Add 0 (24 * Hour)) 0 0
                  "u1" "doc@example.org" ["practitioner"; "admin"] in
  RBACService_HasRole "u1" "admin" (example_world example_db 0) =
    (Ok true, example_world example_db 0) /\
  Claims_HasRole claims "admin" = true /\
  Claims_HasRole claims "nurse" = false.
Proof.
  intros claims.
  destruct (role_checks_agree "u1" "admin" (example_world example_db 0) example_user
              claims eq_refl eq_refl eq_refl) as (E1 & E2 & _).
  destruct (role_checks_agree "u1" "nurse" (example_world example_db 0) example_user
              claims eq_refl eq_refl eq_refl) as (_ & E3 & _).
  split; [exact E1|]. split; [exact E2|exact E3].
Defined.

(** ** Logging in *)

Section LoginProperties.
Context `{Wire} `{Bcrypt}.

Lemma User_CheckPassword_None_iff (u : User) (password : string) :
  User_CheckPassword u password = None <-> PasswordMatches (Password u) password.
Proof.
  unfold User_CheckPassword, CompareHashAndPassword, PasswordMatches.
  destruct (newFromHash (Password u)) as [p|e].
  - destruct (bcrypt_digest password (h_cost p) (h_salt p)) as [o|e] eqn:E.
    + destruct (String.eqb_spec (h_hash p) o) as [Eo|Hne].
      * subst o. split; [intros _; now exists p | reflexivity].
      * split; [discriminate|]. intros (p' & [= <-] & E'). congruence.
    + split; [discriminate|]. intros (p' & [= <-] & E'). congruence.
  - split; [discriminate|]. intros (p' & E' & _). discriminate.
Qed.

Lemma gorm_Update_last_login_tables user now w :
  tables (gorm_Update_last_login user now w) = tables w \/
  tables (gorm_Update_last_login user now w) = logged_in_db (tables w) (User_ID user) now.
Proof.
  unfold gorm_Update_last_login. destruct (String.eqb (User_ID user) ""); [now left|].
  destruct (statement w) as [failed w1] eqn:S. apply statement_keeps in S as (Et & _).
  destruct failed; [now left|]. right. cbn. now rewrite Et.
Qed.

Lemma gorm_Update_last_login_nofault user now w :
  faults w = [] ->
  gorm_Update_last_login user now w =
  if String.eqb (User_ID user) "" then w
  else with_tables (logged_in_db (tables w) (User_ID user) now) w.
Proof.
  intros F. unfold gorm_Update_last_login. now rewrite (statement_nofault w F).
Qed.

Lemma gorm_Update_last_login_clock user now w :
  clock (gorm_Update_last_login user now w) = clock w.
Proof.
  unfold gorm_Update_last_login. destruct (String.eqb (User_ID user) ""); [reflexivity|].
  destruct (statement w) as [failed w1] eqn:S. apply statement_keeps in S as (_ & Ec & _).
  now destruct failed.
Qed.

(** X22.  [Login] answers every request with one response.  It answers with
    a token only for a request that was bound and validated, and whose
    e-mail is that of an active user of the store whose stored hash is the
    hash of the password of the request; the token is for that user, and the
    store then is the old one, or the old one with the time of the login
    written to the rows with the user's id.  Every other answer is an error
    with status 400, 401 or 500 and leaves the store as it was.  This holds
    whichever statements fail in the storage layer. *)
Theorem Login_admits_only_with_credentials (h : AuthHandler)
    (validate : AuthRequest -> option string) (bound : result string AuthRequest)
    (c : Context) (w : World) :
  let out := AuthHandler_Login h validate bound c w in
  exists status body,
    fst out = Context_JSON status body c /\
    match body with
    | AuthResponseBody response =>
        status = StatusOK /\
        exists req user,
          bound = Ok req /\ validate req = None /\
          In user (tbl_users (tables w)) /\
          User_Email user = Req_Email req /\ Active user = true /\
          PasswordMatches (Password user) (Req_Password req) /\
          UI_ID (AR_User response) = User_ID user /\
          (tables (snd out) = tables w \/
           tables (snd out) = logged_in_db (tables w) (User_ID user) (clock w))
    | ErrorResponse _ _ _ =>
        In status [StatusBadRequest; StatusUnauthorized; StatusInternalServerError] /\
        tables (snd out) = tables w
    | H _ => False
    end.
Proof.
  intros out. subst out. unfold AuthHandler_Login.
  destruct bound as [req|message];
    [|eexists _, _; split; [reflexivity|]; cbn; auto].
  destruct (validate req) as [message|] eqn:Ev;
    [eexists _, _; split; [reflexivity|]; cbn; auto|].
  unfold gorm_First. destruct (statement w) as [failed w1] eqn:S.
  apply statement_keeps in S as (Et & Ec & _).
  destruct failed; [eexists _, _; split; [reflexivity|]; cbn; auto|].
  rewrite Et. destruct (List.find _ (tbl_users (tables w))) as [user|] eqn:Efind;
    [|eexists _, _; split; [reflexivity|]; cbn; auto].
  apply find_some in Efind as [Hin Hcond]. apply andb_true_iff in Hcond as [He Ha].
  apply String.eqb_eq in He. apply Bool.eqb_prop in Ha.
  destruct (User_CheckPassword _ (Req_Password req)) as [err|] eqn:Ecp;
    [eexists _, _; split; [reflexivity|]; cbn; auto|].
  apply User_CheckPassword_None_iff in Ecp. cbn [Preload_Roles set_Roles Password] in Ecp.
  cbv zeta. unfold TokenManager_GenerateToken.
  eexists _, _. split; [reflexivity|]. cbn [AR_User UI_ID fst snd].
  split; [reflexivity|]. exists req, user. repeat (split; [assumption || reflexivity|]).
  rewrite <- Et, <- Ec.
  exact (gorm_Update_last_login_tables (Preload_Roles (tables w1) user) (clock w1) w1).
Qed.

(** X23.  Without storage failures [Login] refuses alike, with the one
    response 401 [INVALID_CREDENTIALS] and without a change to the store, a
    request whose e-mail is of no user, a request whose e-mail is of users
    that are not active only, and a request with a password the stored hash
    is not the hash of. *)
Theorem Login_refuses_alike (h : AuthHandler) (validate : AuthRequest -> option string)
    (req : AuthRequest) (c : Context) (w : World) :
  validate req = None ->
  faults w = [] ->
  let found := List.find (fun u => String.eqb (User_Email u) (Req_Email req) &&
                                   Bool.eqb (Active u) true) (tbl_users (tables w)) in
  let refusal := (Context_JSON StatusUnauthorized
                    (ErrorResponse "Invalid credentials" "" "INVALID_CREDENTIALS") c, w) in
  (found = None <->
   forall u, In u (tbl_users (tables w)) -> User_Email u = Req_Email req ->
             Active u = false) /\
  (found = None -> AuthHandler_Login h validate (Ok req) c w = refusal) /\
  (forall user, found = Some user ->
     ~ PasswordMatches (Password user) (Req_Password req) ->
     AuthHandler_Login h validate (Ok req) c w = refusal).
Proof.
  intros Ev F found refusal. split; [|split].
  - subst found. split.
    + intros Enone u Hin He. destruct (Active u) eqn:Ha; [|reflexivity].
      apply (find_none _ _ Enone) in Hin.
      now rewrite He, String.eqb_refl, Ha in Hin.
    + intros Hall. destruct (List.find _ _) as [u|] eqn:E; [|reflexivity].
      apply find_some in E as [Hin Hc]. apply andb_true_iff in Hc as [He Ha].
      apply String.eqb_eq in He. apply Bool.eqb_prop in Ha.
      rewrite (Hall u Hin He) in Ha. discriminate Ha.
  - intros Enone. unfold AuthHandler_Login. rewrite Ev, (gorm_First_nofault _ _ _ F).
    fold found. now rewrite Enone.
  - intros user Esome Hno. unfold AuthHandler_Login.
    rewrite Ev, (gorm_First_nofault _ _ _ F). fold found. rewrite Esome.
    destruct (User_CheckPassword _ (Req_Password req)) as [err|] eqn:Ecp; [reflexivity|].
    apply User_CheckPassword_None_iff in Ecp. now destruct Hno.
Qed.

(** X24.  Without storage failures [Login] admits an active user who gives
    the password of the stored hash: it answers 200 with a token that
    expires in 24 hours, that [ValidateToken] accepts at once and that
    carries the user's id, e-mail and the names of the roles the store holds
    for the user; [AuthMiddleware] accepts a request that bears it and puts
    the user's identity into the context; and the store is the old one with
    the time of the login written to the user's row. *)
Theorem Login_issues_valid_token (h : AuthHandler)
    (validate : AuthRequest -> option string) (req : AuthRequest)
    (c : Context) (w : World) (user : User) :
  validate req = None ->
  faults w = [] ->
  List.find (fun u => String.eqb (User_Email u) (Req_Email req) &&
                      Bool.eqb (Active u) true) (tbl_users (tables w)) = Some user ->
  PasswordMatches (Password user) (Req_Password req) ->
  let roleNames := map Role_Name (user_roles_of (tables w) (User_ID user)) in
  WireRoundTrip (secretKey (tokenManager h))
    (TokenManager_claims (tokenManager h) (Time_Add (clock w) (24 * Hour))
       (clock w) (clock w) (User_ID user) (User_Email user) roleNames) ->
  let out := AuthHandler_Login h validate (Ok req) c w in
  exists response claims,
    fst out = Context_JSON StatusOK (AuthResponseBody response) c /\
    AR_ExpiresAt response = Time_Add (clock w) (24 * Hour) /\
    UI_Roles (AR_User response) = roleNames /\
    TokenManager_ValidateToken (tokenManager h) (clock w) (AR_Token response) =
      Ok claims /\
    UserID claims = User_ID user /\ Email claims = User_Email user /\
    Roles claims = roleNames /\
    (forall request,
       Context_GetHeader request "Authorization" = "Bearer " +:+ AR_Token response ->
       GetUserID (AuthMiddleware (tokenManager h) (clock w) request) =
         Some (User_ID user) /\
       GetUserRoles (AuthMiddleware (tokenManager h) (clock w) request) =
         Some roleNames /\
       Aborted (AuthMiddleware (tokenManager h) (clock w) request) = Aborted request) /\
    snd out =
      (if String.eqb (User_ID user) "" then w
       else with_tables (logged_in_db (tables w) (User_ID user) (clock w)) w).
Proof.
  intros Ev F Efind Hpw roleNames RT out. subst out. unfold AuthHandler_Login.
  rewrite Ev, (gorm_First_nofault _ _ _ F), Efind.
  apply User_CheckPassword_None_iff in Hpw.
  change (User_CheckPassword (Preload_Roles (tables w) user) (Req_Password req))
    with (User_CheckPassword user (Req_Password req)).
  rewrite Hpw. cbv zeta. unfold TokenManager_GenerateToken.
  rewrite gorm_Update_last_login_clock.
  change (User_GetRoleNames (Preload_Roles (tables w) user)) with roleNames.
  change (User_ID (Preload_Roles (tables w) user)) with (User_ID user).
  change (User_Email (Preload_Roles (tables w) user)) with (User_Email user).
  pose proof (GenerateToken_accepted (tokenManager h) (clock w) (clock w) (clock w)
                (User_ID user) (User_Email user) roleNames (clock w) RT
                (issued_now_window (clock w))) as V.
  eexists _, _. split; [reflexivity|]. cbn [AR_ExpiresAt AR_User AR_Token UI_Roles snd].
  split; [reflexivity|]. split; [reflexivity|]. split; [exact V|].
  split; [reflexivity|]. split; [reflexivity|]. split; [reflexivity|]. split.
  - intros request Hh.
    rewrite (AuthMiddleware_Bearer _ _ _ _ Hh), V.
    unfold GetUserID, GetUserRoles, Context_Get, Context_Set. cbn [Keys Aborted].
    repeat (rewrite lookup_insert_eq || (rewrite lookup_insert_ne by discriminate)).
    repeat split; reflexivity.
  - apply (gorm_Update_last_login_nofault (Preload_Roles (tables w) user) _ _ F).
Qed.

End LoginProperties.

Section LoginExamples.
#[local] Existing Instance exampleWire.
#[local] Existing Instance exampleBcrypt.

(** A wrong password for the example user, and an e-mail of no user. *)
Lemma Login_refuses_alike_witness :
  AuthHandler_Login example_handler example_validate (Ok (example_login "guess"))
    (example_request "") (example_world example_db 0) =
  AuthHandler_Login example_handler example_validate
    (Ok {| Req_Email := "nobody@example.org"; Req_Password := "secret" |})
    (example_request "") (example_world example_db 0).
Proof.
  destruct (Login_refuses_alike example_handler example_validate (example_login "guess")
              (example_request "") (example_world example_db 0) eq_refl eq_refl)
    as (_ & _ & Hwrong).
  destruct (Login_refuses_alike example_handler example_validate
              {| Req_Email := "nobody@example.org"; Req_Password := "secret" |}
              (example_request "") (example_world example_db 0) eq_refl eq_refl)
    as (_ & Hnone & _).
  rewrite (Hwrong example_user eq_refl), (Hnone eq_refl); [reflexivity|].
  intros (p & Ep & Ed). vm_compute in Ep. injection Ep as <-.
  vm_compute in Ed. discriminate Ed.
Defined.

(** The example user logs in with the right password. *)
Lemma Login_issues_valid_token_witness :
  exists response claims,
    fst (AuthHandler_Login example_handler example_validate (Ok (example_login "secret"))
           (example_request "") (example_world example_db Second)) =
      Context_JSON StatusOK (AuthResponseBody response) (example_request "") /\
    TokenManager_ValidateToken example_tm Second (AR_Token response) = Ok claims /\
    Roles claims = ["practitioner"; "admin"] /\
    map LastLogin
      (tbl_users (tables (snd (AuthHandler_Login example_handler example_validate
                                 (Ok (example_login "secret")) (example_request "")
                                 (example_world example_db Second))))) =
      [Some Second].
Proof.
  destruct (Login_issues_valid_token example_handler example_validate
              (example_login "secret") (example_request "")
              (example_world example_db Second) example_user eq_refl eq_refl eq_refl)
    as (response & claims & E & _ & _ & V & _ & _ & Hr & _ & Hw).
  - exists {| h_hash := "$secret"; h_salt := ""; h_cost := 10 |}. split; reflexivity.
  - vm_compute. reflexivity.
  - exists response, claims. split; [exact E|]. split; [exact V|].
    split; [exact Hr|]. rewrite Hw. reflexivity.
Defined.

End LoginExamples.

(** ** The seeded store and the permission table *)

Lemma link_cond_In roleID permissionID (links : list RolePermission) :
  existsb (fun rp => String.eqb (RP_RoleID rp) roleID &&
                     String.eqb (RP_PermissionID rp) permissionID) links = true <->
  In (roleID, permissionID) (map link_key links).
Proof.
  rewrite existsb_exists, in_map_iff. unfold link_key.
  split; intros (rp & A & B); exists rp.
  - apply andb_true_iff in B as [B1 B2]. apply String.eqb_eq in B1, B2.
    split; [congruence | exact A].
  - injection A as <- <-. split; [exact B|]. now rewrite !String.eqb_refl.
Qed.

Lemma gorm_Create_Permission_rows permission w r w' :
  gorm_Create_Permission permission w = (r, w') ->
  tables w' = tables w \/
  exists row, tables w' = permission_created_db (tables w) row /\
              Permission_Name row = Permission_Name permission /\
              Resource row = Resource permission /\ Action row = Action permission.
Proof.
  unfold gorm_Create_Permission.
  destruct (if String.eqb (Permission_ID permission) "" then uuid_New w
            else (Permission_ID permission, w)) as [id w1] eqn:Eid.
  assert (tables w1 = tables w) as E1.
  { destruct (String.eqb (Permission_ID permission) ""); injection Eid as <- <-;
      reflexivity. }
  destruct (statement w1) as [failed w2] eqn:S. apply statement_keeps in S as (E2 & _).
  destruct failed. { intros [= _ <-]. left. now rewrite E2, E1. }
  destruct (existsb _ _); intros [= _ <-]. { left. now rewrite E2, E1. }
  right. eexists. split.
  - cbn. unfold permission_created_db. rewrite E2, E1. reflexivity.
  - cbn. auto.
Qed.

(** The first loop writes to the table of permissions only, and every
    row it adds has the name, resource and action of a permission of the
    list. *)
Lemma create_default_permissions_rows perms : forall w,
  let db' := tables (snd (create_default_permissions perms w)) in
  tbl_users db' = tbl_users (tables w) /\
  tbl_roles db' = tbl_roles (tables w) /\
  tbl_user_roles db' = tbl_user_roles (tables w) /\
  tbl_role_permissions db' = tbl_role_permissions (tables w) /\
  forall row, In row (tbl_permissions db') ->
    In row (tbl_permissions (tables w)) \/
    exists d, In d perms /\ Permission_Name row = Permission_Name d /\
              Resource row = Resource d /\ Action row = Action d.
Proof.
  induction perms as [|perm rest IH]; intros w db'; subst db'.
  - cbn. repeat split; auto.
  - cbn [create_default_permissions].
    destruct (gorm_First _ _ w) as [existing w1] eqn:E1.
    apply gorm_First_tables in E1.
    assert (Hrest : forall w2, tables w2 = tables w \/
              (exists row, tables w2 = permission_created_db (tables w) row /\
                 Permission_Name row = Permission_Name perm /\
                 Resource row = Resource perm /\ Action row = Action perm) ->
              let db' := tables (snd (create_default_permissions rest w2)) in
              tbl_users db' = tbl_users (tables w) /\
              tbl_roles db' = tbl_roles (tables w) /\
              tbl_user_roles db' = tbl_user_roles (tables w) /\
              tbl_role_permissions db' = tbl_role_permissions (tables w) /\
              forall row, In row (tbl_permissions db') ->
                In row (tbl_permissions (tables w)) \/
                exists d, In d (perm :: rest) /\
                          Permission_Name row = Permission_Name d /\
                          Resource row = Resource d /\ Action row = Action d).
    { intros w2 Hw2. destruct (IH w2) as (A & B & C & D & Hrows).
      destruct Hw2 as [E|(new & E & En & Er & Ea)]; rewrite E in *; cbn in *.
      - repeat (split; [assumption|]). intros row Hrow.
        destruct (Hrows row Hrow) as [Hold|(d & Hd & Hd')]; [now left|].
        right. exists d. split; [now right|exact Hd'].
      - repeat (split; [assumption|]). intros row Hrow.
        destruct (Hrows row Hrow) as [Hold|(d & Hd & Hd')].
        + apply in_app_iff in Hold as [Hold|[<-|[]]]; [now left|].
          right. exists perm. split; [now left|auto].
        + right. exists d. split; [now right|exact Hd']. }
    assert (Hstop : forall (e : option Error) w2, tables w2 = tables w ->
              let db' := tables (snd (e, w2)) in
              tbl_users db' = tbl_users (tables w) /\
              tbl_roles db' = tbl_roles (tables w) /\
              tbl_user_roles db' = tbl_user_roles (tables w) /\
              tbl_role_permissions db' = tbl_role_permissions (tables w) /\
              forall row, In row (tbl_permissions db') ->
                In row (tbl_permissions (tables w)) \/
                exists d, In d (perm :: rest) /\
                          Permission_Name row = Permission_Name d /\
                          Resource row = Resource d /\ Action row = Action d).
    { intros e w2 E. cbn. rewrite E. repeat split; auto. }
    destruct existing as [row|[| |]].
    + apply Hrest. now left.
    + destruct (gorm_Create_Permission perm w1) as [[created|err] w2] eqn:E2;
        apply gorm_Create_Permission_rows in E2; rewrite E1 in E2.
      * now apply Hrest.
      * destruct E2 as [E2|(new & E2 & Hnew)]; [now apply Hstop|].
        cbn. rewrite E2. cbn. repeat (split; [reflexivity|]). intros row Hrow.
        apply in_app_iff in Hrow as [Hold|[<-|[]]]; [now left|].
        right. exists perm. split; [now left|exact Hnew].
    + now apply Hstop.
    + now apply Hstop.
Qed.

Lemma role_permissions_of_links db db1 roleID :
  tbl_permissions db1 = tbl_permissions db ->
  (forall permissionID,
     In (roleID, permissionID) (map link_key (tbl_role_permissions db1)) <->
     In (roleID, permissionID) (map link_key (tbl_role_permissions db))) ->
  role_permissions_of db1 roleID = role_permissions_of db roleID.
Proof.
  intros Ep Hkeys. unfold role_permissions_of. rewrite Ep.
  apply filter_ext_in. intros p _. apply eq_true_iff_eq.
  rewrite !link_cond_In. apply Hkeys.
Qed.

Lemma role_permissions_of_named db roleID (permNames : list string) :
  List.NoDup (map Permission_ID (tbl_permissions db)) ->
  (forall permissionID,
     In (roleID, permissionID) (map link_key (tbl_role_permissions db)) <->
     exists q, In q (List.filter (fun p => bool_decide (Permission_Name p ∈ permNames))
                       (tbl_permissions db)) /\
               permissionID = Permission_ID q) ->
  role_permissions_of db roleID =
  List.filter (fun p => bool_decide (Permission_Name p ∈ permNames)) (tbl_permissions db).
Proof.
  intros Hpk Hkeys. unfold role_permissions_of.
  apply filter_ext_in. intros p Hp. apply eq_true_iff_eq.
  rewrite link_cond_In, Hkeys. split.
  - intros (q & Hq & Eid). apply filter_In in Hq as [Hq Hname].
    now rewrite (NoDup_map_inj Permission_ID _ p q Hpk Hp Hq Eid).
  - intros Hname. exists p. split; [|reflexivity]. apply filter_In. now split.
Qed.

(** The second loop on a store that has none of the roles yet: every
    role it finds in the store afterwards was there before, with the
    permissions it had, or is a role of the list with exactly the
    permissions the list names. *)
Lemma create_default_roles_grants order : forall w,
  faults w = [] -> FreshUUIDs w ->
  List.NoDup (map Permission_ID (tbl_permissions (tables w))) ->
  List.NoDup (map fst order) ->
  (forall entry, In entry order ->
     ~ In (fst entry) (map Role_Name (tbl_roles (tables w)))) ->
  LinksOfRoles (tables w) ->
  exists w',
    create_default_roles order w = (None, w') /\
    faults w' = [] /\
    tbl_permissions (tables w') = tbl_permissions (tables w) /\
    tbl_users (tables w') = tbl_users (tables w) /\
    tbl_user_roles (tables w') = tbl_user_roles (tables w) /\
    (forall role, In role (tbl_roles (tables w)) ->
       In role (tbl_roles (tables w')) /\
       role_permissions_of (tables w') (Role_ID role) =
       role_permissions_of (tables w) (Role_ID role)) /\
    (forall role, In role (tbl_roles (tables w')) ->
       In role (tbl_roles (tables w)) \/
       exists permNames, In (Role_Name role, permNames) order /\
                         RoleGrants (tables w') role permNames).
Proof.
  induction order as [|[roleName permNames] rest IH];
    intros w F Hfresh Hpk Hnd Hnew Hlinks.
  - exists w. split; [reflexivity|]. split; [exact F|]. do 3 (split; [reflexivity|]).
    split; [intros role Hr; split; [exact Hr|reflexivity]|]. intros role Hr. now left.
  - cbn [create_default_roles]. rewrite (gorm_First_nofault _ _ _ F).
    pose proof (Hnew (roleName, permNames) (or_introl eq_refl)) as Hnotin.
    cbn [fst] in Hnotin. rewrite (find_eqb_None Role_Name _ _ Hnotin).
    pose proof Hfresh as (Hinj & Hfr & Hfp).
    erewrite gorm_Create_Role_nofault;
      [|exact F|reflexivity|exact (Hfr 0)|exact Hnotin].
    cbn [Role_Name Role_Description Permissions].
    rewrite gorm_Find_nofault by reflexivity.
    unfold gorm_Append_Permissions, statement.
    cbn [faults tables clock uuids tbl_users tbl_roles tbl_permissions tbl_user_roles
         tbl_role_permissions Role_ID].
    unfold with_tables. cbn [tables clock faults uuids].
    match goal with |- context [create_default_roles rest ?x] => set (w1 := x) end.
    set (u0 := uuids w 0) in *.
    set (found := List.filter (fun p => bool_decide (Permission_Name p ∈ permNames))
                    (tbl_permissions (tables w))) in *.
    set (new := {| Role_ID := u0; Role_Name := roleName;
                   Role_Description := "Default " +:+ roleName +:+ " role";
                   Permissions := []; Role_CreatedAt := clock w;
                   Role_UpdatedAt := clock w |}) in *.
    assert (Hold : forall permissionID,
              ~ In (u0, permissionID) (map link_key (tbl_role_permissions (tables w)))).
    { intros pid Hin. apply in_map_iff in Hin as (rp & Ek & Hrp).
      apply Hlinks in Hrp. injection Ek as E1 _. rewrite E1 in Hrp.
      exact (Hfr 0 Hrp). }
    assert (Hkeys1 : forall k,
              In k (map link_key (tbl_role_permissions (tables w1))) <->
              In k (map link_key (tbl_role_permissions (tables w))) \/
              exists p, In p found /\ k = (u0, Permission_ID p)).
    { intros k. subst w1. cbn [tables tbl_role_permissions].
      apply link_permissions_keys. }
    assert (Hother : forall roleID, roleID <> u0 ->
              role_permissions_of (tables w1) roleID =
              role_permissions_of (tables w) roleID).
    { intros roleID Hne. apply role_permissions_of_links; [reflexivity|].
      intros pid. rewrite Hkeys1. split; [|now left].
      intros [Hin|(p & _ & Ek)]; [exact Hin|]. injection Ek as E1 _. now destruct Hne. }
    assert (Hmine : RoleGrants (tables w1) new permNames).
    { apply role_permissions_of_named; [exact Hpk|]. intros pid.
      rewrite Hkeys1. cbn [Role_ID new]. split.
      - intros [Hin|(p & Hp & Ek)]; [now apply Hold in Hin|].
        injection Ek as ->. now exists p.
      - intros (q & Hq & ->). right. now exists q. }
    destruct (IH w1) as (w' & E & F' & Ep & Eu & Eur & Hkeep & Hall).
    + reflexivity.
    + apply FreshUUIDs_next; [exact Hfresh | |]; cbn [tbl_roles tbl_permissions].
      * intros id Hid. rewrite map_app in Hid.
        apply in_app_iff in Hid as [Hid|[<-|[]]]; [now left | now right].
      * intros id Hid. now left.
    + exact Hpk.
    + now apply List.NoDup_cons_iff in Hnd as [_ Hnd].
    + intros entry Hentry Hin. subst w1. cbn [tables tbl_roles] in Hin.
      rewrite map_app in Hin. apply in_app_iff in Hin as [Hin|[Hin|[]]].
      * apply (Hnew entry); [now right|exact Hin].
      * cbn in Hin. apply List.NoDup_cons_iff in Hnd as [Hnd _]. apply Hnd.
        cbn [fst]. rewrite Hin. now apply in_map.
    + intros rp Hrp. subst w1. cbn [tables tbl_roles tbl_role_permissions] in *.
      rewrite map_app. apply in_app_iff.
      assert (In (link_key rp) (map link_key (link_permissions u0 found
                (tbl_role_permissions (tables w))))) as Hk by now apply in_map.
      apply link_permissions_keys in Hk as [Hk|(p & _ & Ek)].
      * left. apply in_map_iff in Hk as (rp' & Ek & Hrp').
        injection Ek as E1 _. rewrite <- E1. now apply Hlinks.
      * right. left. now injection Ek as -> _.
    + exists w'. split; [exact E|]. split; [exact F'|].
      split; [now rewrite Ep|]. split; [now rewrite Eu|]. split; [now rewrite Eur|].
      split.
      * intros role Hr.
        assert (In role (tbl_roles (tables w1))) as Hr1
          by (subst w1; cbn; apply in_app_iff; now left).
        destruct (Hkeep role Hr1) as [Hin Eperms]. split; [exact Hin|].
        rewrite Eperms. apply Hother. intros Eid. apply (Hfr 0). fold u0.
        rewrite <- Eid. now apply in_map.
      * intros role Hr. destruct (Hall role Hr) as [Hr1|(names & Hnames & Hg)].
        -- subst w1. cbn [tables tbl_roles] in Hr1.
           apply in_app_iff in Hr1 as [Hr1|[<-|[]]]; [now left|].
           right. exists permNames. split; [now left|].
           unfold RoleGrants. rewrite Ep.
           destruct (Hkeep new) as [_ ->]; [apply in_app_iff; right; now left|].
           exact Hmine.
        -- right. exists names. split; [now right|exact Hg].
Qed.

Lemma gorm_Create_Permission_ids permission w r w' :
  gorm_Create_Permission permission w = (r, w') ->
  List.NoDup (map Permission_ID (tbl_permissions (tables w))) ->
  List.NoDup (map Permission_ID (tbl_permissions (tables w'))).
Proof.
  unfold gorm_Create_Permission.
  destruct (if String.eqb (Permission_ID permission) "" then uuid_New w
            else (Permission_ID permission, w)) as [id w1] eqn:Eid.
  assert (tables w1 = tables w) as E1.
  { destruct (String.eqb (Permission_ID permission) ""); injection Eid as <- <-;
      reflexivity. }
  destruct (statement w1) as [failed w2] eqn:S. apply statement_keeps in S as (E2 & _).
  destruct failed. { intros [= _ <-]. now rewrite E2, E1. }
  destruct (existsb _ _) eqn:Ex; intros [= _ <-]. { now rewrite E2, E1. }
  rewrite E2, E1 in *. cbn [with_tables tables tbl_permissions] in *.
  apply key_or_name_free in Ex as [Hid _].
  intros Hpk. rewrite map_app. now apply NoDup_snoc.
Qed.

Lemma create_default_permissions_ids perms : forall w,
  List.NoDup (map Permission_ID (tbl_permissions (tables w))) ->
  List.NoDup (map Permission_ID
                (tbl_permissions (tables (snd (create_default_permissions perms w))))).
Proof.
  induction perms as [|perm rest IH]; intros w Hpk; [exact Hpk|].
  cbn [create_default_permissions].
  destruct (gorm_First _ _ w) as [existing w1] eqn:E1.
  apply gorm_First_tables in E1. rewrite <- E1 in Hpk.
  destruct existing as [row|[| |]]; [now apply IH| |exact Hpk|exact Hpk].
  destruct (gorm_Create_Permission perm w1) as [[created|err] w2] eqn:E2;
    apply gorm_Create_Permission_ids in E2; try exact Hpk; [now apply IH|exact E2].
Qed.

Lemma checkPermission_map {T} (name : T -> string) (l : list T) resource action :
  checkPermission (map name l) resource action =
  existsb (fun x => checkPermission [name x] resource action) l.
Proof.
  induction l as [|x l IH]; [reflexivity|].
  change (map name (x :: l)) with ([name x] ++ map name l).
  rewrite checkPermission_app, IH. reflexivity.
Qed.

Lemma existsb_ext_in {T} (f g : T -> bool) (l : list T) :
  (forall x, In x l -> f x = g x) -> existsb f l = existsb g l.
Proof.
  induction l as [|x l IH]; intros Hext; [reflexivity|]. cbn [existsb].
  rewrite (Hext x (or_introl eq_refl)), IH; [reflexivity|].
  intros y Hy. apply Hext. now right.
Qed.

(** X25.  The two ways to decide a permission agree on a store seeded by
    [InitializeDefaultRoles].  From a store without roles, permissions and
    links, with no storage failure and uuids that are new, the seeding
    returns [nil], in whichever order the map of roles is visited; and on
    every later store with the roles, permissions and links of the seeded
    one, whatever its users and assignments, [RBACService.HasPermission]
    answers for a user of the store what [checkPermission], the table behind
    [RequirePermission], answers for the names of the user's roles. *)
Theorem InitializeDefaultRoles_realizes_checkPermission
    (range : gmap string Permission -> list (string * Permission))
    (order : list (string * list string)) (w : World) :
  RangeOrder range ->
  Permutation order rolePermissions ->
  faults w = [] ->
  FreshUUIDs w ->
  tbl_roles (tables w) = [] ->
  tbl_permissions (tables w) = [] ->
  tbl_role_permissions (tables w) = [] ->
  let out := RBACService_InitializeDefaultRoles order w in
  fst out = None /\
  forall later userID resource action,
    faults later = [] ->
    tbl_roles (tables later) = tbl_roles (tables (snd out)) ->
    tbl_permissions (tables later) = tbl_permissions (tables (snd out)) ->
    tbl_role_permissions (tables later) = tbl_role_permissions (tables (snd out)) ->
    In userID (map User_ID (tbl_users (tables later))) ->
    fst (RBACService_HasPermission range userID resource action later) =
      Ok (checkPermission (map Role_Name (user_roles_of (tables later) userID))
            resource action).
Proof.
  intros Hrange Hperm F Hfresh Hr0 Hp0 Hl0 out. subst out.
  unfold RBACService_InitializeDefaultRoles.
  (* the first loop *)
  destruct (create_default_permissions_spec defaultPermissions) with (w := w)
    as (w1 & E1 & S1 & Hroles1 & Hnames1); try assumption.
  { intros p Hp. cbn in Hp.
    repeat (destruct Hp as [<-|Hp]; [reflexivity|]). destruct Hp. }
  { rewrite Hp0. constructor. }
  { rewrite Hr0. constructor. }
  pose proof (create_default_permissions_rows defaultPermissions w) as Hrows.
  pose proof (create_default_permissions_ids defaultPermissions w) as Hpk1.
  rewrite E1 in Hrows, Hpk1 |- *. cbn [snd] in Hrows, Hpk1.
  destruct Hrows as (_ & _ & _ & Hlinks1 & Hrows).
  specialize (Hpk1 ltac:(rewrite Hp0; constructor)).
  (* the second loop *)
  destruct (create_default_roles_grants order w1) as
    (w' & E2 & _ & Ep & _ & _ & _ & Hall).
  - exact (seeded_faults _ _ S1).
  - exact (seeded_fresh _ _ S1).
  - exact Hpk1.
  - apply (Permutation_NoDup (l := map fst rolePermissions)).
    + apply Permutation_map. now symmetry.
    + cbn. repeat (constructor; [cbn; intuition discriminate|]). constructor.
  - intros entry _. rewrite Hroles1, Hr0. intros [].
  - intros rp Hrp. rewrite Hlinks1, Hl0 in Hrp. destruct Hrp.
  - rewrite E2. cbn [fst snd]. split; [reflexivity|].
    intros later userID resource action Fl Er Epm El Hin.
    apply find_eqb_Some in Hin as (u & Eu & Eid & _).
    rewrite (HasPermission_loaded range Hrange userID resource action later u Fl)
      by first [rewrite Epm, Ep; exact Hpk1 | exact Eu].
    cbn [fst]. f_equal.
    unfold User_HasPermission, Preload_Roles_Permissions. cbn [User_Roles set_Roles].
    rewrite Eid, existsb_map, checkPermission_map.
    apply existsb_ext_in. intros role Hrole.
    cbn [Preload_Permissions set_Permissions Permissions].
    apply filter_In in Hrole as [Hrole _]. rewrite Er in Hrole.
    destruct (Hall role Hrole) as [Hold|(permNames & Hentry & Hgrants)].
    { rewrite Hroles1, Hr0 in Hold. destruct Hold. }
    assert (In (Role_Name role, permNames) rolePermissions) as Hentry'
      by (apply (Permutation_in _ Hperm); exact Hentry).
    replace (role_permissions_of (tables later) (Role_ID role))
      with (role_permissions_of (tables w') (Role_ID role))
      by (unfold role_permissions_of; now rewrite Epm, El).
    rewrite Hgrants, Ep, checkPermission_single. apply eq_true_iff_eq.
    rewrite existsb_exists, seeded_grant_spec. split.
    + intros (row & Hrow & Hc). apply filter_In in Hrow as [Hrow Hname].
      apply (bool_decide_eq_true_1 _) in Hname. apply list_elem_of_In in Hname.
      apply andb_true_iff in Hc as [Hres Hact]. apply String.eqb_eq in Hres, Hact.
      destruct (Hrows row Hrow) as [Hold|(d & Hd & En & Eres & Eact)].
      { rewrite Hp0 in Hold. destruct Hold. }
      exists permNames, d. rewrite <- En, <- Eres, <- Eact. auto.
    + intros (names & d & Hnames & Hd & Hdn & Hres & Hact).
      assert (names = permNames) as ->.
      { assert ((Role_Name role, names) = (Role_Name role, permNames)) as Epair.
        { apply (NoDup_map_inj fst rolePermissions); auto.
          cbn. repeat (constructor; [cbn; intuition discriminate|]). constructor. }
        now injection Epair. }
      pose proof (Hnames1 d Hd) as Hpresent.
      apply in_map_iff in Hpresent as (row & En & Hrow).
      assert (Resource row = Resource d /\ Action row = Action d) as [Eres Eact].
      { destruct (Hrows row Hrow) as [Hold|(d' & Hd' & En' & Eres & Eact)].
        { rewrite Hp0 in Hold. destruct Hold. }
        assert (d' = d) as ->.
        { apply (NoDup_map_inj Permission_Name defaultPermissions); auto; [|congruence].
          cbn. repeat (constructor; [cbn; intuition discriminate|]). constructor. }
        auto. }
      exists row. split.
      * apply filter_In. split; [exact Hrow|].
        apply (bool_decide_eq_true_2 _). apply list_elem_of_In. now rewrite En.
      * now rewrite Eres, Eact, Hres, Hact, !String.eqb_refl.
Qed.

(** A new store is seeded and the example user is made a nurse: the
    user may read observations and may not update them. *)
Lemma InitializeDefaultRoles_realizes_checkPermission_witness :
  let seeded := snd (RBACService_InitializeDefaultRoles rolePermissions
                       (example_world example_new_db 0)) in
  let later :=
    with_tables {| tbl_users := tbl_users (tables seeded);
                   tbl_roles := tbl_roles (tables seeded);
                   tbl_permissions := tbl_permissions (tables seeded);
                   tbl_user_roles := [{| UR_UserID := "u1"; UR_RoleID := example_uuids 14;
                                         GrantedBy := "root"; GrantedAt := 0 |}];
                   tbl_role_permissions := tbl_role_permissions (tables seeded) |}
      seeded in
  map Role_Name (user_roles_of (tables later) "u1") = ["nurse"] /\
  fst (RBACService_HasPermission map_to_list "u1" "observations" "read" later) =
    Ok true /\
  fst (RBACService_HasPermission map_to_list "u1" "observations" "update" later) =
    Ok false.
Proof.
  intros seeded later.
  assert (RangeOrder map_to_list) as Hrange by (intros m; reflexivity).
  assert (FreshUUIDs (example_world example_new_db 0)) as Hfresh.
  { unfold FreshUUIDs, example_world, example_uuids. cbn [uuids tables].
    split; [|split].
    - intros m n E. apply tally_inj. now injection E.
    - intros n [].
    - intros n []. }
  destruct (InitializeDefaultRoles_realizes_checkPermission map_to_list rolePermissions
              (example_world example_new_db 0) Hrange (Permutation_refl _) eq_refl Hfresh
              eq_refl eq_refl eq_refl) as (_ & Hlater).
  split; [vm_compute; reflexivity|].
  split.
  - rewrite (Hlater later "u1" "observations" "read").
    + vm_compute. reflexivity.
    + vm_compute. reflexivity.
    + vm_compute. reflexivity.
    + vm_compute. reflexivity.
    + vm_compute. reflexivity.
    + vm_compute. now left.
  - rewrite (Hlater later "u1" "observations" "update").
    + vm_compute. reflexivity.
    + vm_compute. reflexivity.
    + vm_compute. reflexivity.
    + vm_compute. reflexivity.
    + vm_compute. reflexivity.
    + vm_compute. now left.
Defined.
